(** * Jumpbox: a curses menu engine, embedded and verified

    A shallow embedding of [jumpbox.py], [submenu_item.py] and
    [external_item.py].  Python objects live in two heaps (menus and menu
    items) indexed by object identity; every method is a computation in a
    state-and-exception monad over a [World] that also holds the class
    attributes of [Jumpbox], the pending keyboard input and the log of the
    calls made to [curses] and to the operating system.

    The [curses] library is outside the program: its calls are logged and
    do not fail, except that a method of [None] raises [AttributeError] and
    a missing attribute argument raises [TypeError].  The Netbox items of
    [netbox_item.py] are not embedded; the Netbox client of
    [netbox_api.py] is embedded apart, in the module [NetboxAPI].

    The file has the model first, then the notions used to state the
    properties and the sample runs, then the proofs. *)

From Stdlib Require Import ZArith Lia.
From Equations Require Import Equations.
From stdpp Require Import gmap list strings pretty.

Open Scope Z_scope.

(** ** Python built-ins used by the program *)

(** [l[i]]: a negative index counts from the end, an index out of range has
    no element (Python raises [IndexError]). *)
Definition py_getitem {A : Type} (l : list A) (i : Z) : option A :=
  let n := Z.of_nat (length l) in
  if decide (0 ≤ i < n) then l !! Z.to_nat i
  else if decide (- n ≤ i < 0) then l !! Z.to_nat (n + i)
  else None.

(** [str(n)] and the [%d] conversion of an integer. *)
Definition str (n : Z) : string := pretty n.

(** [ord(s)] is defined on strings of length one only. *)
Definition ord (s : string) : option Z :=
  match s with
  | String c EmptyString => Some (Z.of_nat (Ascii.nat_of_ascii c))
  | _ => None
  end.

(** [len(s)] of a string. *)
Definition len (s : string) : Z := Z.of_nat (String.length s).

(** [s.lower()] on ASCII letters. *)
Definition lower_ascii (c : Ascii.ascii) : Ascii.ascii :=
  let n := Ascii.nat_of_ascii c in
  if decide (65 ≤ n ≤ 90)%nat then Ascii.ascii_of_nat (n + 32) else c.

Fixpoint lower (s : string) : string :=
  match s with
  | EmptyString => EmptyString
  | String c s' => String (lower_ascii c) (lower s')
  end.

(** ["%s" % v] where [v] is a string or [None]. *)
Definition percent_s (v : option string) : string :=
  match v with
  | Some s => s
  | None => "None"
  end.

(** ** Constants of the [curses] module *)

Definition KEY_DOWN : Z := 258.
Definition KEY_UP : Z := 259.
Definition KEY_LEFT : Z := 260.
Definition KEY_RIGHT : Z := 261.
Definition KEY_RESIZE : Z := 410.
Definition COLOR_BLACK : Z := 0.
Definition COLOR_WHITE : Z := 7.

Inductive attr : Type :=
  | A_NORMAL
  | A_BOLD
  | A_UNDERLINE
  | color_pair (n : Z).

(** ** Objects *)

Abbreviation menu_id := nat.
Abbreviation item_id := nat.

Inductive item_class : Type :=
  | IsMenuItem
  | IsExitItem
  | IsSubmenuItem
  | IsExternalItem
  | IsQuickConnect.

Global Instance item_class_eq_dec : EqDecision item_class.
Proof. solve_decision. Defined.

(** Instances of [MenuItem] and of its subclasses.  [submenu] is bound for a
    [SubmenuItem] only and [exit_status] is used by [QuickConnect] only. *)
Module Item.
Record t : Type := mk {
  class : item_class;
  text : string;
  menu : option menu_id;
  should_exit : bool;
  submenu : option menu_id;
  exit_status : option Z
}.

Definition with_text (s : string) (i : t) : t :=
  mk (class i) s (menu i) (should_exit i) (submenu i) (exit_status i).
Definition with_menu (m : option menu_id) (i : t) : t :=
  mk (class i) (text i) m (should_exit i) (submenu i) (exit_status i).
Definition with_exit_status (c : option Z) (i : t) : t :=
  mk (class i) (text i) (menu i) (should_exit i) (submenu i) c.
End Item.

(** A pad or window is known by its size, (rows, columns). *)
Abbreviation window := (Z * Z)%type.

(** Instances of [Jumpbox]. *)
Record Jumpbox : Type := mkJumpbox {
  title : option string;
  subtitle : option string;
  show_exit_option : bool;
  screen : option window;
  highlight : option attr;
  normal : option attr;
  term_y : Z;
  term_x : Z;
  items : list item_id;
  current_option : Z;
  selected_option : Z;
  returned_value : option string;
  should_exit : bool;
  parent : option menu_id;
  previous_active_menu : option menu_id;
  exit_item : item_id;
  _running : bool
}.

Definition with_screen (v : option window) (J : Jumpbox) : Jumpbox :=
  mkJumpbox (title J) (subtitle J) (show_exit_option J) v (highlight J)
    (normal J) (term_y J) (term_x J) (items J) (current_option J)
    (selected_option J) (returned_value J) (should_exit J) (parent J)
    (previous_active_menu J) (exit_item J) (_running J).

Definition with_colors (h n : option attr) (J : Jumpbox) : Jumpbox :=
  mkJumpbox (title J) (subtitle J) (show_exit_option J) (screen J) h n
    (term_y J) (term_x J) (items J) (current_option J)
    (selected_option J) (returned_value J) (should_exit J) (parent J)
    (previous_active_menu J) (exit_item J) (_running J).

Definition with_term (y x : Z) (J : Jumpbox) : Jumpbox :=
  mkJumpbox (title J) (subtitle J) (show_exit_option J) (screen J)
    (highlight J) (normal J) y x (items J) (current_option J)
    (selected_option J) (returned_value J) (should_exit J) (parent J)
    (previous_active_menu J) (exit_item J) (_running J).

Definition with_items (l : list item_id) (J : Jumpbox) : Jumpbox :=
  mkJumpbox (title J) (subtitle J) (show_exit_option J) (screen J)
    (highlight J) (normal J) (term_y J) (term_x J) l (current_option J)
    (selected_option J) (returned_value J) (should_exit J) (parent J)
    (previous_active_menu J) (exit_item J) (_running J).

Definition with_current_option (v : Z) (J : Jumpbox) : Jumpbox :=
  mkJumpbox (title J) (subtitle J) (show_exit_option J) (screen J)
    (highlight J) (normal J) (term_y J) (term_x J) (items J) v
    (selected_option J) (returned_value J) (should_exit J) (parent J)
    (previous_active_menu J) (exit_item J) (_running J).

Definition with_selected_option (v : Z) (J : Jumpbox) : Jumpbox :=
  mkJumpbox (title J) (subtitle J) (show_exit_option J) (screen J)
    (highlight J) (normal J) (term_y J) (term_x J) (items J)
    (current_option J) v (returned_value J) (should_exit J) (parent J)
    (previous_active_menu J) (exit_item J) (_running J).

Definition with_returned_value (v : option string) (J : Jumpbox) : Jumpbox :=
  mkJumpbox (title J) (subtitle J) (show_exit_option J) (screen J)
    (highlight J) (normal J) (term_y J) (term_x J) (items J)
    (current_option J) (selected_option J) v (should_exit J) (parent J)
    (previous_active_menu J) (exit_item J) (_running J).

Definition with_should_exit (v : bool) (J : Jumpbox) : Jumpbox :=
  mkJumpbox (title J) (subtitle J) (show_exit_option J) (screen J)
    (highlight J) (normal J) (term_y J) (term_x J) (items J)
    (current_option J) (selected_option J) (returned_value J) v (parent J)
    (previous_active_menu J) (exit_item J) (_running J).

Definition with_parent (v : option menu_id) (J : Jumpbox) : Jumpbox :=
  mkJumpbox (title J) (subtitle J) (show_exit_option J) (screen J)
    (highlight J) (normal J) (term_y J) (term_x J) (items J)
    (current_option J) (selected_option J) (returned_value J)
    (should_exit J) v (previous_active_menu J) (exit_item J) (_running J).

Definition with_previous_active_menu (v : option menu_id) (J : Jumpbox)
  : Jumpbox :=
  mkJumpbox (title J) (subtitle J) (show_exit_option J) (screen J)
    (highlight J) (normal J) (term_y J) (term_x J) (items J)
    (current_option J) (selected_option J) (returned_value J)
    (should_exit J) (parent J) v (exit_item J) (_running J).

Definition with_exit_item (v : item_id) (J : Jumpbox) : Jumpbox :=
  mkJumpbox (title J) (subtitle J) (show_exit_option J) (screen J)
    (highlight J) (normal J) (term_y J) (term_x J) (items J)
    (current_option J) (selected_option J) (returned_value J)
    (should_exit J) (parent J) (previous_active_menu J) v (_running J).

Definition with_running (v : bool) (J : Jumpbox) : Jumpbox :=
  mkJumpbox (title J) (subtitle J) (show_exit_option J) (screen J)
    (highlight J) (normal J) (term_y J) (term_x J) (items J)
    (current_option J) (selected_option J) (returned_value J)
    (should_exit J) (parent J) (previous_active_menu J) (exit_item J) v.

(** ** The world outside the objects *)

(** One keyboard event delivered by [getch]: a key code, or a change of the
    terminal size, which [getch] reports as [KEY_RESIZE]. *)
Inductive input : Type :=
  | Key (code : Z)
  | Resized (rows cols : Z).

(** The calls the program makes to [curses], [os] and [subprocess], in the
    order they are made.  A call on a pad names the menu that owns the pad. *)
Inductive call : Type :=
  | Initscr
  | Endwin
  | Newpad (m : menu_id) (rows cols : Z)
  | Init_pair (n fg bg : Z)
  | Curs_set (visibility : Z)
  | Def_prog_mode
  | Reset_prog_mode
  | Stdscr_refresh
  | Stdscr_erase
  | Getch (m : menu_id)
  | Border (m : menu_id)
  | Addstr (m : menu_id) (y x : Z) (s : string) (a : attr)
  | Refresh (m : menu_id) (pminrow pmincol sminrow smincol smaxrow smaxcol : Z)
  | Clear (m : menu_id)
  | Resize (m : menu_id) (rows cols : Z)
  | Os_system (command : string)
  | Raw_input (prompt : string)
  | Subprocess (commandline : string).

Record World : Type := mkWorld {
  menus : gmap menu_id Jumpbox;
  objs : gmap item_id Item.t;
  currently_active_menu : option menu_id;
  stdscr : option window;
  tty : window;
  platform_system : string;
  keys : list input;
  stdin : list string;
  exit_codes : list Z;
  trace : list call
}.

Definition with_menus (v : gmap menu_id Jumpbox) (w : World) : World :=
  mkWorld v (objs w) (currently_active_menu w) (stdscr w) (tty w)
    (platform_system w) (keys w) (stdin w) (exit_codes w) (trace w).

Definition with_objs (v : gmap item_id Item.t) (w : World) : World :=
  mkWorld (menus w) v (currently_active_menu w) (stdscr w) (tty w)
    (platform_system w) (keys w) (stdin w) (exit_codes w) (trace w).

Definition with_currently_active_menu (v : option menu_id) (w : World)
  : World :=
  mkWorld (menus w) (objs w) v (stdscr w) (tty w)
    (platform_system w) (keys w) (stdin w) (exit_codes w) (trace w).

Definition with_stdscr (v : option window) (w : World) : World :=
  mkWorld (menus w) (objs w) (currently_active_menu w) v (tty w)
    (platform_system w) (keys w) (stdin w) (exit_codes w) (trace w).

Definition with_tty (v : window) (w : World) : World :=
  mkWorld (menus w) (objs w) (currently_active_menu w) (stdscr w) v
    (platform_system w) (keys w) (stdin w) (exit_codes w) (trace w).

Definition with_keys (v : list input) (w : World) : World :=
  mkWorld (menus w) (objs w) (currently_active_menu w) (stdscr w) (tty w)
    (platform_system w) v (stdin w) (exit_codes w) (trace w).

Definition with_stdin (v : list string) (w : World) : World :=
  mkWorld (menus w) (objs w) (currently_active_menu w) (stdscr w) (tty w)
    (platform_system w) (keys w) v (exit_codes w) (trace w).

Definition with_exit_codes (v : list Z) (w : World) : World :=
  mkWorld (menus w) (objs w) (currently_active_menu w) (stdscr w) (tty w)
    (platform_system w) (keys w) (stdin w) v (trace w).

Definition with_trace (v : list call) (w : World) : World :=
  mkWorld (menus w) (objs w) (currently_active_menu w) (stdscr w) (tty w)
    (platform_system w) (keys w) (stdin w) (exit_codes w) v.

(** ** Computations *)

Inductive exn : Type :=
  | UnboundLocalError
  | IndexError
  | AttributeError
  | TypeError
  | DanglingReference.

(** A call returns, raises, waits for input that never comes, or is cut off
    by the bound on the nesting of run loops. *)
Inductive outcome (A : Type) : Type :=
  | Ok (a : A)
  | Raise (e : exn)
  | Blocked
  | OutOfFuel.

Arguments Ok {A} a.
Arguments Raise {A} e.
Arguments Blocked {A}.
Arguments OutOfFuel {A}.

Definition M (A : Type) : Type := World → World * outcome A.

Definition ret {A : Type} (a : A) : M A := λ w, (w, Ok a).

Definition bind {A B : Type} (c : M A) (k : A → M B) : M B :=
  λ w,
    match c w with
    | (w', Ok a) => k a w'
    | (w', Raise e) => (w', Raise e)
    | (w', Blocked) => (w', Blocked)
    | (w', OutOfFuel) => (w', OutOfFuel)
    end.

Notation "'do' x <- c ; k" := (bind c (λ x, k))
  (at level 10, x name, c at level 99, k at level 200,
   format "'[v' 'do'  x  <-  c ; '/' k ']'").
Notation "c ;; k" := (bind c (λ _, k))
  (at level 100, k at level 200, right associativity).

Definition raise {A : Type} (e : exn) : M A := λ w, (w, Raise e).
Definition blocked {A : Type} : M A := λ w, (w, Blocked).
Definition out_of_fuel {A : Type} : M A := λ w, (w, OutOfFuel).
Definition get : M World := λ w, (w, Ok w).
Definition modify (f : World → World) : M unit := λ w, (f w, Ok tt).

(** [try: c finally: h]. *)
Definition finally {A : Type} (c : M A) (h : M unit) : M A :=
  λ w,
    match c w with
    | (w', r) =>
        match h w' with
        | (w'', Ok _) => (w'', r)
        | (w'', Raise e) => (w'', Raise e)
        | (w'', Blocked) => (w'', Blocked)
        | (w'', OutOfFuel) => (w'', OutOfFuel)
        end
    end.

(** [for index, x in enumerate(l): body], from index [i] on.  The result is
    the binding of the loop variable [index] after the loop: unbound when
    the body never ran. *)
Fixpoint for_enumerate {A : Type} (body : nat → A → M unit) (i : nat)
    (l : list A) (index : option nat) : M (option nat) :=
  match l with
  | [] => ret index
  | x :: l' => body i x ;; for_enumerate body (S i) l' (Some i)
  end.

(** [while cond: body], cut off after [fuel] iterations. *)
Fixpoint while (fuel : nat) (cond : M bool) (body : M unit) : M unit :=
  do b <- cond;
  if b : bool then
    match fuel with
    | O => out_of_fuel
    | S fuel' => body ;; while fuel' cond body
    end
  else ret tt.

Definition emit (c : call) : M unit :=
  modify (λ w, with_trace (trace w ++ [c]) w).

(** Dereferencing. *)
Definition the_menu (m : menu_id) : M Jumpbox :=
  do w <- get;
  match menus w !! m with
  | Some J => ret J
  | None => raise DanglingReference
  end.

Definition the_item (i : item_id) : M Item.t :=
  do w <- get;
  match objs w !! i with
  | Some o => ret o
  | None => raise DanglingReference
  end.

(** Attribute assignment on a menu and on an item. *)
Definition update_menu (m : menu_id) (f : Jumpbox → Jumpbox) : M unit :=
  do J <- the_menu m;
  modify (λ w, with_menus (<[m := f J]> (menus w)) w).

Definition update_item (i : item_id) (f : Item.t → Item.t) : M unit :=
  do o <- the_item i;
  modify (λ w, with_objs (<[i := f o]> (objs w)) w).

(** Attribute access on a reference that may be [None]. *)
Definition not_none {A : Type} (o : option A) : M A :=
  match o with
  | Some a => ret a
  | None => raise AttributeError
  end.

Definition getitem {A : Type} (l : list A) (i : Z) : M A :=
  match py_getitem l i with
  | Some a => ret a
  | None => raise IndexError
  end.

Definition py_ord (s : string) : M Z :=
  match ord s with
  | Some c => ret c
  | None => raise TypeError
  end.

(** ** The [curses] calls of the program *)

(** Methods of [Jumpbox.stdscr], which is [None] until [curses.wrapper]
    has passed the standard screen to [_main_loop]. *)
Definition stdscr_getmaxyx : M window :=
  do w <- get;
  not_none (stdscr w).

Definition stdscr_refresh : M unit :=
  do w <- get;
  not_none (stdscr w) ;;
  emit Stdscr_refresh.

Definition stdscr_erase : M unit :=
  do w <- get;
  not_none (stdscr w) ;;
  emit Stdscr_erase.

(** [getch] waits for the next event; a change of the terminal size also
    changes the size of the standard screen. *)
Definition stdscr_getch (reader : menu_id) : M Z :=
  do w <- get;
  not_none (stdscr w) ;;
  emit (Getch reader) ;;
  match keys w with
  | [] => blocked
  | Key c :: ks => modify (with_keys ks) ;; ret c
  | Resized y x :: ks =>
      modify (λ w, with_keys ks (with_tty (y, x) (with_stdscr (Some (y, x)) w))) ;;
      ret KEY_RESIZE
  end.

(** Methods of the pad [self.screen]. *)
Definition the_screen (self : menu_id) : M window :=
  do J <- the_menu self;
  not_none (screen J).

Definition screen_border (self : menu_id) : M unit :=
  the_screen self ;;
  emit (Border self).

Definition screen_addstr (self : menu_id) (y x : Z) (s : string)
    (a : option attr) : M unit :=
  the_screen self ;;
  match a with
  | Some a => emit (Addstr self y x s a)
  | None => raise TypeError
  end.

Definition screen_refresh (self : menu_id)
    (pminrow pmincol sminrow smincol smaxrow smaxcol : Z) : M unit :=
  the_screen self ;;
  emit (Refresh self pminrow pmincol sminrow smincol smaxrow smaxcol).

Definition screen_clear (self : menu_id) : M unit :=
  the_screen self ;;
  emit (Clear self).

Definition screen_getmaxyx (self : menu_id) : M window :=
  the_screen self.

Definition screen_resize (self : menu_id) (rows cols : Z) : M unit :=
  the_screen self ;;
  update_menu self (with_screen (Some (rows, cols))) ;;
  emit (Resize self rows cols).

Definition curses_newpad (owner : menu_id) (rows cols : Z) : M window :=
  emit (Newpad owner rows cols) ;;
  ret (rows, cols).

Definition curses_curs_set (visibility : Z) : M unit :=
  emit (Curs_set visibility).

(** [curses.wrapper(func)]: initialise, call [func(stdscr)], and restore
    the terminal whether or not [func] raised. *)
Definition curses_wrapper (func : option window → M unit) : M unit :=
  emit Initscr ;;
  do w <- get;
  finally (func (Some (tty w))) (emit Endwin).

(** ** Module-level function of [jumpbox.py] *)

Definition clear_terminal : M unit :=
  do w <- get;
  if decide (lower (platform_system w) = "windows")
  then emit (Os_system "cls")
  else emit (Os_system "reset").

(** ** [Jumpbox] methods that draw nothing *)

Definition clear_screen (self : menu_id) : M unit :=
  screen_clear self ;;
  stdscr_erase ;;
  stdscr_refresh.

Definition current_item (self : menu_id) : M (option item_id) :=
  do J <- the_menu self;
  match items J with
  | _ :: _ =>
      do i <- getitem (items J) (current_option J);
      ret (Some i)
  | [] => ret None
  end.

Definition selected_item (self : menu_id) : M (option item_id) :=
  do J <- the_menu self;
  match items J with
  | _ :: _ =>
      if decide (selected_option J ≠ -1)
      then do i <- getitem (items J) (current_option J);
           ret (Some i)
      else ret None
  | [] => ret None
  end.

Definition reset_menu (self : menu_id) : M unit :=
  update_menu self (with_items []).

Definition add_exit (self : menu_id) : M bool :=
  do J <- the_menu self;
  match items J with
  | _ :: _ =>
      do last <- getitem (items J) (-1);
      if decide (last ≠ exit_item J)
      then update_menu self (with_items (items J ++ [exit_item J])) ;;
           ret true
      else ret false
  | [] => ret false
  end.

(** [del l[i]]. *)
Definition py_delitem {A : Type} (l : list A) (i : Z) : option (list A) :=
  let n := Z.of_nat (length l) in
  if decide (0 ≤ i < n) then Some (delete (Z.to_nat i) l)
  else if decide (- n ≤ i < 0) then Some (delete (Z.to_nat (n + i)) l)
  else None.

Definition remove_exit (self : menu_id) : M bool :=
  do J <- the_menu self;
  match items J with
  | _ :: _ =>
      do last <- getitem (items J) (-1);
      if decide (last = exit_item J)
      then match py_delitem (items J) (-1) with
           | Some l => update_menu self (with_items l) ;; ret true
           | None => raise IndexError
           end
      else ret false
  | [] => ret false
  end.

Definition exit (self : menu_id) : M unit :=
  update_menu self (with_should_exit true).

Definition _set_up_colors (self : menu_id) : M unit :=
  emit (Init_pair 1 COLOR_BLACK COLOR_WHITE) ;;
  update_menu self (with_colors (Some (color_pair 1)) (Some A_NORMAL)).

(** ** The menu item classes *)

(** Object creation: the new object gets an identity that no live object
    of its heap has. *)
Definition new_item (o : Item.t) : M item_id :=
  do w <- get;
  let i := fresh (dom (objs w)) in
  modify (with_objs (<[i := o]> (objs w))) ;;
  ret i.

Module MenuItem.
Definition __init__ (text : string) (menu : option menu_id)
    (should_exit : bool) : M item_id :=
  new_item (Item.mk IsMenuItem text menu should_exit None None).

Definition show (self : item_id) (index : Z) : M string :=
  do o <- the_item self;
  ret (str (index + 1) +:+ " - " +:+ Item.text o).

Definition set_up (self : item_id) : M unit := ret tt.
Definition action (self : item_id) : M unit := ret tt.
Definition clean_up (self : item_id) : M unit := ret tt.

Definition get_return (self : item_id) : M (option string) :=
  do o <- the_item self;
  do m <- not_none (Item.menu o);
  do J <- the_menu m;
  ret (returned_value J).
End MenuItem.

Module ExitItem.
Definition __init__ (text : string) (menu : option menu_id) : M item_id :=
  new_item (Item.mk IsExitItem text menu true None None).

Definition show (self : item_id) (index : Z) : M string :=
  do o <- the_item self;
  do p <- match Item.menu o with
          | Some m => do J <- the_menu m; ret (parent J)
          | None => ret None
          end;
  match p with
  | Some p =>
      do P <- the_menu p;
      update_item self
        (Item.with_text ("Return to " +:+ percent_s (title P) +:+ " menu"))
  | None => update_item self (Item.with_text "Exit")
  end ;;
  MenuItem.show self index.
End ExitItem.

Module SubmenuItem.
Definition __init__ (text : string) (submenu : menu_id)
    (menu : option menu_id) (should_exit : bool) : M item_id :=
  do self <- new_item
               (Item.mk IsSubmenuItem text menu should_exit (Some submenu)
                  None);
  match menu with
  | Some m => update_menu submenu (with_parent (Some m))
  | None => ret tt
  end ;;
  ret self.

Definition set_menu (self : item_id) (menu : option menu_id) : M unit :=
  update_item self (Item.with_menu menu) ;;
  do o <- the_item self;
  do s <- not_none (Item.submenu o);
  update_menu s (with_parent menu).

Definition set_up (self : item_id) : M unit :=
  emit Def_prog_mode ;;
  do o <- the_item self;
  do m <- not_none (Item.menu o);
  clear_screen m.

Definition clean_up (self : item_id) : M unit :=
  do o <- the_item self;
  do m <- not_none (Item.menu o);
  clear_screen m ;;
  emit Reset_prog_mode ;;
  curses_curs_set 1 ;;
  curses_curs_set 0.

Definition get_return (self : item_id) : M (option string) :=
  do o <- the_item self;
  do s <- not_none (Item.submenu o);
  do J <- the_menu s;
  ret (returned_value J).
End SubmenuItem.

Module ExternalItem.
Definition __init__ (text : string) (menu : option menu_id)
    (should_exit : bool) : M item_id :=
  new_item (Item.mk IsExternalItem text menu should_exit None None).

Definition set_up (self : item_id) : M unit :=
  emit Def_prog_mode ;;
  clear_terminal ;;
  do o <- the_item self;
  do m <- not_none (Item.menu o);
  clear_screen m.

Definition clean_up (self : item_id) : M unit :=
  do o <- the_item self;
  do m <- not_none (Item.menu o);
  clear_screen m ;;
  emit Reset_prog_mode ;;
  curses_curs_set 1 ;;
  curses_curs_set 0.
End ExternalItem.

(** [raw_input(prompt)] reads the next line typed by the operator. *)
Definition raw_input (prompt : string) : M string :=
  emit (Raw_input prompt) ;;
  do w <- get;
  match stdin w with
  | [] => blocked
  | l :: ls => modify (with_stdin ls) ;; ret l
  end.

(** Running a command line in a shell returns the exit code that the
    command chooses. *)
Definition subprocess_run (commandline : string) : M Z :=
  emit (Subprocess commandline) ;;
  do w <- get;
  match exit_codes w with
  | [] => blocked
  | c :: cs => modify (with_exit_codes cs) ;; ret c
  end.

Module QuickConnect.
(** The [args] attribute is written by [__init__] and never read. *)
Definition __init__ (text : string) (menu : option menu_id)
    (should_exit : bool) : M item_id :=
  new_item (Item.mk IsQuickConnect text menu should_exit None None).

Definition action (self : item_id) : M unit :=
  do hostname <- raw_input "Hostname/IP Address: ";
  do username <- raw_input "Username: ";
  let ssh := "ssh" in
  let commandline := ssh +:+ " " +:+ "-l" +:+ " " +:+ username +:+ " " +:+ hostname in
  do code <- subprocess_run commandline;
  update_item self (Item.with_exit_status (Some code)).
End QuickConnect.

(** Method resolution for the calls that do not start a menu. *)
Definition show (item : item_id) (index : Z) : M string :=
  do o <- the_item item;
  match Item.class o with
  | IsExitItem => ExitItem.show item index
  | _ => MenuItem.show item index
  end.

Definition set_up (item : item_id) : M unit :=
  do o <- the_item item;
  match Item.class o with
  | IsSubmenuItem => SubmenuItem.set_up item
  | IsExternalItem | IsQuickConnect => ExternalItem.set_up item
  | _ => MenuItem.set_up item
  end.

Definition clean_up (item : item_id) : M unit :=
  do o <- the_item item;
  match Item.class o with
  | IsSubmenuItem => SubmenuItem.clean_up item
  | IsExternalItem | IsQuickConnect => ExternalItem.clean_up item
  | _ => MenuItem.clean_up item
  end.

Definition get_return (item : item_id) : M (option string) :=
  do o <- the_item item;
  match Item.class o with
  | IsSubmenuItem => SubmenuItem.get_return item
  | _ => MenuItem.get_return item
  end.

(** [Jumpbox(title, subtitle, show_exit_option)]. *)
Definition __init__ (title subtitle : option string) (show_exit_option : bool)
    : M menu_id :=
  do w <- get;
  let self := fresh (dom (menus w)) in
  modify (with_menus
            (<[self := mkJumpbox title subtitle show_exit_option None None
                         None 0 0 [] 0 (-1) None false None None 0%nat false]>
               (menus w))) ;;
  do e <- ExitItem.__init__ "Exit" (Some self);
  update_menu self (with_exit_item e) ;;
  ret self.

(** ** The menu engine *)

(** The row of the pad shown at the top of the terminal. *)
Definition top_row (J : Jumpbox) : Z :=
  if decide (Z.of_nat (length (items J)) + 6 > term_y J)
  then if decide (term_y J + current_option J < Z.of_nat (length (items J)) + 6)
       then current_option J
       else Z.of_nat (length (items J)) + 6 - term_y J
  else 0.

Section Engine.
(** The version string of the program, imported from the module
    [version]. *)
Variable __version__ : string.

(** The body of the loop of [draw]. *)
Definition draw_row (self : menu_id) (index : nat) (item : item_id)
    : M unit :=
  do J <- the_menu self;
  let text_style :=
    if decide (current_option J = Z.of_nat index)
    then highlight J else normal J in
  do label <- show item (Z.of_nat index);
  screen_addstr self (Z.of_nat index + 5) 4 label text_style.

Definition draw (self : menu_id) : M unit :=
  screen_border self ;;
  do J <- the_menu self;
  match title J with
  | Some t => screen_addstr self 2 2 t (Some A_UNDERLINE)
  | None => ret tt
  end ;;
  match subtitle J with
  | Some t => screen_addstr self 4 2 t (Some A_BOLD)
  | None => ret tt
  end ;;
  do index <- for_enumerate (draw_row self) 0%nat (items J) None;
  do index <- match index with
              | Some i => ret (Z.of_nat i)
              | None => raise UnboundLocalError
              end;
  do J <- the_menu self;
  screen_addstr self (index + 5) (term_x J - len __version__ - 2)
    __version__ (Some A_BOLD) ;;
  do yx <- stdscr_getmaxyx;
  update_menu self (with_term yx.1 yx.2) ;;
  do J <- the_menu self;
  screen_refresh self (top_row J) 0 0 0 (term_y J - 1) (term_x J - 1).

Definition append_item (self : menu_id) (item : item_id) : M unit :=
  do did_remove <- remove_exit self;
  update_item item (Item.with_menu (Some self)) ;;
  do J <- the_menu self;
  update_menu self (with_items (items J ++ [item])) ;;
  (if did_remove : bool then add_exit self ;; ret tt else ret tt) ;;
  do J <- the_menu self;
  match screen J with
  | Some _ =>
      do yx <- screen_getmaxyx self;
      update_menu self (with_term yx.1 yx.2) ;;
      do J <- the_menu self;
      (if decide (term_y J < 6 + Z.of_nat (length (items J)))
       then screen_resize self (Z.of_nat (length (items J)) + 6) (term_x J)
       else ret tt) ;;
      draw self
  | None => ret tt
  end.

Definition go_to (self : menu_id) (option : Z) : M unit :=
  update_menu self (with_current_option option) ;;
  draw self.

Definition go_down (self : menu_id) : M unit :=
  do J <- the_menu self;
  (if decide (current_option J < Z.of_nat (length (items J)) - 1)
   then update_menu self (with_current_option (current_option J + 1))
   else update_menu self (with_current_option 0)) ;;
  draw self.

Definition go_up (self : menu_id) : M unit :=
  do J <- the_menu self;
  (if decide (current_option J > 0)
   then update_menu self (with_current_option (current_option J + -1))
   else update_menu self
          (with_current_option (Z.of_nat (length (items J)) - 1))) ;;
  draw self.

Definition get_input (self : menu_id) : M Z :=
  stdscr_getch self.

Section Loop.
(** The run loop of a menu that is entered from inside this one: a
    submenu, or this menu again after the terminal was resized. *)
Variable nested_main_loop : menu_id → option window → M unit.

Definition _wrap_start (self : menu_id) : M unit :=
  do J <- the_menu self;
  match parent J with
  | None => curses_wrapper (nested_main_loop self)
  | Some _ => nested_main_loop self None
  end ;;
  modify (with_currently_active_menu None) ;;
  clear_screen self ;;
  clear_terminal ;;
  do J <- the_menu self;
  modify (with_currently_active_menu (previous_active_menu J)).

Definition start (self : menu_id) (show_exit : option bool) : M unit :=
  do w <- get;
  update_menu self (with_previous_active_menu (currently_active_menu w)) ;;
  modify (with_currently_active_menu None) ;;
  update_menu self (with_current_option 0) ;;
  update_menu self (with_should_exit false) ;;
  do J <- the_menu self;
  let show_exit :=
    match show_exit with
    | None => show_exit_option J
    | Some b => b
    end in
  (if show_exit : bool
   then add_exit self ;; ret tt
   else remove_exit self ;; ret tt) ;;
  _wrap_start self.

(** [SubmenuItem.action]. *)
Definition SubmenuItem_action (self : item_id) : M unit :=
  do o <- the_item self;
  do s <- not_none (Item.submenu o);
  start s None.

Definition action (item : item_id) : M unit :=
  do o <- the_item item;
  match Item.class o with
  | IsSubmenuItem => SubmenuItem_action item
  | IsQuickConnect => QuickConnect.action item
  | _ => MenuItem.action item
  end.

(** [self.selected_item.method()]. *)
Definition on_selected_item {A : Type} (self : menu_id)
    (method : item_id → M A) : M A :=
  do i <- selected_item self;
  do i <- not_none i;
  method i.

Definition select (self : menu_id) : M unit :=
  do J <- the_menu self;
  update_menu self (with_selected_option (current_option J)) ;;
  on_selected_item self set_up ;;
  on_selected_item self action ;;
  on_selected_item self clean_up ;;
  do v <- on_selected_item self get_return;
  update_menu self (with_returned_value v) ;;
  do e <- on_selected_item self
            (λ i, do o <- the_item i; ret (Item.should_exit o));
  update_menu self (with_should_exit e) ;;
  do J <- the_menu self;
  if should_exit J then ret tt else draw self.

Definition process_user_input (self : menu_id) : M Z :=
  do user_input <- get_input self;
  do J <- the_menu self;
  do go_to_max <- (if decide (Z.of_nat (length (items J)) >= 9)
                   then py_ord "9"
                   else py_ord (str (Z.of_nat (length (items J)))));
  do one <- py_ord "1";
  do zero <- py_ord "0";
  do newline <- py_ord (String (Ascii.ascii_of_nat 10) EmptyString);
  (if decide (one ≤ user_input ≤ go_to_max)
   then go_to self (user_input - zero - 1)
   else if decide (user_input = KEY_DOWN) then go_down self
   else if decide (user_input = KEY_UP) then go_up self
   else if decide (user_input = KEY_RIGHT) then select self
   else if decide (user_input = KEY_LEFT)
   then update_menu self
          (with_current_option (Z.of_nat (length (items J)) - 1)) ;;
        select self
   else if decide (user_input = KEY_RESIZE)
   then update_menu self (with_running false) ;;
        nested_main_loop self None
   else if decide (user_input = newline) then select self
   else ret tt) ;;
  ret user_input.
End Loop.

(** [_main_loop], with [fuel] bounding how deeply run loops nest and how
    many keys one loop reads. *)
Fixpoint _main_loop (fuel : nat) (self : menu_id) (scr : option window)
    : M unit :=
  match fuel with
  | O => out_of_fuel
  | S fuel' =>
      match scr with
      | Some s => modify (with_stdscr (Some s))
      | None => ret tt
      end ;;
      do yx <- stdscr_getmaxyx;
      update_menu self (with_term yx.1 yx.2) ;;
      do J <- the_menu self;
      do pad <- curses_newpad self (Z.of_nat (length (items J)) + 6)
                  (term_x J);
      update_menu self (with_screen (Some pad)) ;;
      _set_up_colors self ;;
      curses_curs_set 0 ;;
      stdscr_refresh ;;
      draw self ;;
      modify (with_currently_active_menu (Some self)) ;;
      update_menu self (with_running true) ;;
      while fuel
        (do J <- the_menu self; ret (_running J && negb (should_exit J)))
        (process_user_input (_main_loop fuel') self ;; ret tt)
  end.
End Engine.

(** ** Notions used to state the properties *)

(** A sequence of [append_item] calls on one menu. *)
Fixpoint append_items (__version__ : string) (self : menu_id)
    (l : list item_id) : M unit :=
  match l with
  | [] => ret tt
  | item :: l' =>
      append_item __version__ self item ;; append_items __version__ self l'
  end.

(** The label that [ExitItem.show] derives from the parent relation. *)
Definition exit_label (w : World) (o : Item.t) : option string :=
  match Item.menu o with
  | None => Some "Exit"
  | Some m =>
      J ← menus w !! m;
      match parent J with
      | None => Some "Exit"
      | Some p =>
          P ← menus w !! p;
          Some ("Return to " +:+ percent_s (title P) +:+ " menu")
      end
  end.



(** The items of the menu [m] (its exit item included) that open a
    submenu lead to these menus. *)
Definition targets (w : World) (m : menu_id) : list menu_id :=
  match menus w !! m with
  | Some J => omap (λ i, objs w !! i ≫= Item.submenu) (exit_item J :: items J)
  | None => []
  end.

(** [S] is a subtree of menus with root [C]: it holds [C], and every
    submenu reached from a menu of [S] is in [S] and is not [C]. *)
Definition subtree (S : list menu_id) (C : menu_id) (w : World) : bool :=
  bool_decide (C ∈ S)
  && forallb (λ m, forallb (λ s, bool_decide (s ∈ S) && bool_decide (s ≠ C))
                     (targets w m)) S.

(** The menus that read the keyboard in a sequence of calls. *)
Definition readers (t : list call) : list menu_id :=
  omap (λ c, match c with Getch m => Some m | _ => None end) t.

(** The exit item of a menu is in its list exactly once, as last element. *)
Definition exit_is_last (J : Jumpbox) : Prop :=
  ∃ l, items J = l ++ [exit_item J] ∧ exit_item J ∉ l.

(** The state of a process that has just been started on a terminal of 24
    rows and 80 columns, with the keys the operator is going to press. *)
Definition boot (ks : list input) : World :=
  mkWorld ∅ ∅ None None (24, 80) "Linux" ks [] [] [].

(** The world in which a computation ends, and what it returns. *)
Definition world_after {A : Type} (c : M A) (w : World) : World := (c w).1.
Definition result_of {A : Type} (c : M A) (w : World) : outcome A := (c w).2.



(** *** Relations between the worlds before and after a computation *)

(** The world after the computation [c] is always related by [R] to the
    world before it, whatever [c] returns. *)
Definition respects {A : Type} (R : relation World) (c : M A) : Prop :=
  ∀ w, R w (c w).1.

(** What [show] reads of the heaps: the parent and the title of menus, the
    class and the menu of items. *)
Definition same_tree (w w1 : World) : Prop :=
  ∀ m, (λ J, (parent J, title J)) <$> menus w1 !! m
       = (λ J, (parent J, title J)) <$> menus w !! m.


(** What [draw] may change: the recorded terminal size of the menu it
    draws, the text of items, and the log of calls, to which it adds no
    read of the keyboard. *)
Definition menu_core (J : Jumpbox) : Jumpbox := with_term 0 0 J.
Definition item_core (o : Item.t) : Item.t := Item.with_text "" o.

Record paints (self : menu_id) (w w' : World) : Prop := {
  paints_others : ∀ m, m ≠ self → menus w' !! m = menus w !! m;
  paints_self : menu_core <$> menus w' !! self = menu_core <$> menus w !! self;
  paints_objs : ∀ i, item_core <$> objs w' !! i = item_core <$> objs w !! i;
  paints_trace : ∃ t, trace w' = trace w ++ t ∧ readers t = [];
  paints_stdscr : stdscr w' = stdscr w;
  paints_keys : keys w' = keys w;
  paints_active : currently_active_menu w' = currently_active_menu w
}.

(** The item lists and exit items of all menus are the same in both
    worlds, and no item object is lost. *)
Definition same_lists (w w' : World) : Prop :=
  (∀ m, (λ J, (items J, exit_item J)) <$> menus w' !! m
        = (λ J, (items J, exit_item J)) <$> menus w !! m)
  ∧ (∀ i, is_Some (objs w !! i) → is_Some (objs w' !! i)).

(** Both heaps are the same in both worlds. *)
Definition same_heaps (w w' : World) : Prop :=
  menus w' = menus w ∧ objs w' = objs w.

(** With fewer than [n] keys pending, the computation [c] is not cut off
    by the bound on run loops, and it leaves no more keys pending than it
    found. *)
Definition safe {A : Type} (n : nat) (c : M A) : Prop :=
  ∀ w, (length (keys w) < n)%nat →
       (c w).2 ≠ OutOfFuel
       ∧ (length (keys (c w).1) ≤ length (keys w))%nat.

(** Moreover [c] takes at least one key when it returns. *)
Definition eats {A : Type} (n : nat) (c : M A) : Prop :=
  ∀ w, (length (keys w) < S n)%nat →
       (c w).2 ≠ OutOfFuel
       ∧ (length (keys (c w).1) ≤ length (keys w))%nat
       ∧ ∀ a, (c w).2 = Ok a → (length (keys (c w).1) < length (keys w))%nat.

(** A run inside the subtree [S] with root [C] keeps it a subtree, leaves
    every menu outside it as it is, does not touch the menu that was active
    when [C] was started, and lets no menu outside [S] read the keyboard. *)
Definition descends (S : list menu_id) (C : menu_id) (w w' : World) : Prop :=
  subtree S C w = true →
  subtree S C w' = true
  ∧ (∀ q, q ∉ S → menus w' !! q = menus w !! q)
  ∧ previous_active_menu <$> menus w' !! C
    = previous_active_menu <$> menus w !! C
  ∧ ∃ t, trace w' = trace w ++ t ∧ readers t ⊆ S.

(** ** Sample runs *)

Definition sample_version : string := "1.0.0".

(** A main menu with a submenu, as [main.py] builds them: menu 0 is the
    main menu and menu 1 the submenu; item 0 and item 1 are their exit
    items, item 2 opens the submenu, item 3 is a quick connect, item 4 a
    plain item of the main menu and item 5 a plain item of the submenu. *)
Definition build_menus : M unit :=
  do main_menu <- __init__ (Some "Jumpbox Main")
                   (Some "Select an option...") true;
  do sites_menu <- __init__ (Some "Devices by Site")
                    (Some "Select a site...") true;
  do sites_item <- SubmenuItem.__init__ "Sites" sites_menu (Some main_menu)
                    false;
  append_item sample_version main_menu sites_item ;;
  do quick_connect <- QuickConnect.__init__ "Quick Connect" None false;
  append_item sample_version main_menu quick_connect ;;
  do about <- MenuItem.__init__ "About" None false;
  append_item sample_version main_menu about ;;
  do device <- MenuItem.__init__ "Device" None false;
  append_item sample_version sites_menu device.

(** The menus as built, before any menu is started. *)
Definition built : World := world_after build_menus (boot []).

(** The main menu is running and waits for a key after the operator
    pressed the keys [ks]. *)
Definition running_after (ks : list input) : World :=
  world_after
    (build_menus ;; start (_main_loop sample_version 20) 0%nat None)
    (boot ks).

Definition running : World := running_after [].

(** The main menu and the submenu in [running]. *)
Definition main_menu_running : Jumpbox :=
  mkJumpbox (Some "Jumpbox Main") (Some "Select an option...") true
    (Some (10, 80)) (Some (color_pair 1)) (Some A_NORMAL) 24 80
    [2%nat; 3%nat; 4%nat; 0%nat] 0 (-1) None false None None 0%nat true.

Definition sites_menu_built : Jumpbox :=
  mkJumpbox (Some "Devices by Site") (Some "Select a site...") true
    None None None 0 0 [5%nat] 0 (-1) None false (Some 0%nat) None 1%nat false.

(** The operator went down twice, selected the third item and went up. *)
Definition after_selection : World :=
  running_after [Key KEY_DOWN; Key KEY_DOWN; Key 10; Key KEY_UP].

Definition main_menu_after_selection : Jumpbox :=
  with_selected_option 2 (with_current_option 1 main_menu_running).

(** The main menu is running with the cursor on the item that opens the
    submenu; the operator is going to press DOWN and ENTER, which selects
    the exit item of the submenu. *)
Definition before_descent : World :=
  with_keys [Key KEY_DOWN; Key 10] running.


Definition quick_connect_built : Item.t :=
  Item.mk IsQuickConnect "Quick Connect" (Some 0%nat) false None None.

Definition sites_exit_item_built : Item.t :=
  Item.mk IsExitItem "Exit" (Some 1%nat) true None None.

(** A menu without items is created and started. *)
Definition start_empty_menu : M unit :=
  do search_menu <- __init__ (Some "Search Results")
                     (Some "Select a device...") true;
  start (_main_loop sample_version 20) search_menu None.

(** A menu without items is created and the cursor is moved. *)
Definition go_up_in_empty_menu : M unit :=
  do search_menu <- __init__ (Some "Search Results")
                     (Some "Select a device...") true;
  go_up sample_version search_menu.

Definition go_down_in_empty_menu : M unit :=
  do search_menu <- __init__ (Some "Search Results")
                     (Some "Select a device...") true;
  go_down sample_version search_menu.

(** ** Further notions: the exit entry, the pad and repeated key presses *)

(** The pad of a menu has room for its rows: the items, five rows above
    them and one below. *)
Definition pad_fits (J : Jumpbox) : Prop :=
  ∃ rows cols, screen J = Some (rows, cols)
               ∧ Z.of_nat (length (items J)) + 6 ≤ rows.



(** *** What a run of the menus leaves alone *)

(** Of a menu: its title and subtitle, whether it shows an exit entry,
    its parent, its exit item, and its items other than the exit item, in
    their order. *)
Definition menu_frame (J : Jumpbox) :=
  (title J, subtitle J, show_exit_option J, parent J, exit_item J,
   filter (λ i, i ≠ exit_item J) (items J)).

(** Of an item: its class, its menu, whether it makes the menu exit, its
    submenu, and its text unless it is an exit item. *)
Definition item_frame (o : Item.t) :=
  (Item.class o, Item.menu o, Item.should_exit o, Item.submenu o,
   match Item.class o with
   | IsExitItem => None
   | _ => Some (Item.text o)
   end).

(** From [w] to [w'] no menu and no item was created or lost, the frames
    of all menus and items are the same, the log of calls has only grown,
    and keys, typed lines and exit codes have only been taken from the
    front. *)
Record stable (w w' : World) : Prop := {
  stable_menus :
    ∀ m, menu_frame <$> menus w' !! m = menu_frame <$> menus w !! m;
  stable_objs :
    ∀ i, item_frame <$> objs w' !! i = item_frame <$> objs w !! i;
  stable_trace : trace w `prefix_of` trace w';
  stable_keys : keys w' `suffix_of` keys w;
  stable_stdin : stdin w' `suffix_of` stdin w;
  stable_exit_codes : exit_codes w' `suffix_of` exit_codes w;
  stable_platform : platform_system w' = platform_system w
}.

(** *** What [draw] writes *)


(** The rows of the items [l], the first of them with index [i]: row
    [index + 5] holds the number [index + 1] and the label, highlighted
    when the cursor is on it. *)
Fixpoint rows (self : menu_id) (cursor : Z) (h n : attr)
    (label : item_id → string) (i : nat) (l : list item_id) : list call :=
  match l with
  | [] => []
  | x :: l' =>
      Addstr self (Z.of_nat i + 5) 4
        (str (Z.of_nat i + 1) +:+ " - " +:+ label x)
        (if decide (cursor = Z.of_nat i) then h else n)
      :: rows self cursor h n label (S i) l'
  end.


(** ** Further sample values *)

(** The main menu in [built], its exit item and two of its plain items. *)
Definition main_menu_built : Jumpbox :=
  mkJumpbox (Some "Jumpbox Main") (Some "Select an option...") true
    None None None 0 0 [2%nat; 3%nat; 4%nat] 0 (-1) None false None None
    0%nat false.

Definition main_exit_item_built : Item.t :=
  Item.mk IsExitItem "Exit" (Some 0%nat) true None None.

Definition about_item_built : Item.t :=
  Item.mk IsMenuItem "About" (Some 0%nat) false None None.

Definition device_item_built : Item.t :=
  Item.mk IsMenuItem "Device" (Some 1%nat) false None None.

(** The main menu is running and the operator pressed UP, which puts the
    cursor on the exit entry. *)
Definition at_exit_entry : World := running_after [Key KEY_UP].



(** * The Netbox client

    A shallow embedding of [netbox_api.py].  What [json.load] returns is a
    value of [json]; its numbers are integers, as the counts and
    identifiers of Netbox are.  The network is a function from the URL
    requested to the reply.  A method returns a value or raises; the
    values are the documents, not the objects that hold them: the changes a
    method has made to its argument by the time it raises are not kept. *)

Module NetboxAPI.

(** ** Values, exceptions and results *)

#[local] Set Warnings "-register-all".
Inductive json : Type :=
| JNull
| JBool (b : bool)
| JInt (n : Z)
| JStr (s : string)
| JList (l : list json)
| JDict (d : gmap string json).
#[local] Set Warnings "register-all".

Inductive error : Type :=
| KeyError (key : string)
| TypeError
| ValueError.

Inductive result (A : Type) : Type :=
| Return (a : A)
| Raises (e : error).

Arguments Return {A} a.
Arguments Raises {A} e.

#[global] Instance result_ret : MRet result := @Return.

#[global] Instance result_bind : MBind result :=
λ A B f c,
  match c with
  | Return a => f a
  | Raises e => Raises e
  end.

#[global] Instance result_fmap : FMap result :=
λ A B f c,
  match c with
  | Return a => Return (f a)
  | Raises e => Raises e
  end.

(** ** Python built-ins used by the client *)

(** [v[key]] with a string as key. *)
Definition getitem (v : json) (key : string) : result json :=
match v with
| JDict d =>
    match d !! key with
    | Some x => Return x
    | None => Raises (KeyError key)
    end
| _ => Raises TypeError
end.

(** [v[key] = x] with a string as key. *)
Definition setitem (v : json) (key : string) (x : json) : result json :=
match v with
| JDict d => Return (JDict (<[key := x]> d))
| _ => Raises TypeError
end.

(** The strings of one character of a string. *)
Fixpoint characters (s : string) : list json :=
match s with
| EmptyString => []
| String c s' => JStr (String c EmptyString) :: characters s'
end.

(** The values that [for item in v] visits: the elements of a list, the
  keys of a dictionary, the characters of a string. *)
Definition iterate (v : json) : result (list json) :=
match v with
| JList l => Return l
| JDict d => Return (JStr <$> (map_to_list d).*1)
| JStr s => Return (characters s)
| _ => Raises TypeError
end.

(** [v <= 0] in Python 2, which orders values of different types: [None]
  is below every number, and strings, lists and dictionaries are above
  every number; [False] is 0 and [True] is 1. *)
Definition le_zero (v : json) : bool :=
match v with
| JNull => true
| JBool b => negb b
| JInt n => bool_decide (n ≤ 0)
| _ => false
end.

(** ** The regular expressions of the client *)

(** The pieces of the two patterns: a character, [\d], [\d+] and [$]. *)
Inductive atom : Type :=
| Lit (c : Ascii.ascii)
| Digit
| Digits
| End.

Definition is_digit (c : Ascii.ascii) : bool :=
bool_decide (48 ≤ Ascii.nat_of_ascii c ≤ 57)%nat.

Definition newline : string := String (Ascii.ascii_of_nat 10) EmptyString.

(** [$] matches at the end of the string and before a newline that ends
  the string. *)
Definition at_end (s : string) : bool :=
bool_decide (s = EmptyString ∨ s = newline).

(** The length of the match of the pattern at the start of [s], found as
  [re] finds it: [\d+] takes as many digits as it can and gives them
  back one by one when the rest of the pattern fails. *)
Fixpoint match_here (p : list atom) : string → option nat :=
match p with
| [] => λ _, Some 0%nat
| Lit c :: p' =>
    λ s, match s with
         | String c' s' =>
             if decide (c' = c) then S <$> match_here p' s' else None
         | EmptyString => None
         end
| Digit :: p' =>
    λ s, match s with
         | String c' s' =>
             if is_digit c' then S <$> match_here p' s' else None
         | EmptyString => None
         end
| Digits :: p' =>
    fix more (s : string) : option nat :=
      match s with
      | String c' s' =>
          if is_digit c'
          then match more s' with
               | Some n => Some (S n)
               | None => S <$> match_here p' s'
               end
          else None
      | EmptyString => None
      end
| End :: p' => λ s, if at_end s then match_here p' s else None
end.

(** [re.search(p, s)] as a truth value: whether the pattern matches
  somewhere in [s]. *)
Fixpoint re_search (p : list atom) (s : string) : bool :=
match match_here p s with
| Some _ => true
| None =>
    match s with
    | String _ s' => re_search p s'
    | EmptyString => false
    end
end.

(** [re.sub(p, repl, s)]: the matches are replaced from left to right;
  [skip] characters of [s] belong to the match just replaced.  An empty
  match is not replaced (the patterns of the client match at least two
  characters). *)
Fixpoint re_sub_from (p : list atom) (repl : string) (skip : nat)
  (s : string) : string :=
match s with
| EmptyString => EmptyString
| String c s' =>
    match skip with
    | S k => re_sub_from p repl k s'
    | O =>
        match match_here p s with
        | Some (S n) => repl +:+ re_sub_from p repl n s'
        | _ => String c (re_sub_from p repl 0 s')
        end
    end
end.

Definition re_sub (p : list atom) (repl s : string) : string :=
re_sub_from p repl 0 s.

(** The subject of [re.search] and [re.sub] has to be a string. *)
Definition subject (v : json) : result string :=
match v with
| JStr s => Return s
| _ => Raises TypeError
end.

(** The characters [/] and [-]. *)
Definition slash : Ascii.ascii := Ascii.ascii_of_nat 47.
Definition hyphen : Ascii.ascii := Ascii.ascii_of_nat 45.

(** ['[/]\d+$'] and ['-\d$']. *)
Definition prefix_length : list atom := [Lit slash; Digits; End].
Definition member_number : list atom := [Lit hyphen; Digit; End].

(** ** [NetboxAPI] *)

Definition base_url : string := "http://<netbox_url>/api/".

(** What [urllib2.urlopen] and [json.load] make of a request: a body that
  is a JSON document or is none, an HTTP error with its code, or a URL
  error with its reason as text. *)
Inductive reply : Type :=
| Body (document : option json)
| HTTPError (code : Z)
| URLError (reason : string).

Section Client.
Variable urlopen : string → reply.

Definition api_call (req : string) : result json :=
match urlopen req with
| Body (Some response) => Return response
| Body None => Raises ValueError
| HTTPError code => Return (JStr ("HTTP Error: " +:+ str code))
| URLError reason => Return (JStr ("URL Error: " +:+ reason))
end.

(** The body of the first loop of [format_devices]:
  [item['primary_ip']['address']] is read for the test and again for
  the substitution; the assignment changes the dictionary
  [item['primary_ip']] in place, so [item] holds the changed one. *)
Definition clean_address (item : json) : result json :=
primary_ip ← getitem item "primary_ip";
address ← getitem primary_ip "address";
s ← subject address;
if re_search prefix_length s then
  primary_ip ← getitem item "primary_ip";
  address ← getitem primary_ip "address";
  s ← subject address;
  primary_ip ← getitem item "primary_ip";
  primary_ip ← setitem primary_ip "address"
                 (JStr (re_sub prefix_length "" s));
  setitem item "primary_ip" primary_ip
else Return item.

(** The body of the second loop of [format_devices]. *)
Definition clean_name (item : json) : result json :=
display_name ← getitem item "display_name";
s ← subject display_name;
if re_search member_number s then
  display_name ← getitem item "display_name";
  s ← subject display_name;
  setitem item "display_name" (JStr (re_sub member_number "" s))
else Return item.

(** [data] is returned; when it is a list its items are the ones the
  loops have changed. *)
Definition format_devices (data : json) : result json :=
items ← iterate data;
items ← mapM clean_address items;
items ← mapM clean_name items;
Return (match data with
        | JList _ => JList items
        | _ => data
        end).

Definition inspect {A : Type} (a : A) : {b | a = b} := exist _ a eq_refl.

(** The loop of [format_sites] on a list, from the position [index] of
  the iterator on: the iterator gives [data[index]] while there is one,
  and [data.pop(index)] takes the item just given out of the list. *)
Equations? format_sites_from (index : nat) (data : list json)
  : result (list json)
  by wf (length data - index)%nat lt :=
format_sites_from index data with inspect (data !! index) := {
| exist _ None _ => Return data
| exist _ (Some item) H with getitem item "count_devices" => {
  | Raises e => Raises e
  | Return count with le_zero count => {
    | true => format_sites_from (S index) (delete index data)
    | false => format_sites_from (S index) data } } }.
Proof.
all: apply lookup_lt_Some in H.
- rewrite length_delete by (apply lookup_lt_is_Some_2; lia). lia.
- lia.
Qed.

(** The items of a dictionary or of a string are strings, which have no
  item ['count_devices']. *)
Definition format_sites (data : json) : result json :=
items ← iterate data;
match data with
| JList l => JList <$> format_sites_from 0 l
| _ =>
    match items with
    | [] => Return data
    | item :: _ => _ ← getitem item "count_devices"; Raises TypeError
    end
end.

(** A value is true when it is not [None] and not the empty string. *)
Definition given (v : option string) : option string :=
match v with
| Some s => if decide (s = "") then None else Some s
| None => None
end.

Definition get_devices (site_slug q : option string) : result json :=
let devices_url := "dcim/devices/?limit=0&has_primary_ip=True" in
let get_url :=
  match given site_slug, given q with
  | Some site_slug, _ => base_url +:+ devices_url +:+ "&site=" +:+ site_slug
  | None, Some q => base_url +:+ devices_url +:+ "&q=" +:+ q
  | None, None => base_url +:+ devices_url
  end in
response ← api_call get_url;
results ← getitem response "results";
format_devices results.

Definition get_sites : result json :=
let sites_url := "dcim/sites/?limit=0" in
let get_url := base_url +:+ sites_url in
response ← api_call get_url;
results ← getitem response "results";
format_sites results.
End Client.

(** ** Notions used to state the properties of the client *)

(** A site has devices when its count is above 0. *)
Definition has_devices (site : json) : bool :=
match getitem site "count_devices" with
| Return count => negb (le_zero count)
| Raises _ => false
end.

(** What the loop of [format_sites] makes of a list, by recursion on the
  list: a site without devices is left out and the site after it is
  kept without its count being read. *)
Fixpoint kept_sites (l : list json) : result (list json) :=
match l with
| [] => Return []
| site :: rest =>
    match getitem site "count_devices" with
    | Raises e => Raises e
    | Return count =>
        if le_zero count
        then match rest with
             | [] => Return []
             | next :: rest' => (next ::.) <$> kept_sites rest'
             end
        else (site ::.) <$> kept_sites rest
    end
end.

(** A string of decimal digits. *)
Fixpoint all_digits (s : string) : bool :=
match s with
| EmptyString => true
| String c s' => is_digit c && all_digits s'
end.

(** Whether a string has the character [/]. *)
Fixpoint has_slash (s : string) : bool :=
match s with
| EmptyString => false
| String c s' => bool_decide (c = slash) || has_slash s'
end.

(** The address of the primary IP and the display name of a device, when
  they are strings. *)
Definition address_of (device : json) : result string :=
primary_ip ← getitem device "primary_ip";
address ← getitem primary_ip "address";
subject address.

Definition name_of (device : json) : result string :=
display_name ← getitem device "display_name";
subject display_name.

Definition is_device (device : json) : bool :=
match address_of device, name_of device with
| Return _, Return _ => true
| _, _ => false
end.

(** The computation returns a value: it does not raise. *)
Definition returns {A : Type} (c : result A) : Prop := ∃ a, c = Return a.

(** Sample sites and devices, with the fields the client reads. *)
Definition sample_site (name : string) (count : Z) : json :=
JDict {[ "name" := JStr name; "count_devices" := JInt count ]}.

Definition sample_address (address : string) : gmap string json :=
{[ "address" := JStr address; "family" := JInt 4 ]}.

Definition sample_device (name display_name address : string) : json :=
JDict {[ "name" := JStr name;
         "display_name" := JStr display_name;
         "primary_ip" := JDict (sample_address address) ]}.

Definition sample_sites : list json :=
[sample_site "HQ" 0; sample_site "Lab" 0; sample_site "DC" 2].

Definition sample_devices : list json :=
[sample_device "core-sw-1" "core-sw-1" "10.0.0.1/24";
 sample_device "edge-rtr-12" "edge-rtr-12" "192.0.2.7"].

(** The sample devices with the prefix length and the member number of
  the first one taken away. *)
Definition sample_devices_cleaned : list json :=
[sample_device "core-sw-1" "core-sw" "10.0.0.1";
 sample_device "edge-rtr-12" "edge-rtr-12" "192.0.2.7"].

(** A network that answers the request for the sites with a document. *)
Definition sample_document : gmap string json :=
{[ "count" := JInt 3; "results" := JList sample_sites ]}.

Definition sample_netbox (url : string) : reply :=
if decide (url = base_url +:+ "dcim/sites/?limit=0")
then Body (Some (JDict sample_document))
else HTTPError 404.

(** A network that answers every request with the HTTP error 404. *)
Definition not_found (url : string) : reply := HTTPError 404.

End NetboxAPI.

(** * Proofs *)

(** ** Symbolic execution of computations *)

Ltac unfold_prims :=
  cbv [bind ret raise blocked out_of_fuel get modify emit the_menu the_item
       update_menu update_item not_none the_screen screen_border screen_addstr
       screen_refresh screen_clear screen_getmaxyx screen_resize
       stdscr_getmaxyx stdscr_refresh stdscr_erase getitem curses_curs_set
       clear_screen world_after result_of].

Ltac look :=
  repeat first
    [ progress cbn [menus objs trace stdscr keys tty currently_active_menu
                    platform_system stdin exit_codes
                    with_menus with_objs with_trace with_stdscr with_keys
                    with_tty with_currently_active_menu with_stdin
                    with_exit_codes fst snd]
    | match goal with
      | H : menus ?w !! ?m = _ |- context [menus ?w !! ?m] => rewrite H
      | H : objs ?w !! ?m = _ |- context [objs ?w !! ?m] => rewrite H
      | H : stdscr ?w = _ |- context [stdscr ?w] => rewrite H
      | H : keys ?w = _ |- context [keys ?w] => rewrite H
      | H : screen ?J = _ |- context [screen ?J] => rewrite H
      | H : title ?J = _ |- context [title ?J] => rewrite H
      | H : subtitle ?J = _ |- context [subtitle ?J] => rewrite H
      | H : items ?J = _ |- context [items ?J] => rewrite H
      | H : parent ?J = _ |- context [parent ?J] => rewrite H
      | H : Item.menu ?o = _ |- context [Item.menu ?o] => rewrite H
      | H : Item.class ?o = _ |- context [Item.class ?o] => rewrite H
      | H : Item.submenu ?o = _ |- context [Item.submenu ?o] => rewrite H
      | |- context [<[?m := _]> _ !! ?m] => rewrite lookup_insert_eq
      end ].

(** ** The selected item, the terminal handoff and the exit label *)

Section Properties.
Context (__version__ : string).

(** [selected_item] reads the list of items at the cursor. *)
Lemma selected_item_at_cursor (w : World) (self : menu_id) (J : Jumpbox)
    (b : item_id) :
  menus w !! self = Some J →
  items J ≠ [] →
  selected_option J ≠ -1 →
  py_getitem (items J) (current_option J) = Some b →
  selected_item self w = (w, Ok (Some b)).
Proof.
  intros HJ Hne Hsel Hb. unfold selected_item. unfold_prims. look.
  destruct (items J) as [|i l] eqn:Hi; [done|].
  rewrite decide_True by done. by rewrite Hb.
Qed.

(** C10: when the list of items is not empty and a selection has been
    recorded, [selected_item] returns the item under the cursor,
    [items[current_option]]; so when the item at the recorded selected
    index is another one, that is not what [selected_item] reports. *)
Theorem selected_item_follows_cursor (w : World) (self : menu_id)
    (J : Jumpbox) (b : item_id) :
  menus w !! self = Some J →
  items J ≠ [] →
  selected_option J ≠ -1 →
  py_getitem (items J) (current_option J) = Some b →
  selected_item self w = (w, Ok (Some b))
  ∧ ∀ a, py_getitem (items J) (selected_option J) = Some a → a ≠ b →
         selected_item self w ≠ (w, Ok (Some a)).
Proof.
  intros HJ Hne Hsel Hb.
  rewrite (selected_item_at_cursor w self J b HJ Hne Hsel Hb).
  split; [done|]. intros a _ Hab. congruence.
Qed.

(** C5: [ExternalItem.clean_up] clears the pad of the owning menu
    (and the standard screen), restores the saved terminal mode, then
    makes the cursor visible and then invisible, in that order, and makes
    no other call. *)
Theorem clean_up_call_order (w : World) (self : item_id) (o : Item.t)
    (m : menu_id) (J : Jumpbox) (pad scr : window) :
  objs w !! self = Some o →
  Item.menu o = Some m →
  menus w !! m = Some J →
  screen J = Some pad →
  stdscr w = Some scr →
  ExternalItem.clean_up self w
  = (with_trace (trace w ++ [Clear m; Stdscr_erase; Stdscr_refresh;
                             Reset_prog_mode; Curs_set 1; Curs_set 0]) w,
     Ok tt).
Proof.
  intros Ho Hm HJ Hp Hs. unfold ExternalItem.clean_up. unfold_prims. look.
  by rewrite <- !app_assoc.
Qed.


(** [ExitItem.show] stores the label and returns the numbered row. *)
Lemma exit_item_show_run (w : World) (self : item_id) (o : Item.t)
    (index : Z) (label : string) :
  objs w !! self = Some o →
  exit_label w o = Some label →
  ExitItem.show self index w
  = (with_objs (<[self := Item.with_text label o]> (objs w)) w,
     Ok (str (index + 1) +:+ " - " +:+ label)).
Proof.
  intros Ho Hl. unfold ExitItem.show, MenuItem.show, exit_label in *.
  unfold_prims. look.
  destruct (Item.menu o) as [m|]; look.
  - destruct (menus w !! m) as [Jm|] eqn:HJm; [|done]. simpl in Hl. look.
    destruct (parent Jm) as [p|]; look.
    + destruct (menus w !! p) as [Pm|] eqn:HP; [|done]. simpl in Hl. look.
      by simplify_eq.
    + by simplify_eq.
  - by simplify_eq.
Qed.
End Properties.

(** ** [draw] on a drawable menu *)

Lemma exit_label_ext w w1 o o1 :
  same_tree w w1 → Item.menu o1 = Item.menu o →
  exit_label w1 o1 = exit_label w o.
Proof.
  intros Ht Hm. unfold exit_label. rewrite Hm.
  destruct (Item.menu o) as [m|]; [|done].
  pose proof (Ht m) as Hm1.
  destruct (menus w1 !! m) as [J1|], (menus w !! m) as [J|];
    simpl in *; try done.
  injection Hm1 as Hp Hti. rewrite Hp.
  destruct (parent J) as [p|]; [|done].
  pose proof (Ht p) as Hp1.
  destruct (menus w1 !! p) as [P1|], (menus w !! p) as [P|];
    simpl in *; try done.
  injection Hp1 as _ Hti'. by rewrite Hti'.
Qed.

(** C7 (amended): [ExitItem.show] stores the label derived from the parent
    relation, ["Exit"] without parent and ["Return to <title> menu"] with
    one, and returns the row ["<index+1> - <label>"]; the row is the same
    whatever text the item held before the call. *)
Theorem exit_item_show_label (w : World) (self : item_id) (o : Item.t)
    (index : Z) (label : string) :
  objs w !! self = Some o →
  exit_label w o = Some label →
  ExitItem.show self index w
  = (with_objs (<[self := Item.with_text label o]> (objs w)) w,
     Ok (str (index + 1) +:+ " - " +:+ label))
  ∧ ∀ stored : string,
      result_of (ExitItem.show self index)
        (with_objs (<[self := Item.with_text stored o]> (objs w)) w)
      = Ok (str (index + 1) +:+ " - " +:+ label).
Proof.
  intros Ho Hl. split; [by apply exit_item_show_run|].
  intros stored. unfold result_of.
  erewrite (exit_item_show_run _ self (Item.with_text stored o) index label).
  - done.
  - apply lookup_insert_eq.
  - rewrite <- Hl. by apply exit_label_ext.
Qed.








(** Running the steps of a computation one at a time. *)
Lemma run_bind {A B} (c : M A) (k : A → M B) w w1 a res :
  c w = (w1, Ok a) → k a w1 = res → bind c k w = res.
Proof. intros H <-. unfold bind. by rewrite H. Qed.

Lemma the_menu_ok w m J : menus w !! m = Some J → the_menu m w = (w, Ok J).
Proof. intros H. unfold_prims. by rewrite H. Qed.

Lemma the_item_ok w i o : objs w !! i = Some o → the_item i w = (w, Ok o).
Proof. intros H. unfold_prims. by rewrite H. Qed.

Lemma update_menu_ok w m J f :
  menus w !! m = Some J →
  update_menu m f w = (with_menus (<[m := f J]> (menus w)) w, Ok tt).
Proof. intros H. unfold_prims. by rewrite H. Qed.

Lemma update_item_ok w i o f :
  objs w !! i = Some o →
  update_item i f w = (with_objs (<[i := f o]> (objs w)) w, Ok tt).
Proof. intros H. unfold_prims. by rewrite H. Qed.

Lemma the_screen_ok w m J pad :
  menus w !! m = Some J → screen J = Some pad →
  the_screen m w = (w, Ok pad).
Proof. intros H Hp. unfold_prims. by rewrite H, Hp. Qed.

Lemma screen_border_ok w m J pad :
  menus w !! m = Some J → screen J = Some pad →
  screen_border m w = (with_trace (trace w ++ [Border m]) w, Ok tt).
Proof. intros H Hp. unfold_prims. by rewrite H, Hp. Qed.

Lemma screen_addstr_ok w m J pad y x s a :
  menus w !! m = Some J → screen J = Some pad →
  screen_addstr m y x s (Some a) w
  = (with_trace (trace w ++ [Addstr m y x s a]) w, Ok tt).
Proof. intros H Hp. unfold_prims. by rewrite H, Hp. Qed.


Lemma stdscr_getmaxyx_ok w s :
  stdscr w = Some s → stdscr_getmaxyx w = (w, Ok s).
Proof. intros H. unfold_prims. by rewrite H. Qed.

Ltac side := cbn; first [eassumption | apply lookup_insert_eq | eauto].
Ltac run_with lem := eapply run_bind; [eapply lem; side|cbn].

Section Draw.
Context (__version__ : string).





Lemma title_ok w m J pad y (s : option string) a :
  menus w !! m = Some J → screen J = Some pad →
  match s with
  | Some t => screen_addstr m y 2 t (Some a)
  | None => ret tt
  end w
  = (with_trace
       (trace w ++ match s with Some t => [Addstr m y 2 t a] | None => [] end)
       w, Ok tt).
Proof.
  intros HJ Hp. destruct s.
  - by erewrite screen_addstr_ok.
  - cbn. rewrite app_nil_r. by destruct w.
Qed.

End Draw.

(** ** Relations between the worlds before and after a computation *)

Section Respects.
Context (R : relation World) `{!PreOrder R}.

Lemma respects_bind_at {A B} (c : M A) (k : A → M B) w :
  R w (c w).1 →
  (∀ w1 a, c w = (w1, Ok a) → R w1 (k a w1).1) →
  R w (bind c k w).1.
Proof.
  intros Hc Hk. unfold bind. destruct (c w) as [w1 [a|e| |]] eqn:E; cbn in *;
    try done.
  etrans; [exact Hc|]. by apply Hk.
Qed.

Lemma respects_bind {A B} (c : M A) (k : A → M B) :
  respects R c → (∀ a, respects R (k a)) → respects R (bind c k).
Proof. intros Hc Hk w. apply respects_bind_at; [apply Hc|]. intros. apply Hk. Qed.

Lemma respects_pure {A} (c : M A) :
  (∀ w, (c w).1 = w) → respects R c.
Proof. intros H w. by rewrite H. Qed.

Lemma respects_ret {A} (a : A) : respects R (ret a).
Proof. by apply respects_pure. Qed.

Lemma respects_raise {A} e : respects R (@raise A e).
Proof. by apply respects_pure. Qed.

Lemma respects_blocked {A} : respects R (@blocked A).
Proof. by apply respects_pure. Qed.

Lemma respects_out_of_fuel {A} : respects R (@out_of_fuel A).
Proof. by apply respects_pure. Qed.

Lemma respects_get : respects R get.
Proof. by apply respects_pure. Qed.

Lemma respects_not_none {A} (o : option A) : respects R (not_none o).
Proof. destruct o; by apply respects_pure. Qed.

Lemma respects_getitem {A} (l : list A) i : respects R (getitem l i).
Proof. unfold getitem. destruct (py_getitem l i); by apply respects_pure. Qed.

Lemma respects_py_ord s : respects R (py_ord s).
Proof. unfold py_ord. destruct (ord s); by apply respects_pure. Qed.

Lemma respects_the_menu m : respects R (the_menu m).
Proof.
  apply respects_pure. intros w. unfold_prims. by destruct (menus w !! m).
Qed.

Lemma respects_the_item i : respects R (the_item i).
Proof.
  apply respects_pure. intros w. unfold_prims. by destruct (objs w !! i).
Qed.

Lemma respects_the_screen m : respects R (the_screen m).
Proof.
  apply respects_bind; [apply respects_the_menu|].
  intros J. apply respects_not_none.
Qed.

Lemma respects_stdscr_getmaxyx : respects R stdscr_getmaxyx.
Proof.
  apply respects_bind; [apply respects_get|].
  intros J. apply respects_not_none.
Qed.

Lemma respects_for_enumerate {A} (body : nat → A → M unit) l :
  (∀ i x, respects R (body i x)) →
  ∀ i index, respects R (for_enumerate body i l index).
Proof.
  intros Hb. induction l as [|x l IH]; intros i index; cbn.
  - apply respects_ret.
  - apply respects_bind; [apply Hb|]. intros _. apply IH.
Qed.

Lemma respects_while fuel (cond : M bool) (body : M unit) :
  respects R cond → respects R body → respects R (while fuel cond body).
Proof.
  intros Hc Hb. induction fuel as [|fuel IH]; cbn.
  - apply respects_bind; [done|]. intros []; [apply respects_out_of_fuel|apply respects_ret].
  - apply respects_bind; [done|]. intros []; [|apply respects_ret].
    apply respects_bind; [done|]. intros _. apply IH.
Qed.

Lemma respects_finally {A} (c : M A) (h : M unit) :
  respects R c → respects R h → respects R (finally c h).
Proof.
  intros Hc Hh w. unfold finally. specialize (Hc w).
  destruct (c w) as [w1 r]. specialize (Hh w1).
  destruct (h w1) as [w2 [[]|e| |]]; cbn in *; by etrans.
Qed.

(** Reading a menu in the middle of a computation. *)
Lemma respects_with_menu {B} m (k : Jumpbox → M B) w :
  (∀ J, menus w !! m = Some J → R w (k J w).1) →
  R w (bind (the_menu m) k w).1.
Proof.
  intros Hk. unfold bind, the_menu, get. cbn.
  destruct (menus w !! m) as [J|] eqn:HJ; cbn; [by apply Hk|done].
Qed.
End Respects.

Lemma the_menu_inv w w1 m J :
  the_menu m w = (w1, Ok J) → w1 = w ∧ menus w !! m = Some J.
Proof.
  unfold_prims. destruct (menus w !! m); intros; by simplify_eq.
Qed.

Lemma the_item_inv w w1 i o :
  the_item i w = (w1, Ok o) → w1 = w ∧ objs w !! i = Some o.
Proof.
  unfold_prims. destruct (objs w !! i); intros; by simplify_eq.
Qed.

Lemma readers_app t1 t2 : readers (t1 ++ t2) = readers t1 ++ readers t2.
Proof. apply omap_app. Qed.

Global Instance paints_preorder self : PreOrder (paints self).
Proof.
  split.
  - intros w. split; try done. exists []. by rewrite app_nil_r.
  - intros w1 w2 w3 H1 H2. split.
    + intros m Hm. by rewrite (paints_others _ _ _ H2), (paints_others _ _ _ H1).
    + by rewrite (paints_self _ _ _ H2), (paints_self _ _ _ H1).
    + intros i. by rewrite (paints_objs _ _ _ H2), (paints_objs _ _ _ H1).
    + destruct (paints_trace _ _ _ H1) as (t1 & E1 & Ht1).
      destruct (paints_trace _ _ _ H2) as (t2 & E2 & Ht2).
      exists (t1 ++ t2). rewrite app_assoc, <- E1, <- E2. split; [done|].
      by rewrite readers_app, Ht1, Ht2.
    + by rewrite (paints_stdscr _ _ _ H2), (paints_stdscr _ _ _ H1).
    + by rewrite (paints_keys _ _ _ H2), (paints_keys _ _ _ H1).
    + by rewrite (paints_active _ _ _ H2), (paints_active _ _ _ H1).
Qed.

Lemma paints_emit self c :
  match c with Getch _ => False | _ => True end → respects (paints self) (emit c).
Proof.
  intros Hc w. split; try done. exists [c]. split; [done|]. by destruct c.
Qed.

Lemma paints_with_term self y x :
  respects (paints self) (update_menu self (with_term y x)).
Proof.
  intros w. unfold_prims. destruct (menus w !! self) as [J|] eqn:HJ; cbn.
  - split; cbn; try done.
    + intros m Hm. by rewrite lookup_insert_ne.
    + by rewrite lookup_insert_eq, HJ.
    + exists []. by rewrite app_nil_r.
  - reflexivity.
Qed.

Lemma paints_with_text self i s :
  respects (paints self) (update_item i (Item.with_text s)).
Proof.
  intros w. unfold_prims. destruct (objs w !! i) as [o|] eqn:Ho; cbn.
  - split; cbn; try done.
    + intros j. destruct (decide (i = j)) as [->|Hne].
      * by rewrite lookup_insert_eq, Ho.
      * by rewrite lookup_insert_ne.
    + exists []. by rewrite app_nil_r.
  - reflexivity.
Qed.

Ltac respects_step :=
  lazymatch goal with
  | |- respects _ (bind _ _) => apply respects_bind; [exact _| |intros ?]
  | |- respects _ (ret _) => apply respects_ret; exact _
  | |- respects _ (raise _) => apply respects_raise; exact _
  | |- respects _ blocked => apply respects_blocked; exact _
  | |- respects _ out_of_fuel => apply respects_out_of_fuel; exact _
  | |- respects _ get => apply respects_get; exact _
  | |- respects _ (not_none _) => apply respects_not_none; exact _
  | |- respects _ (getitem _ _) => apply respects_getitem; exact _
  | |- respects _ (py_ord _) => apply respects_py_ord; exact _
  | |- respects _ (the_menu _) => apply respects_the_menu; exact _
  | |- respects _ (the_item _) => apply respects_the_item; exact _
  | |- respects _ (the_screen _) => apply respects_the_screen; exact _
  | |- respects _ stdscr_getmaxyx => apply respects_stdscr_getmaxyx; exact _
  | |- respects _ (finally _ _) => apply respects_finally; [exact _| |]
  | |- respects _ (while _ _ _) => apply respects_while; [exact _| |]
  | |- respects _ (for_enumerate _ _ _ _) =>
      apply respects_for_enumerate; [exact _|intros ? ?]
  | |- respects _ (match ?x with _ => _ end) => destruct x
  end.

Lemma paints_show self i index : respects (paints self) (show i index).
Proof.
  unfold show, ExitItem.show, MenuItem.show.
  repeat first [apply paints_with_text | respects_step].
Qed.

Section DrawFrame.
Context (__version__ : string).

Lemma paints_draw self : respects (paints self) (draw __version__ self).
Proof.
  unfold draw, draw_row, screen_border, screen_addstr, screen_refresh.
  repeat first
    [ apply paints_with_term | apply paints_show
    | apply paints_emit; exact I
    | respects_step ].
Qed.
End DrawFrame.

(** ** Moving the cursor *)

Lemma bind_ok {A B} (c : M A) (k : A → M B) w w' a :
  c w = (w', Ok a) → bind c k w = k a w'.
Proof. intros H. unfold bind. by rewrite H. Qed.

Lemma bind_ret_world {A B} (c : M A) (b : B) w :
  (bind c (λ _, ret b) w).1 = (c w).1.
Proof. unfold bind. by destruct (c w) as [w1 [a|e| |]]. Qed.

Lemma py_getitem_last {A} (l : list A) x : py_getitem (l ++ [x]) (-1) = Some x.
Proof.
  unfold py_getitem. rewrite length_app. cbn [length].
  rewrite decide_False by lia. rewrite decide_True by lia.
  replace (Z.to_nat (Z.of_nat (length l + 1) + -1)) with (length l) by lia.
  apply list_lookup_middle. done.
Qed.

Lemma py_delitem_last {A} (l : list A) x : py_delitem (l ++ [x]) (-1) = Some l.
Proof.
  unfold py_delitem. rewrite length_app. cbn [length].
  rewrite decide_False by lia. rewrite decide_True by lia.
  replace (Z.to_nat (Z.of_nat (length l + 1) + -1)) with (length l) by lia.
  by rewrite delete_middle, app_nil_r.
Qed.

Lemma py_getitem_in_range {A} (l : list A) i :
  0 ≤ i < Z.of_nat (length l) → py_getitem l i = l !! Z.to_nat i.
Proof. intros H. unfold py_getitem. by rewrite decide_True. Qed.

Lemma ord_str_digit n : 0 ≤ n ≤ 9 → ord (str n) = Some (48 + n).
Proof.
  intros H.
  assert (n = 0 ∨ n = 1 ∨ n = 2 ∨ n = 3 ∨ n = 4 ∨ n = 5 ∨ n = 6 ∨ n = 7
          ∨ n = 8 ∨ n = 9) as Hn by lia.
  repeat destruct Hn as [->|Hn]; try subst n; reflexivity.
Qed.

Lemma paints_lookup self w w' m J :
  paints self w w' → menus w !! m = Some J →
  ∃ J', menus w' !! m = Some J' ∧ menu_core J' = menu_core J.
Proof.
  intros Hp HJ. destruct (decide (m = self)) as [->|Hne].
  - pose proof (paints_self _ _ _ Hp) as Hs. rewrite HJ in Hs.
    destruct (menus w' !! self) as [J'|]; [|done].
    exists J'. split; [done|]. cbn in Hs. congruence.
  - exists J. by rewrite (paints_others _ _ _ Hp).
Qed.

Lemma menu_core_fields J J' :
  menu_core J' = menu_core J →
  items J' = items J ∧ current_option J' = current_option J
  ∧ selected_option J' = selected_option J ∧ exit_item J' = exit_item J
  ∧ screen J' = screen J ∧ parent J' = parent J
  ∧ should_exit J' = should_exit J.
Proof.
  intros H.
  repeat split;
    [ apply (f_equal items) in H | apply (f_equal current_option) in H
    | apply (f_equal selected_option) in H | apply (f_equal exit_item) in H
    | apply (f_equal screen) in H | apply (f_equal parent) in H
    | apply (f_equal should_exit) in H ]; exact H.
Qed.

Section Navigation.
Context (__version__ : string).

(** The menu after a cursor assignment followed by [draw]. *)
Lemma set_cursor_then_draw w self J v :
  menus w !! self = Some J →
  ∃ J', menus (world_after
                 (update_menu self (with_current_option v) ;;
                  draw __version__ self) w) !! self = Some J'
        ∧ current_option J' = v ∧ items J' = items J
        ∧ selected_option J' = selected_option J.
Proof.
  intros HJ. unfold world_after.
  rewrite (bind_ok _ _ _ _ _ (update_menu_ok w self J _ HJ)).
  match goal with |- context [draw _ _ ?w1] => set (w0 := w1) end.
  destruct (paints_lookup self w0 (draw __version__ self w0).1 self
              (with_current_option v J)) as (J' & HJ' & Hcore).
  { apply paints_draw. }
  { apply lookup_insert_eq. }
  exists J'. split; [done|].
  apply menu_core_fields in Hcore. destruct Hcore as (? & ? & ? & _). done.
Qed.

Lemma go_to_cursor w self J v :
  menus w !! self = Some J →
  ∃ J', menus (world_after (go_to __version__ self v) w) !! self = Some J'
        ∧ current_option J' = v ∧ items J' = items J
        ∧ selected_option J' = selected_option J.
Proof. apply set_cursor_then_draw. Qed.

Lemma go_down_cursor w self J :
  menus w !! self = Some J →
  ∃ J', menus (world_after (go_down __version__ self) w) !! self = Some J'
        ∧ current_option J'
          = (if decide (current_option J < Z.of_nat (length (items J)) - 1)
             then current_option J + 1 else 0)
        ∧ items J' = items J
        ∧ selected_option J' = selected_option J.
Proof.
  intros HJ. unfold go_down, world_after.
  rewrite (bind_ok _ _ _ _ _ (the_menu_ok w self J HJ)).
  destruct (decide _); by apply set_cursor_then_draw.
Qed.

Lemma go_up_cursor w self J :
  menus w !! self = Some J →
  ∃ J', menus (world_after (go_up __version__ self) w) !! self = Some J'
        ∧ current_option J'
          = (if decide (current_option J > 0)
             then current_option J - 1
             else Z.of_nat (length (items J)) - 1)
        ∧ items J' = items J
        ∧ selected_option J' = selected_option J.
Proof.
  intros HJ. unfold go_up, world_after.
  rewrite (bind_ok _ _ _ _ _ (the_menu_ok w self J HJ)).
  destruct (decide _); by apply set_cursor_then_draw.
Qed.

(** C9: on a non-empty list of items and a cursor inside it, [go_down]
    followed by [go_up] leaves the cursor where it was, and the list as
    it was. *)
Theorem go_up_undoes_go_down (w : World) (self : menu_id) (J : Jumpbox) :
  menus w !! self = Some J →
  items J ≠ [] →
  0 ≤ current_option J < Z.of_nat (length (items J)) →
  ∃ J',
    menus (world_after (go_up __version__ self)
             (world_after (go_down __version__ self) w)) !! self = Some J'
    ∧ current_option J' = current_option J
    ∧ items J' = items J.
Proof.
  intros HJ Hne Hx.
  destruct (go_down_cursor w self J HJ) as (J1 & HJ1 & Hc1 & Hi1 & _).
  destruct (go_up_cursor _ self J1 HJ1) as (J2 & HJ2 & Hc2 & Hi2 & _).
  exists J2. split; [done|]. rewrite Hi2, Hi1. split; [|done].
  rewrite Hc2, Hc1, Hi1. repeat destruct (decide _); lia.
Qed.

Lemma stdscr_getch_key w self scr c ks :
  stdscr w = Some scr → keys w = Key c :: ks →
  stdscr_getch self w
  = (with_keys ks (with_trace (trace w ++ [Getch self]) w), Ok c).
Proof. intros Hs Hk. unfold stdscr_getch. unfold_prims. look. done. Qed.

(** C8: when the key of the digit [d] is read in a menu of [N] items, the
    cursor becomes [d - 1] if [1 ≤ d ≤ min 9 N]; otherwise the key is
    ignored: nothing changes but the key being consumed. *)
Theorem digit_key_moves_cursor
    (nested : menu_id → option window → M unit)
    (w : World) (self : menu_id) (J : Jumpbox) (scr : window) (d : Z)
    (ks : list input) :
  menus w !! self = Some J →
  stdscr w = Some scr →
  keys w = Key (48 + d) :: ks →
  0 ≤ d ≤ 9 →
  let N := Z.of_nat (length (items J)) in
  (1 ≤ d ≤ Z.min 9 N →
     ∃ J', menus (world_after
                    (process_user_input __version__ nested self) w) !! self
           = Some J'
           ∧ current_option J' = d - 1 ∧ items J' = items J)
  ∧ (¬ 1 ≤ d ≤ Z.min 9 N →
       process_user_input __version__ nested self w
       = (with_keys ks (with_trace (trace w ++ [Getch self]) w),
          Ok (48 + d))).
Proof.
  intros HJ Hs Hk Hd N.
  set (w1 := with_keys ks (with_trace (trace w ++ [Getch self]) w)).
  assert (Hmax : (if decide (N >= 9) then py_ord "9" else py_ord (str N)) w1
                 = (w1, Ok (48 + Z.min 9 N))).
  { destruct (decide _) as [H9|H9].
    - rewrite Z.min_l by lia. done.
    - rewrite Z.min_r by lia. unfold py_ord.
      rewrite ord_str_digit by lia. done. }
  split.
  - intros Hin. unfold world_after, process_user_input, get_input.
    rewrite (bind_ok _ _ _ _ _ (stdscr_getch_key w self scr _ ks Hs Hk)).
    fold w1. rewrite (bind_ok _ _ _ _ _ (the_menu_ok w1 self J HJ)).
    fold N. rewrite (bind_ok _ _ _ _ _ Hmax).
    rewrite (bind_ok _ _ w1 w1 49 eq_refl).
    rewrite (bind_ok _ _ w1 w1 48 eq_refl).
    rewrite (bind_ok _ _ w1 w1 10 eq_refl).
    rewrite decide_True by lia.
    replace (48 + d - 48 - 1) with (d - 1) by lia.
    destruct (go_to_cursor w1 self J (d - 1) HJ) as (J' & HJ' & Hc & Hi & _).
    exists J'. unfold world_after in HJ'.
    by rewrite bind_ret_world.
  - intros Hout. unfold process_user_input, get_input.
    rewrite (bind_ok _ _ _ _ _ (stdscr_getch_key w self scr _ ks Hs Hk)).
    fold w1. rewrite (bind_ok _ _ _ _ _ (the_menu_ok w1 self J HJ)).
    fold N. rewrite (bind_ok _ _ _ _ _ Hmax).
    rewrite (bind_ok _ _ w1 w1 49 eq_refl).
    rewrite (bind_ok _ _ w1 w1 48 eq_refl).
    rewrite (bind_ok _ _ w1 w1 10 eq_refl).
    rewrite decide_False by lia.
    unfold KEY_DOWN, KEY_UP, KEY_RIGHT, KEY_LEFT, KEY_RESIZE.
    repeat (rewrite decide_False by (cbn; lia)). done.
Qed.
End Navigation.

(** ** Appending items *)

Global Instance same_lists_preorder : PreOrder same_lists.
Proof.
  split.
  - by intros w.
  - intros w1 w2 w3 [H1 L1] [H2 L2]. split.
    + intros m. by rewrite H2, H1.
    + intros i Hi. by apply L2, L1.
Qed.

Lemma same_lists_emit c : respects same_lists (emit c).
Proof. by intros w. Qed.

Lemma same_lists_update_menu m f :
  (∀ J, items (f J) = items J) → (∀ J, exit_item (f J) = exit_item J) →
  respects same_lists (update_menu m f).
Proof.
  intros Hi He w. unfold_prims.
  destruct (menus w !! m) as [J|] eqn:HJ; cbn; [|reflexivity].
  split; cbn; [|done]. intros m'. destruct (decide (m = m')) as [->|Hne].
  - rewrite lookup_insert_eq, HJ. cbn. by rewrite Hi, He.
  - by rewrite lookup_insert_ne.
Qed.

Lemma paints_same_lists self w w' : paints self w w' → same_lists w w'.
Proof.
  intros Hp. split.
  - intros m. destruct (decide (m = self)) as [->|Hne].
    + pose proof (paints_self _ _ _ Hp) as Hs.
      destruct (menus w' !! self) as [J'|], (menus w !! self) as [J|];
        cbn in *; try done.
      assert (Hc : menu_core J' = menu_core J) by congruence.
      apply menu_core_fields in Hc as (-> & _ & _ & -> & _). done.
    + by rewrite (paints_others _ _ _ Hp).
  - intros i [o Ho]. pose proof (paints_objs _ _ _ Hp i) as Hi.
    rewrite Ho in Hi. by destruct (objs w' !! i).
Qed.

Lemma filter_absent (x : item_id) (l : list item_id) :
  x ∉ l → filter (λ i, i = x) l = [].
Proof.
  induction l as [|y l IH]; [done|]. intros Hx.
  apply not_elem_of_cons in Hx as [Hne Hx].
  rewrite filter_cons_False by done. by apply IH.
Qed.

Lemma exit_is_last_index J :
  exit_is_last J →
  items J !! (length (items J) - 1)%nat = Some (exit_item J)
  ∧ length (filter (λ i, i = exit_item J) (items J)) = 1%nat.
Proof.
  intros (l & Hl & Hnot). rewrite Hl, length_app. cbn [length]. split.
  - replace (length l + 1 - 1)%nat with (length l) by lia.
    by apply list_lookup_middle.
  - rewrite filter_app, length_app.
    rewrite filter_absent by done. by rewrite filter_singleton_True.
Qed.

Section Append.
Context (__version__ : string).

Lemma remove_exit_last w self J l :
  menus w !! self = Some J → items J = l ++ [exit_item J] →
  remove_exit self w
  = (with_menus (<[self := with_items l J]> (menus w)) w, Ok true).
Proof.
  intros HJ Hl. unfold remove_exit.
  rewrite (bind_ok _ _ _ _ _ (the_menu_ok w self J HJ)).
  rewrite Hl. destruct (l ++ [exit_item J]) as [|x l'] eqn:E.
  { by destruct l. }
  rewrite <- E. unfold getitem. rewrite py_getitem_last. cbn [bind ret].
  rewrite decide_True by done. rewrite py_delitem_last.
  by rewrite (bind_ok _ _ _ _ _ (update_menu_ok w self J _ HJ)).
Qed.

Lemma add_exit_after w self J l x :
  menus w !! self = Some J → items J = l ++ [x] →
  add_exit self w
  = if decide (x = exit_item J) then (w, Ok false)
    else (with_menus
            (<[self := with_items (l ++ [x; exit_item J]) J]> (menus w)) w,
          Ok true).
Proof.
  intros HJ Hl. unfold add_exit.
  rewrite (bind_ok _ _ _ _ _ (the_menu_ok w self J HJ)).
  rewrite Hl. destruct (l ++ [x]) as [|y l'] eqn:E.
  { by destruct l. }
  rewrite <- E. unfold getitem. rewrite py_getitem_last. cbn [bind ret].
  destruct (decide (x = exit_item J)) as [->|Hne].
  - by rewrite decide_False by tauto.
  - rewrite decide_True by done.
    rewrite (bind_ok _ _ _ _ _ (update_menu_ok w self J _ HJ)).
    by rewrite <- app_assoc.
Qed.

Lemma same_lists_draw self : respects same_lists (draw __version__ self).
Proof. intros w. eapply paints_same_lists, paints_draw. Qed.

Lemma append_item_keeps_exit w self J item :
  menus w !! self = Some J → exit_is_last J → is_Some (objs w !! item) →
  let w' := world_after (append_item __version__ self item) w in
  (∃ J', menus w' !! self = Some J' ∧ exit_is_last J'
         ∧ exit_item J' = exit_item J)
  ∧ (∀ i, is_Some (objs w !! i) → is_Some (objs w' !! i)).
Proof.
  intros HJ (l & Hl & Hnot) [o Ho] w'. subst w'.
  unfold world_after, append_item.
  rewrite (bind_ok _ _ _ _ _ (remove_exit_last w self J l HJ Hl)).
  erewrite bind_ok; [|by apply update_item_ok].
  erewrite bind_ok; [|apply the_menu_ok; apply lookup_insert_eq].
  erewrite bind_ok; [|apply update_menu_ok; apply lookup_insert_eq].
  cbn [with_items items with_menus with_objs menus objs].
  rewrite insert_insert_eq.
  set (J1 := with_items (l ++ [item]) J).
  match goal with |- context [bind _ _ ?w0] => set (w1 := w0) end.
  assert (HJ1 : menus w1 !! self = Some J1) by apply lookup_insert_eq.
  set (J2 := if decide (item = exit_item J) then J1
             else with_items (l ++ [item; exit_item J]) J1).
  set (w2 := with_menus (<[self := J2]> (menus w1)) w1).
  assert (Hadd : (add_exit self;; ret tt) w1 = (w2, Ok tt)).
  { erewrite bind_ok.
    2:{ rewrite (add_exit_after w1 self J1 l item HJ1 eq_refl).
        change (exit_item J1) with (exit_item J).
        instantiate (1 := negb (bool_decide (item = exit_item J))).
        instantiate (1 := w2). unfold w2, J2.
        destruct (decide (item = exit_item J)); [|by rewrite bool_decide_eq_false_2].
        rewrite bool_decide_eq_true_2 by done. cbn. f_equal.
        unfold w1. cbn. rewrite insert_insert_eq. done. }
    done. }
  rewrite (bind_ok _ _ _ _ _ Hadd).
  match goal with
  | |- context [menus (fst (?c w2)) !! self] =>
      assert (Hr : respects same_lists c);
        [|destruct (Hr w2) as [Hm Ho2]; set (w3 := fst (c w2)) in *]
  end.
  { unfold screen_getmaxyx, screen_resize.
    repeat first
      [ apply same_lists_draw | apply same_lists_emit
      | apply same_lists_update_menu; done
      | respects_step ]. }
  specialize (Hm self). unfold w2 in Hm at 1. cbn in Hm.
  rewrite lookup_insert_eq in Hm. cbn in Hm.
  destruct (menus w3 !! self) as [J'|] eqn:HJ'; [|done].
  cbn in Hm. injection Hm as Hi He. split.
  - exists J'. split; [done|].
    assert (He' : exit_item J' = exit_item J).
    { rewrite He. unfold J2. by destruct (decide _). }
    split; [|done]. unfold exit_is_last. rewrite He', Hi.
    unfold J2. destruct (decide (item = exit_item J)) as [->|Hne]; cbn.
    + by exists l.
    + exists (l ++ [item]). rewrite <- app_assoc. split; [done|].
      rewrite elem_of_app, list_elem_of_singleton.
      intros [?|?]; [done|congruence].
  - intros i Hi'. apply Ho2. unfold w2, w1. cbn.
    destruct (decide (item = i)) as [->|Hn].
    + rewrite lookup_insert_eq. eauto.
    + by rewrite lookup_insert_ne.
Qed.

(** C3 (amended): when the exit item is the last element of the list and
    occurs nowhere else, as [start] leaves it, then after any sequence of
    [append_item] calls with live items it is again in the list exactly
    once, at index [len - 1]. *)
Theorem append_items_keep_exit_last (w : World) (self : menu_id)
    (J : Jumpbox) (l : list item_id) :
  menus w !! self = Some J →
  exit_is_last J →
  Forall (λ i, is_Some (objs w !! i)) l →
  ∃ J',
    menus (world_after (append_items __version__ self l) w) !! self = Some J'
    ∧ items J' !! (length (items J') - 1)%nat = Some (exit_item J')
    ∧ length (filter (λ i, i = exit_item J') (items J')) = 1%nat.
Proof.
  intros HJ He Hl.
  cut (∃ J', menus (world_after (append_items __version__ self l) w) !! self
             = Some J' ∧ exit_is_last J').
  { intros (J' & HJ' & He'). exists J'. split; [done|].
    by apply exit_is_last_index. }
  revert w J HJ He Hl. induction l as [|item l IH]; intros w J HJ He Hl.
  - exists J. by split.
  - apply Forall_cons in Hl as [Hitem Hl].
    destruct (append_item_keeps_exit w self J item HJ He Hitem)
      as [(J1 & HJ1 & He1 & _) Hlive].
    cbn [append_items]. unfold world_after in *. unfold bind.
    destruct (append_item __version__ self item w) as [w1 [[]|e| |]] eqn:E;
      cbn in *; try (exists J1; by split).
    apply (IH w1 J1); try done.
    eapply Forall_impl; [exact Hl|]. cbn. intros i Hi. by apply Hlive.
Qed.
End Append.

(** ** Descending into a submenu *)

Global Instance descends_preorder S C : PreOrder (descends S C).
Proof.
  split.
  - intros w Hs. split; [done|]. split; [done|]. split; [done|].
    exists []. rewrite app_nil_r. split; [done|]. apply list_subseteq_nil.
  - intros w1 w2 w3 H1 H2 Hs.
    destruct (H1 Hs) as (Hs2 & Ho1 & Hp1 & t1 & E1 & Hr1).
    destruct (H2 Hs2) as (Hs3 & Ho2 & Hp2 & t2 & E2 & Hr2).
    split; [done|]. split; [|split].
    + intros q Hq. by rewrite Ho2, Ho1.
    + by rewrite Hp2, Hp1.
    + exists (t1 ++ t2). rewrite app_assoc, <- E1, <- E2. split; [done|].
      rewrite readers_app. intros x [Hx|Hx]%elem_of_app; eauto.
Qed.

Lemma elem_of_targets w m s :
  s ∈ targets w m ↔
  ∃ J i o, menus w !! m = Some J ∧ i ∈ exit_item J :: items J
           ∧ objs w !! i = Some o ∧ Item.submenu o = Some s.
Proof.
  unfold targets. destruct (menus w !! m) as [J|]; cbv beta iota.
  - rewrite list_elem_of_omap. split.
    + intros (i & Hi & Hs). destruct (objs w !! i) as [o|] eqn:Ho; [|done].
      exists J, i, o. eauto.
    + intros (J' & i & o & [= <-] & Hi & Ho & Hs). exists i.
      split; [done|]. by rewrite Ho.
  - split; [by intros ?%elem_of_nil|]. by intros (? & ? & ? & ? & _).
Qed.

Lemma subtree_spec S C w :
  subtree S C w = true ↔
  C ∈ S ∧ ∀ m s, m ∈ S → s ∈ targets w m → s ∈ S ∧ s ≠ C.
Proof.
  unfold subtree. rewrite andb_true_iff, bool_decide_eq_true.
  rewrite forallb_forall. split.
  - intros [HC H]. split; [done|]. intros m s Hm Hs.
    specialize (H m (proj1 (list_elem_of_In _ _) Hm)).
    rewrite forallb_forall in H.
    specialize (H s (proj1 (list_elem_of_In _ _) Hs)).
    apply andb_true_iff in H as [H1 H2].
    by apply bool_decide_eq_true in H1, H2.
  - intros [HC H]. split; [done|]. intros m Hm.
    apply forallb_forall. intros s Hs.
    destruct (H m s) as [H1 H2]; [by apply list_elem_of_In..|].
    by rewrite andb_true_iff, !bool_decide_eq_true.
Qed.

Section Relation.
Context (S : list menu_id) (C : menu_id).

Lemma no_calls (t0 : list call) : ∃ t, t0 = t0 ++ t ∧ readers t ⊆ S.
Proof.
  exists []. rewrite app_nil_r. split; [done|]. apply list_subseteq_nil.
Qed.

Lemma descends_step w w' :
  (∀ m, m ∈ S → targets w' m ⊆ targets w m) →
  (∀ q, q ∉ S → menus w' !! q = menus w !! q) →
  previous_active_menu <$> menus w' !! C
  = previous_active_menu <$> menus w !! C →
  (∃ t, trace w' = trace w ++ t ∧ readers t ⊆ S) →
  descends S C w w'.
Proof.
  intros Ht Ho Hp Hr Hs. split; [|done].
  apply subtree_spec in Hs as [HC Hs]. apply subtree_spec.
  split; [done|]. intros m s Hm Hin. apply (Hs m); [done|]. by apply Ht.
Qed.

Lemma descends_emit c :
  (∀ m, c = Getch m → m ∈ S) → respects (descends S C) (emit c).
Proof.
  intros Hc w. apply descends_step; try done.
  exists [c]. split; [done|]. destruct c; cbn; try apply list_subseteq_nil.
  intros x ->%list_elem_of_singleton. by apply Hc.
Qed.

Lemma descends_modify f :
  (∀ w, menus (f w) = menus w) → (∀ w, objs (f w) = objs w) →
  (∀ w, trace (f w) = trace w) →
  respects (descends S C) (modify f).
Proof.
  intros Hm Ho Ht w. cbn. apply descends_step.
  - intros m _ s. unfold targets. by rewrite Hm, Ho.
  - intros q _. by rewrite Hm.
  - by rewrite Hm.
  - rewrite Ht. apply no_calls.
Qed.

Lemma descends_update_menu_at w m J f :
  m ∈ S → menus w !! m = Some J →
  exit_item (f J) = exit_item J →
  items (f J) ⊆ exit_item J :: items J →
  (m = C → previous_active_menu (f J) = previous_active_menu J) →
  descends S C w (with_menus (<[m := f J]> (menus w)) w).
Proof.
  intros Hm HJ He Hi Hp. apply descends_step; cbn.
  - intros m' _ s. rewrite !elem_of_targets. cbn.
    intros (J' & i & o & HJ' & Hin & Ho & Hs).
    destruct (decide (m = m')) as [<-|Hne].
    + rewrite lookup_insert_eq in HJ'. injection HJ' as <-.
      exists J, i, o. repeat split; try done.
      rewrite He in Hin. apply elem_of_cons in Hin as [->|Hin].
      * left.
      * by apply Hi.
    + rewrite lookup_insert_ne in HJ' by done. exists J', i, o. eauto.
  - intros q Hq. rewrite lookup_insert_ne; [done|]. by intros <-.
  - destruct (decide (m = C)) as [->|Hne].
    + rewrite lookup_insert_eq, HJ. cbn. by rewrite Hp.
    + by rewrite lookup_insert_ne.
  - apply no_calls.
Qed.

Lemma descends_update_menu m f :
  m ∈ S →
  (∀ J, exit_item (f J) = exit_item J) → (∀ J, items (f J) = items J) →
  (m = C → ∀ J, previous_active_menu (f J) = previous_active_menu J) →
  respects (descends S C) (update_menu m f).
Proof.
  intros Hm He Hi Hp w. unfold_prims.
  destruct (menus w !! m) as [J|] eqn:HJ; cbn; [|reflexivity].
  apply descends_update_menu_at; try done.
  - rewrite Hi. set_solver.
  - intros ->. by apply Hp.
Qed.

Lemma descends_update_item i f :
  (∀ o, Item.submenu (f o) = Item.submenu o) →
  respects (descends S C) (update_item i f).
Proof.
  intros Hf w. unfold_prims.
  destruct (objs w !! i) as [o|] eqn:Ho; cbn; [|reflexivity].
  apply descends_step; cbn; try done.
  - intros m _ s. rewrite !elem_of_targets. cbn.
    intros (J' & j & o' & HJ' & Hin & Ho' & Hs).
    destruct (decide (i = j)) as [<-|Hne].
    + rewrite lookup_insert_eq in Ho'. injection Ho' as <-.
      exists J', i, o. rewrite Hf in Hs. eauto.
    + rewrite lookup_insert_ne in Ho' by done. exists J', j, o'. eauto.
  - apply no_calls.
Qed.

Lemma paints_descends m w w' : m ∈ S → paints m w w' → descends S C w w'.
Proof.
  intros Hm Hp. apply descends_step.
  - intros m' _ s. rewrite !elem_of_targets.
    intros (J' & i & o' & HJ' & Hin & Ho' & Hs).
    destruct (paints_same_lists _ _ _ Hp) as [Hl _]. specialize (Hl m').
    rewrite HJ' in Hl. destruct (menus w !! m') as [J|] eqn:HJ; [|done].
    cbn in Hl. injection Hl as Hi He.
    pose proof (paints_objs _ _ _ Hp i) as Hc. rewrite Ho' in Hc.
    destruct (objs w !! i) as [o|] eqn:Ho; [|done].
    exists J, i, o. rewrite <- Hi, <- He. repeat split; try done.
    cbn in Hc. assert (Hcore : item_core o' = item_core o) by congruence.
    apply (f_equal Item.submenu) in Hcore. cbn in Hcore. congruence.
  - intros q Hq. apply (paints_others _ _ _ Hp). by intros ->.
  - destruct (decide (C = m)) as [->|Hne].
    + pose proof (paints_self _ _ _ Hp) as Hs.
      destruct (menus w' !! m) as [J'|], (menus w !! m) as [J|];
        cbn in *; try done.
      assert (Hc : menu_core J' = menu_core J) by congruence.
      apply (f_equal previous_active_menu) in Hc. cbn in Hc. by rewrite Hc.
    + by rewrite (paints_others _ _ _ Hp).
  - destruct (paints_trace _ _ _ Hp) as (t & E & Hr). exists t.
    split; [done|]. rewrite Hr. apply list_subseteq_nil.
Qed.
End Relation.

Lemma py_getitem_elem {A} (l : list A) i x : py_getitem l i = Some x → x ∈ l.
Proof.
  unfold py_getitem. repeat destruct (decide _); try done;
    apply list_elem_of_lookup_2.
Qed.

Lemma selected_item_inv w w1 m i :
  selected_item m w = (w1, Ok (Some i)) →
  w1 = w ∧ ∃ J, menus w !! m = Some J ∧ i ∈ items J.
Proof.
  unfold selected_item. unfold_prims.
  destruct (menus w !! m) as [J|] eqn:HJ; [|done].
  destruct (items J) as [|x l] eqn:Hi; [done|].
  destruct (decide _); [|done].
  destruct (py_getitem (x :: l) (current_option J)) as [y|] eqn:Hy; [|done].
  intros [= <- <-]. split; [done|]. exists J. split; [done|].
  rewrite Hi. by eapply py_getitem_elem.
Qed.

Lemma selected_item_pure m w : (selected_item m w).1 = w.
Proof.
  unfold selected_item. unfold_prims.
  destruct (menus w !! m) as [J|]; [|done].
  destruct (items J); [done|]. destruct (decide _); [|done].
  by destruct (py_getitem _ _).
Qed.

Ltac descends_step :=
  first
    [ apply descends_emit; intros ? [=]; subst; done
    | apply descends_modify; done
    | apply descends_update_menu; done
    | apply descends_update_item; done
    | respects_step ].

Section Methods.
Context (S : list menu_id) (C : menu_id) (__version__ : string).

Lemma descends_draw m : m ∈ S → respects (descends S C) (draw __version__ m).
Proof. intros Hm w. eapply paints_descends; [done|apply paints_draw]. Qed.

Lemma descends_go_to m v :
  m ∈ S → respects (descends S C) (go_to __version__ m v).
Proof.
  intros Hm. unfold go_to.
  repeat first [apply descends_draw; done | descends_step].
Qed.

Lemma descends_go_down m :
  m ∈ S → respects (descends S C) (go_down __version__ m).
Proof.
  intros Hm. unfold go_down.
  repeat first [apply descends_draw; done | descends_step].
Qed.

Lemma descends_go_up m :
  m ∈ S → respects (descends S C) (go_up __version__ m).
Proof.
  intros Hm. unfold go_up.
  repeat first [apply descends_draw; done | descends_step].
Qed.

Lemma descends_clear_screen m : respects (descends S C) (clear_screen m).
Proof.
  unfold clear_screen, screen_clear, stdscr_erase, stdscr_refresh.
  repeat descends_step.
Qed.

Lemma descends_clear_terminal : respects (descends S C) clear_terminal.
Proof. unfold clear_terminal. repeat descends_step. Qed.

Lemma descends_set_up i : respects (descends S C) (set_up i).
Proof.
  unfold set_up, SubmenuItem.set_up, ExternalItem.set_up, MenuItem.set_up.
  repeat first
    [ apply descends_clear_screen | apply descends_clear_terminal
    | descends_step ].
Qed.

Lemma descends_clean_up i : respects (descends S C) (clean_up i).
Proof.
  unfold clean_up, SubmenuItem.clean_up, ExternalItem.clean_up,
    MenuItem.clean_up, curses_curs_set.
  repeat first [apply descends_clear_screen | descends_step].
Qed.

Lemma descends_get_return i : respects (descends S C) (get_return i).
Proof.
  unfold get_return, SubmenuItem.get_return, MenuItem.get_return.
  repeat descends_step.
Qed.

Lemma descends_quick_connect i :
  respects (descends S C) (QuickConnect.action i).
Proof.
  unfold QuickConnect.action, raw_input, subprocess_run.
  repeat descends_step.
Qed.

Lemma descends_add_exit m : m ∈ S → respects (descends S C) (add_exit m).
Proof.
  intros Hm w. unfold add_exit. apply respects_with_menu; [exact _|].
  intros J HJ. destruct (items J) as [|x l] eqn:Hi; [reflexivity|].
  unfold getitem. destruct (py_getitem (x :: l) (-1)) as [y|]; [|reflexivity].
  cbn [bind ret]. destruct (decide _); [|reflexivity].
  rewrite bind_ret_world.
  rewrite (update_menu_ok w m J _ HJ). cbn [fst].
  apply descends_update_menu_at; try done. cbn [items with_items].
  rewrite ?Hi. intros z Hz. apply elem_of_cons.
  apply elem_of_app in Hz as [Hz|Hz]; [by right|].
  apply list_elem_of_singleton in Hz. by left.
Qed.

Lemma descends_remove_exit m :
  m ∈ S → respects (descends S C) (remove_exit m).
Proof.
  intros Hm w. unfold remove_exit. apply respects_with_menu; [exact _|].
  intros J HJ. destruct (items J) as [|x l] eqn:Hi; [reflexivity|].
  unfold getitem. destruct (py_getitem (x :: l) (-1)) as [y|]; [|reflexivity].
  cbn [bind ret]. destruct (decide _); [|reflexivity].
  destruct (py_delitem (x :: l) (-1)) as [l'|] eqn:Hd; [|reflexivity].
  rewrite bind_ret_world.
  rewrite (update_menu_ok w m J _ HJ). cbn [fst].
  apply descends_update_menu_at; try done. cbn [items with_items].
  rewrite ?Hi. intros z Hz. right. unfold py_delitem in Hd.
  repeat destruct (decide _); simplify_eq;
    by eapply list_elem_of_delete_inv.
Qed.

Section NestedLoop.
Context (nested : menu_id → option window → M unit).
Hypothesis nested_descends :
  ∀ m scr, m ∈ S → respects (descends S C) (nested m scr).

Lemma descends_wrap_start t :
  t ∈ S → respects (descends S C) (_wrap_start nested t).
Proof.
  intros Ht. unfold _wrap_start, curses_wrapper.
  repeat first
    [ apply nested_descends; done
    | apply descends_clear_screen | apply descends_clear_terminal
    | descends_step ].
Qed.

Lemma descends_start t show_exit :
  t ∈ S → t ≠ C → respects (descends S C) (start nested t show_exit).
Proof.
  intros Ht Hne. unfold start.
  repeat first
    [ apply descends_wrap_start; done
    | apply descends_add_exit; done | apply descends_remove_exit; done
    | descends_step ].
Qed.

Lemma descends_action w m J i :
  m ∈ S → menus w !! m = Some J → i ∈ items J →
  descends S C w (action nested i w).1.
Proof.
  intros Hm HJ Hi. unfold action, bind at 1, the_item, bind, get. cbn.
  destruct (objs w !! i) as [o|] eqn:Ho; cbn; [|reflexivity].
  destruct (Item.class o) eqn:Hc; try reflexivity.
  - unfold SubmenuItem_action, bind at 1, the_item, bind at 1, get. cbn.
    rewrite Ho. cbn. unfold bind at 1.
    destruct (Item.submenu o) as [s|] eqn:Hs; cbn; [|reflexivity].
    destruct (subtree S C w) eqn:E.
    + apply subtree_spec in E as [_ E]. destruct (E m s) as [HsS HsC].
      { done. }
      { apply elem_of_targets. exists J, i, o. split; [done|].
        split; [apply elem_of_cons; by right|]. by split. }
      apply (descends_start s None HsS HsC w).
    + intros Hsub. congruence.
  - apply descends_quick_connect.
Qed.

Lemma descends_on_selected_item {A} m (method : item_id → M A) :
  (∀ w J i, menus w !! m = Some J → i ∈ items J →
            descends S C w (method i w).1) →
  respects (descends S C) (on_selected_item m method).
Proof.
  intros Hmeth w. unfold on_selected_item.
  apply respects_bind_at; [exact _| |].
  - rewrite selected_item_pure. reflexivity.
  - intros w1 [i|] Hsel; [|reflexivity].
    apply selected_item_inv in Hsel as (-> & J & HJ & Hi).
    cbn. by eapply Hmeth.
Qed.

Lemma descends_select m :
  m ∈ S → respects (descends S C) (select __version__ nested m).
Proof.
  intros Hm. unfold select.
  repeat first
    [ apply descends_draw; done
    | apply descends_on_selected_item; intros ? ? ? ? ?
    | apply descends_set_up | apply descends_clean_up
    | apply descends_get_return
    | eapply descends_action; eassumption
    | descends_step
    | lazymatch goal with
      | |- descends ?S ?C ?w (fst (?c ?w)) =>
          let H := fresh in
          assert (H : respects (descends S C) c); [|exact (H w)]
      end ].
Qed.

Lemma descends_getch m : m ∈ S → respects (descends S C) (stdscr_getch m).
Proof. intros Hm. unfold stdscr_getch. repeat descends_step. Qed.

Lemma descends_process_user_input m :
  m ∈ S →
  respects (descends S C) (process_user_input __version__ nested m).
Proof.
  intros Hm. unfold process_user_input, get_input.
  repeat first
    [ apply descends_getch; done | apply descends_go_to; done
    | apply descends_go_down; done | apply descends_go_up; done
    | apply descends_select; done | apply nested_descends; done
    | descends_step ].
Qed.
End NestedLoop.

Lemma descends_main_loop fuel : ∀ m scr,
  m ∈ S → respects (descends S C) (_main_loop __version__ fuel m scr).
Proof.
  induction fuel as [|fuel IH]; intros m scr Hm; cbn [_main_loop].
  - apply respects_out_of_fuel. exact _.
  - unfold curses_newpad, _set_up_colors, curses_curs_set, stdscr_refresh.
    repeat first
      [ apply descends_draw; done
      | apply descends_process_user_input; done
      | descends_step ].
Qed.
End Methods.

Lemma bind_Ok_inv {A B} (c : M A) (k : A → M B) w w' b :
  bind c k w = (w', Ok b) →
  ∃ w1 a, c w = (w1, Ok a) ∧ k a w1 = (w', Ok b).
Proof.
  unfold bind. destruct (c w) as [w1 [a|e| |]]; try done. eauto.
Qed.

Lemma bind_raise {A B} (c : M A) (k : A → M B) w w1 e :
  c w = (w1, Raise e) → bind c k w = (w1, Raise e).
Proof. intros H. unfold bind. by rewrite H. Qed.

Lemma update_menu_dangling w m f :
  menus w !! m = None → update_menu m f w = (w, Raise DanglingReference).
Proof. intros H. unfold_prims. by rewrite H. Qed.

Section Return.
Context (nested : menu_id → option window → M unit).

(** When [_wrap_start] returns, the active menu is the one recorded by
    [start]. *)
Lemma wrap_start_restores_active self w w' :
  _wrap_start nested self w = (w', Ok tt) →
  ∃ J, menus w' !! self = Some J
       ∧ currently_active_menu w' = previous_active_menu J.
Proof.
  unfold _wrap_start. intros H.
  apply bind_Ok_inv in H as (w1 & J1 & _ & H).
  apply bind_Ok_inv in H as (w2 & [] & _ & H).
  apply bind_Ok_inv in H as (w3 & [] & _ & H).
  apply bind_Ok_inv in H as (w4 & [] & _ & H).
  apply bind_Ok_inv in H as (w5 & [] & _ & H).
  apply bind_Ok_inv in H as (w6 & J & HJ & H).
  apply the_menu_inv in HJ as [-> HJ].
  injection H as <-. exists J. by split.
Qed.

Lemma start_restores_active self show_exit w w' :
  start nested self show_exit w = (w', Ok tt) →
  ∃ J, menus w' !! self = Some J
       ∧ currently_active_menu w' = previous_active_menu J.
Proof.
  unfold start. intros H.
  apply bind_Ok_inv in H as (w1 & w0 & _ & H).
  apply bind_Ok_inv in H as (w2 & [] & _ & H).
  apply bind_Ok_inv in H as (w3 & [] & _ & H).
  apply bind_Ok_inv in H as (w4 & [] & _ & H).
  apply bind_Ok_inv in H as (w5 & [] & _ & H).
  apply bind_Ok_inv in H as (w6 & J6 & _ & H).
  apply bind_Ok_inv in H as (w7 & [] & _ & H).
  by apply wrap_start_restores_active in H.
Qed.
End Return.

Lemma subtree_mono S C w w' :
  (∀ m, m ∈ S → targets w' m ⊆ targets w m) →
  subtree S C w = true → subtree S C w' = true.
Proof.
  intros Ht [HC Hs]%subtree_spec. apply subtree_spec.
  split; [done|]. intros m s Hm Hin. apply (Hs m); [done|]. by apply Ht.
Qed.

Lemma targets_update_menu w m J f m' :
  menus w !! m = Some J →
  exit_item (f J) = exit_item J → items (f J) = items J →
  targets (with_menus (<[m := f J]> (menus w)) w) m' = targets w m'.
Proof.
  intros HJ He Hi. unfold targets. cbn.
  destruct (decide (m = m')) as [<-|Hne].
  - by rewrite lookup_insert_eq, HJ, He, Hi.
  - by rewrite lookup_insert_ne.
Qed.

Section Frame.
Context (__version__ : string).

(** The descent into the submenu [C] leaves a menu [P] outside the subtree
    of [C] as it was; only menus of the subtree read the keyboard; and
    when the descent returns, the active menu is the one that was active
    before. *)
Lemma descent_frame (fuel : nat) (w w' : World)
    (i : item_id) (o : Item.t) (P C : menu_id) (S : list menu_id)
    (r : outcome unit) :
  objs w !! i = Some o →
  Item.submenu o = Some C →
  subtree S C w = true →
  P ∉ S →
  SubmenuItem_action (_main_loop __version__ fuel) i w = (w', r) →
  menus w' !! P = menus w !! P
  ∧ (∃ t, trace w' = trace w ++ t ∧ readers t ⊆ S)
  ∧ (r = Ok tt → currently_active_menu w' = currently_active_menu w).
Proof.
  intros Ho Hs Hsub HP Hrun.
  assert (HC : C ∈ S) by (by apply subtree_spec in Hsub as [? _]).
  unfold SubmenuItem_action in Hrun.
  rewrite (bind_ok _ _ _ _ _ (the_item_ok w i o Ho)), Hs in Hrun.
  cbn [not_none] in Hrun. rewrite (bind_ok _ _ w w C eq_refl) in Hrun.
  destruct (menus w !! C) as [JC|] eqn:HJC.
  2:{ unfold start in Hrun. rewrite (bind_ok _ _ w w w eq_refl) in Hrun.
      erewrite bind_raise in Hrun; [|by apply update_menu_dangling].
      injection Hrun as <- <-. split; [done|]. split; [|done].
      exists []. rewrite app_nil_r. split; [done|]. apply list_subseteq_nil. }
  set (f := with_previous_active_menu (currently_active_menu w)).
  set (w1 := with_menus (<[C := f JC]> (menus w)) w).
  assert (Hsub1 : subtree S C w1 = true).
  { eapply subtree_mono; [|exact Hsub]. intros m _.
    unfold w1. by rewrite targets_update_menu. }
  pose proof Hrun as Hact.
  unfold start in Hrun.
  rewrite (bind_ok _ _ w w w eq_refl) in Hrun.
  rewrite (bind_ok _ _ _ _ _ (update_menu_ok w C JC _ HJC)) in Hrun.
  fold f w1 in Hrun.
  match type of Hrun with
  | ?c w1 = _ => assert (Hrest : respects (descends S C) c)
  end.
  { repeat first
      [ apply descends_wrap_start;
          [intros; by apply descends_main_loop|done]
      | apply descends_add_exit; done | apply descends_remove_exit; done
      | descends_step ]. }
  specialize (Hrest w1). rewrite Hrun in Hrest. cbn [fst] in Hrest.
  destruct (Hrest Hsub1) as (_ & Hout & Hpam & Htr).
  split; [|split].
  - rewrite (Hout P HP). unfold w1. cbn. rewrite lookup_insert_ne; [done|].
    by intros <-.
  - done.
  - intros ->. apply start_restores_active in Hact as (J & HJ & ->).
    rewrite HJ in Hpam. unfold w1 in Hpam. cbn in Hpam.
    rewrite lookup_insert_eq in Hpam. cbn in Hpam. congruence.
Qed.
End Frame.

(** ** The scroll offset, and the menu without items *)

Section Rendering.
Context (__version__ : string).


(** On a menu without items [draw] draws the border, the title and the
    subtitle, and then reads the loop variable that no iteration bound. *)
Lemma draw_of_empty_menu_raises (w : World) (self : menu_id) (J : Jumpbox)
    (pad : window) :
  menus w !! self = Some J → screen J = Some pad → items J = [] →
  draw __version__ self w
  = (with_trace
       (trace w ++ [Border self]
          ++ match title J with
             | Some t => [Addstr self 2 2 t A_UNDERLINE] | None => [] end
          ++ match subtitle J with
             | Some t => [Addstr self 4 2 t A_BOLD] | None => [] end) w,
     Raise UnboundLocalError).
Proof.
  intros HJ Hp Hi. unfold draw.
  run_with screen_border_ok. run_with the_menu_ok.
  run_with title_ok. run_with title_ok.
  rewrite Hi. cbn. by rewrite <- !app_assoc.
Qed.

(** [add_exit] leaves a list without items as it is. *)
Lemma add_exit_of_empty_menu (w : World) (self : menu_id) (J : Jumpbox) :
  menus w !! self = Some J → items J = [] →
  add_exit self w = (w, Ok false).
Proof.
  intros HJ Hi. unfold add_exit.
  rewrite (bind_ok _ _ _ _ _ (the_menu_ok w self J HJ)). by rewrite Hi.
Qed.
End Rendering.

(** ** Selecting an item that opens a submenu *)

Global Instance same_heaps_preorder : PreOrder same_heaps.
Proof.
  split.
  - by intros w.
  - intros w1 w2 w3 [H1 L1] [H2 L2]. split; congruence.
Qed.

Lemma same_heaps_emit c : respects same_heaps (emit c).
Proof. by intros w. Qed.

Lemma same_heaps_clear_screen m : respects same_heaps (clear_screen m).
Proof.
  unfold clear_screen, screen_clear, stdscr_erase, stdscr_refresh.
  repeat first [apply same_heaps_emit | respects_step].
Qed.

Lemma same_heaps_clear_terminal : respects same_heaps clear_terminal.
Proof.
  unfold clear_terminal. repeat first [apply same_heaps_emit | respects_step].
Qed.

Lemma same_heaps_set_up i : respects same_heaps (set_up i).
Proof.
  unfold set_up, SubmenuItem.set_up, ExternalItem.set_up, MenuItem.set_up.
  repeat first
    [ apply same_heaps_clear_screen | apply same_heaps_clear_terminal
    | apply same_heaps_emit | respects_step ].
Qed.

Lemma same_heaps_clean_up i : respects same_heaps (clean_up i).
Proof.
  unfold clean_up, SubmenuItem.clean_up, ExternalItem.clean_up,
    MenuItem.clean_up, curses_curs_set.
  repeat first
    [apply same_heaps_clear_screen | apply same_heaps_emit | respects_step].
Qed.

Lemma same_heaps_get_return i : respects same_heaps (get_return i).
Proof.
  unfold get_return, SubmenuItem.get_return, MenuItem.get_return.
  repeat respects_step.
Qed.

(** With the cursor on the item [i] and a selection recorded,
    [self.selected_item.method()] is [i.method()]. *)
Lemma on_selected_item_eq {A} (method : item_id → M A) w m J i :
  menus w !! m = Some J → items J ≠ [] → selected_option J ≠ -1 →
  py_getitem (items J) (current_option J) = Some i →
  on_selected_item m method w = method i w.
Proof.
  intros HJ Hne Hsel Hi. unfold on_selected_item.
  by rewrite (bind_ok _ _ _ _ _ (selected_item_at_cursor w m J i HJ Hne Hsel Hi)).
Qed.

Section Select.
Context (__version__ : string).

(** Selecting an item that opens a submenu: when [select] returns, the
    cursor of the menu is where it was and the selected index is the
    cursor. *)
Lemma select_submenu_keeps_cursor (fuel : nat) (w w' : World)
    (P C : menu_id) (J : Jumpbox) (i : item_id) (o : Item.t)
    (S : list menu_id) :
  menus w !! P = Some J →
  0 ≤ current_option J →
  py_getitem (items J) (current_option J) = Some i →
  objs w !! i = Some o →
  Item.class o = IsSubmenuItem →
  Item.submenu o = Some C →
  subtree S C w = true →
  P ∉ S →
  select __version__ (_main_loop __version__ fuel) P w = (w', Ok tt) →
  ∃ J', menus w' !! P = Some J'
        ∧ current_option J' = current_option J
        ∧ selected_option J' = current_option J
        ∧ items J' = items J.
Proof.
  intros HJ Hpos Hi Ho Hc Hs Hsub HP H.
  assert (Hne : items J ≠ []).
  { intros E. rewrite E in Hi. unfold py_getitem in Hi.
    by repeat destruct (decide _). }
  set (J1 := with_selected_option (current_option J) J).
  assert (Hsel1 : selected_option J1 ≠ -1) by (cbn; lia).
  unfold select in H.
  rewrite (bind_ok _ _ _ _ _ (the_menu_ok w P J HJ)) in H.
  rewrite (bind_ok _ _ _ _ _ (update_menu_ok w P J _ HJ)) in H.
  fold J1 in H.
  set (w1 := with_menus (<[P := J1]> (menus w)) w) in H.
  assert (HJ1 : menus w1 !! P = Some J1) by apply lookup_insert_eq.
  (* set_up *)
  apply bind_Ok_inv in H as (w2 & [] & Hsetup & H).
  rewrite (on_selected_item_eq _ w1 P J1 i HJ1 Hne Hsel1 Hi) in Hsetup.
  pose proof (same_heaps_set_up i w1) as [Hm2 Ho2].
  rewrite Hsetup in Hm2, Ho2. cbn [fst] in Hm2, Ho2.
  assert (HJ2 : menus w2 !! P = Some J1) by (by rewrite Hm2).
  (* action *)
  apply bind_Ok_inv in H as (w3 & [] & Haction & H).
  rewrite (on_selected_item_eq _ w2 P J1 i HJ2 Hne Hsel1 Hi) in Haction.
  assert (Ho2' : objs w2 !! i = Some o) by (by rewrite Ho2).
  unfold action in Haction.
  rewrite (bind_ok _ _ _ _ _ (the_item_ok w2 i o Ho2')), Hc in Haction.
  assert (Hsub2 : subtree S C w2 = true).
  { eapply subtree_mono; [|exact Hsub]. intros m Hm s.
    unfold targets. rewrite Hm2, Ho2. unfold w1. cbn.
    rewrite lookup_insert_ne; [done|]. by intros <-. }
  destruct (descent_frame __version__ fuel w2 w3 i o P C S
              (Ok tt) Ho2' Hs Hsub2 HP Haction) as (HP3 & _).
  assert (HJ3 : menus w3 !! P = Some J1) by (by rewrite HP3).
  (* clean_up *)
  apply bind_Ok_inv in H as (w4 & [] & Hclean & H).
  rewrite (on_selected_item_eq _ w3 P J1 i HJ3 Hne Hsel1 Hi) in Hclean.
  pose proof (same_heaps_clean_up i w3) as [Hm4 _].
  rewrite Hclean in Hm4. cbn [fst] in Hm4.
  assert (HJ4 : menus w4 !! P = Some J1) by (by rewrite Hm4).
  (* get_return *)
  apply bind_Ok_inv in H as (w5 & v & Hret & H).
  rewrite (on_selected_item_eq _ w4 P J1 i HJ4 Hne Hsel1 Hi) in Hret.
  pose proof (same_heaps_get_return i w4) as [Hm5 _].
  rewrite Hret in Hm5. cbn [fst] in Hm5.
  assert (HJ5 : menus w5 !! P = Some J1) by (by rewrite Hm5).
  rewrite (bind_ok _ _ _ _ _ (update_menu_ok w5 P J1 _ HJ5)) in H.
  set (J6 := with_returned_value v J1) in H.
  set (w6 := with_menus (<[P := J6]> (menus w5)) w5) in H.
  assert (HJ6 : menus w6 !! P = Some J6) by apply lookup_insert_eq.
  (* should_exit *)
  apply bind_Ok_inv in H as (w7 & e & Hexit & H).
  rewrite (on_selected_item_eq _ w6 P J6 i HJ6 Hne Hsel1 Hi) in Hexit.
  apply bind_Ok_inv in Hexit as (w7' & o7 & Hitem & Hexit).
  apply the_item_inv in Hitem as [-> _]. injection Hexit as <- _.
  rewrite (bind_ok _ _ _ _ _ (update_menu_ok w6 P J6 _ HJ6)) in H.
  set (J8 := with_should_exit e J6) in H.
  set (w8 := with_menus (<[P := J8]> (menus w6)) w6) in H.
  assert (HJ8 : menus w8 !! P = Some J8) by apply lookup_insert_eq.
  rewrite (bind_ok _ _ _ _ _ (the_menu_ok w8 P J8 HJ8)) in H.
  destruct (should_exit J8).
  - injection H as <-. exists J8. by repeat split.
  - destruct (paints_lookup P w8 w' P J8) as (J' & HJ' & Hcore); [|done|].
    { pose proof (paints_draw __version__ P w8) as Hp. by rewrite H in Hp. }
    exists J'. split; [done|].
    apply menu_core_fields in Hcore as (-> & -> & -> & _). done.
Qed.
End Select.

(** ** The bound on run loops is large enough *)

Lemma bind_assoc {A B C} (c : M A) (k : A → M B) (k' : B → M C) w :
  bind (bind c k) k' w = bind c (λ a, bind (k a) k') w.
Proof. unfold bind. by destruct (c w) as [w1 [a|e| |]]. Qed.

Lemma safe_simple {A} n (c : M A) :
  (∀ w, (c w).2 ≠ OutOfFuel ∧ keys (c w).1 = keys w) → safe n c.
Proof. intros H w _. destruct (H w) as [? ->]. by split. Qed.

Lemma safe_bind {A B} n (c : M A) (k : A → M B) :
  safe n c → (∀ a, safe n (k a)) → safe n (bind c k).
Proof.
  intros Hc Hk w Hw. destruct (Hc w Hw) as [Hr Hl]. unfold bind.
  destruct (c w) as [w1 [a|e| |]] eqn:E; cbn in *; try done.
  destruct (Hk a w1) as [Hr' Hl']; [lia|]. split; [done|lia].
Qed.

Lemma safe_ret {A} n (a : A) : safe n (ret a).
Proof. by apply safe_simple. Qed.

Lemma safe_raise {A} n e : safe n (@raise A e).
Proof. by apply safe_simple. Qed.

Lemma safe_blocked {A} n : safe n (@blocked A).
Proof. by apply safe_simple. Qed.

Lemma safe_get n : safe n get.
Proof. by apply safe_simple. Qed.

Lemma safe_not_none {A} n (o : option A) : safe n (not_none o).
Proof. destruct o; by apply safe_simple. Qed.

Lemma safe_getitem {A} n (l : list A) i : safe n (getitem l i).
Proof. unfold getitem. destruct (py_getitem l i); by apply safe_simple. Qed.

Lemma safe_py_ord n s : safe n (py_ord s).
Proof. unfold py_ord. destruct (ord s); by apply safe_simple. Qed.

Lemma safe_the_menu n m : safe n (the_menu m).
Proof.
  apply safe_simple. intros w. unfold_prims. by destruct (menus w !! m).
Qed.

Lemma safe_the_item n i : safe n (the_item i).
Proof.
  apply safe_simple. intros w. unfold_prims. by destruct (objs w !! i).
Qed.

Lemma safe_modify n f : (∀ w, keys (f w) = keys w) → safe n (modify f).
Proof. intros H. apply safe_simple. intros w. cbn. by rewrite H. Qed.

Lemma safe_emit n c : safe n (emit c).
Proof. by apply safe_modify. Qed.

Lemma safe_update_menu n m f : safe n (update_menu m f).
Proof.
  apply safe_simple. intros w. unfold_prims. by destruct (menus w !! m).
Qed.

Lemma safe_update_item n i f : safe n (update_item i f).
Proof.
  apply safe_simple. intros w. unfold_prims. by destruct (objs w !! i).
Qed.

Lemma safe_for_enumerate {A} n (body : nat → A → M unit) l :
  (∀ i x, safe n (body i x)) →
  ∀ i index, safe n (for_enumerate body i l index).
Proof.
  intros Hb. induction l as [|x l IH]; intros i index; cbn.
  - apply safe_ret.
  - apply safe_bind; [apply Hb|]. intros _. apply IH.
Qed.

Lemma safe_finally {A} n (c : M A) (h : M unit) :
  safe n c → safe n h → safe n (finally c h).
Proof.
  intros Hc Hh w Hw. unfold finally. destruct (Hc w Hw) as [Hr Hl].
  destruct (c w) as [w1 r]. cbn in *.
  destruct (Hh w1) as [Hr' Hl']; [lia|].
  destruct (h w1) as [w2 [[]|e| |]]; cbn in *; split; try done; lia.
Qed.

Lemma safe_weaken {A} n (c : M A) : safe (S n) c → safe n c.
Proof. intros H w Hw. apply H. lia. Qed.

Lemma eats_safe {A} n (c : M A) : eats n c → safe (S n) c.
Proof. intros H w Hw. destruct (H w Hw) as (? & ? & _). by split. Qed.

(** Reading a key takes it. *)
Lemma stdscr_getch_takes_key m w :
  match stdscr_getch m w with
  | (w1, Ok _) => S (length (keys w1)) = length (keys w)
  | (w1, OutOfFuel) => False
  | (w1, _) => keys w1 = keys w
  end.
Proof.
  unfold stdscr_getch. unfold_prims. cbn.
  destruct (stdscr w); cbn; [|done].
  destruct (keys w) as [|[c|y x] ks] eqn:E; cbn; by rewrite ?E.
Qed.

Lemma eats_getch {B} n m (k : Z → M B) :
  (∀ a, safe n (k a)) → eats n (bind (stdscr_getch m) k).
Proof.
  intros Hk w Hw. unfold bind.
  pose proof (stdscr_getch_takes_key m w) as Hg.
  destruct (stdscr_getch m w) as [w1 [a|e| |]]; cbn in *.
  - destruct (Hk a w1) as [Hr Hl]; [lia|].
    repeat split; [done|lia|intros; lia].
  - rewrite Hg. repeat split; [done|lia|done].
  - rewrite Hg. repeat split; [done|lia|done].
  - done.
Qed.

Lemma safe_while n (cond : M bool) (body : M unit) :
  (∀ w, (cond w).1 = w ∧ (cond w).2 ≠ OutOfFuel) →
  eats n body →
  ∀ fuel, (fuel ≤ S n)%nat → safe fuel (while fuel cond body).
Proof.
  intros Hc Hb fuel. induction fuel as [|fuel IH]; intros Hf w Hw; [lia|].
  cbn [while]. unfold bind. destruct (Hc w) as [Hw1 Hr1].
  destruct (cond w) as [w1 [b|e| |]]; cbn in *; subst;
    try (split; [done|lia]).
  destruct b; [|split; [done|cbn; lia]].
  destruct (Hb w) as (Hr & Hl & Hstrict); [lia|].
  destruct (body w) as [w2 [[]|e| |]] eqn:E; cbn in *;
    try (split; [done|lia]).
  specialize (Hstrict tt eq_refl).
  destruct (IH ltac:(lia) w2) as [Hr' Hl']; [lia|]. split; [done|lia].
Qed.

Ltac safe_step :=
  lazymatch goal with
  | |- safe _ (bind _ _) => apply safe_bind; [|intros ?]
  | |- safe _ (ret _) => apply safe_ret
  | |- safe _ (raise _) => apply safe_raise
  | |- safe _ blocked => apply safe_blocked
  | |- safe _ get => apply safe_get
  | |- safe _ (not_none _) => apply safe_not_none
  | |- safe _ (getitem _ _) => apply safe_getitem
  | |- safe _ (py_ord _) => apply safe_py_ord
  | |- safe _ (the_menu _) => apply safe_the_menu
  | |- safe _ (the_item _) => apply safe_the_item
  | |- safe _ (emit _) => apply safe_emit
  | |- safe _ (modify _) => apply safe_modify; done
  | |- safe _ (update_menu _ _) => apply safe_update_menu
  | |- safe _ (update_item _ _) => apply safe_update_item
  | |- safe _ (finally _ _) => apply safe_finally
  | |- safe _ (for_enumerate _ _ _ _) =>
      apply safe_for_enumerate; intros ? ?
  | |- safe _ (match ?x with _ => _ end) => destruct x
  end.

Section Fuel.
Context (__version__ : string).

Lemma safe_draw n self : safe n (draw __version__ self).
Proof.
  unfold draw, draw_row, show, ExitItem.show, MenuItem.show, screen_border,
    screen_addstr, screen_refresh, the_screen, stdscr_getmaxyx.
  repeat safe_step.
Qed.

Lemma safe_clear_screen n m : safe n (clear_screen m).
Proof.
  unfold clear_screen, screen_clear, stdscr_erase, stdscr_refresh,
    the_screen.
  repeat safe_step.
Qed.

Lemma safe_set_up n i : safe n (set_up i).
Proof.
  unfold set_up, SubmenuItem.set_up, ExternalItem.set_up, MenuItem.set_up,
    clear_terminal.
  repeat first [apply safe_clear_screen | safe_step].
Qed.

Lemma safe_clean_up n i : safe n (clean_up i).
Proof.
  unfold clean_up, SubmenuItem.clean_up, ExternalItem.clean_up,
    MenuItem.clean_up, curses_curs_set.
  repeat first [apply safe_clear_screen | safe_step].
Qed.

Lemma safe_get_return n i : safe n (get_return i).
Proof.
  unfold get_return, SubmenuItem.get_return, MenuItem.get_return.
  repeat safe_step.
Qed.

Section Nested.
Context (n : nat) (nested : menu_id → option window → M unit).
Hypothesis nested_safe : ∀ m scr, safe n (nested m scr).

Lemma safe_start t show_exit : safe n (start nested t show_exit).
Proof.
  unfold start, _wrap_start, curses_wrapper, add_exit, remove_exit,
    clear_terminal.
  repeat first
    [apply nested_safe | apply safe_clear_screen | safe_step].
Qed.

Lemma safe_action i : safe n (action nested i).
Proof.
  unfold action, SubmenuItem_action, QuickConnect.action, MenuItem.action,
    raw_input, subprocess_run.
  repeat first [apply safe_start | safe_step].
Qed.

Lemma safe_select m : safe n (select __version__ nested m).
Proof.
  unfold select, on_selected_item, selected_item.
  repeat first
    [ apply safe_draw | apply safe_set_up | apply safe_clean_up
    | apply safe_get_return | apply safe_action | safe_step ].
Qed.

Lemma eats_process_user_input m :
  eats n (process_user_input __version__ nested m ;; ret tt).
Proof.
  intros w Hw. unfold process_user_input, get_input.
  rewrite bind_assoc. apply (eats_getch n m); [|done].
  intros a. unfold go_to, go_down, go_up.
  repeat first
    [ apply nested_safe | apply safe_draw | apply safe_select
    | safe_step ].
Qed.
End Nested.

Lemma safe_main_loop fuel : ∀ m scr,
  safe fuel (_main_loop __version__ fuel m scr).
Proof.
  induction fuel as [|fuel IH]; intros m scr.
  - intros w Hw. lia.
  - cbn [_main_loop].
    unfold curses_newpad, _set_up_colors, curses_curs_set, stdscr_refresh,
      stdscr_getmaxyx.
    repeat first
      [ apply safe_draw
      | lazymatch goal with
        | |- safe _ (while _ _ _) =>
            apply (safe_while fuel); [| |done]
        end
      | safe_step ].
    + intros w. unfold_prims. by destruct (menus w !! m).
    + by apply eats_process_user_input.
Qed.

(** With more fuel than keys pending, a run loop is never cut off: it
    returns, raises, or waits for a key that does not come. *)
Theorem fuel_suffices (fuel : nat) (m : menu_id) (scr : option window)
    (w : World) :
  (length (keys w) < fuel)%nat →
  result_of (_main_loop __version__ fuel m scr) w ≠ OutOfFuel.
Proof. intros Hw. by apply safe_main_loop. Qed.

End Fuel.

Section Descent.
Context (__version__ : string).

End Descent.

(** ** The claims on the sample runs *)

(** C1: starting a menu without items draws the border, the title and the
    subtitle and then fails in [draw], and the exit item is not put in the
    list. *)
Theorem start_of_empty_menu_raises :
  result_of start_empty_menu (boot [Key 10]) = Raise UnboundLocalError
  ∧ trace (world_after start_empty_menu (boot [Key 10]))
    = [Initscr; Newpad 0 6 80; Init_pair 1 0 7; Curs_set 0; Stdscr_refresh;
       Border 0; Addstr 0 2 2 "Search Results" A_UNDERLINE;
       Addstr 0 4 2 "Select a device..." A_BOLD; Endwin]
  ∧ items <$> menus (world_after start_empty_menu (boot [Key 10])) !! 0%nat
    = Some [].
Proof. vm_compute. repeat split. Qed.

(** C2: in a menu without items [go_up] moves the cursor from 0 to -1, and
    [go_up] and [go_down] both raise. *)
Theorem go_up_in_empty_menu_moves_cursor :
  current_option <$> menus (world_after go_up_in_empty_menu (boot [])) !! 0%nat
  = Some (-1)
  ∧ items <$> menus (world_after go_up_in_empty_menu (boot [])) !! 0%nat
    = Some []
  ∧ result_of go_up_in_empty_menu (boot []) = Raise AttributeError
  ∧ result_of go_down_in_empty_menu (boot []) = Raise AttributeError.
Proof. vm_compute. repeat split. Qed.

(** C3, as stated: with the exit option enabled the exit item is in the list
    after any appends.  It fails on a menu that has not been started. *)
Lemma append_before_start_adds_no_exit :
  ¬ ∀ (w : World) (self : menu_id) (J : Jumpbox) (l : list item_id),
      menus w !! self = Some J →
      show_exit_option J = true →
      Forall (λ i, is_Some (objs w !! i)) l →
      ∃ J',
        menus (world_after (append_items sample_version self l) w) !! self
        = Some J'
        ∧ items J' !! (length (items J') - 1)%nat = Some (exit_item J')
        ∧ length (filter (λ i, i = exit_item J') (items J')) = 1%nat.
Proof.
  intros H.
  destruct (H built 1%nat sites_menu_built [4%nat])
    as (J' & HJ' & Hlast & _).
  - reflexivity.
  - reflexivity.
  - repeat constructor. by eexists.
  - vm_compute in HJ'. injection HJ' as <-. vm_compute in Hlast. discriminate.
Qed.

(** C7, as stated: [show] returns the bare label.  It fails on the exit
    item of a menu without parent, whose row reads ["1 - Exit"]. *)
Lemma exit_item_show_is_numbered :
  ¬ ∀ (w : World) (self : item_id) (o : Item.t) (index : Z) (label : string),
      objs w !! self = Some o →
      exit_label w o = Some label →
      result_of (ExitItem.show self index) w = Ok label.
Proof.
  intros H.
  specialize (H built 0%nat (Item.mk IsExitItem "Exit" (Some 0%nat) true None None)
                0 "Exit" eq_refl eq_refl).
  vm_compute in H. discriminate.
Qed.

(** ** The theorems on the sample runs *)

Lemma selected_item_follows_cursor_witness :
  selected_item 0%nat after_selection = (after_selection, Ok (Some 3%nat))
  ∧ ∀ a, py_getitem (items main_menu_after_selection)
           (selected_option main_menu_after_selection) = Some a →
         a ≠ 3%nat →
         selected_item 0%nat after_selection ≠ (after_selection, Ok (Some a)).
Proof.
  apply (selected_item_follows_cursor after_selection 0%nat
           main_menu_after_selection 3%nat).
  - vm_compute. reflexivity.
  - discriminate.
  - simpl. lia.
  - vm_compute. reflexivity.
Defined.

Lemma append_items_keep_exit_last_witness :
  ∃ J',
    menus (world_after (append_items sample_version 0%nat [5%nat]) running)
      !! 0%nat = Some J'
    ∧ items J' !! (length (items J') - 1)%nat = Some (exit_item J')
    ∧ length (filter (λ i, i = exit_item J') (items J')) = 1%nat.
Proof.
  apply (append_items_keep_exit_last sample_version running 0%nat
           main_menu_running [5%nat]).
  - vm_compute. reflexivity.
  - exists [2%nat; 3%nat; 4%nat]. split; [reflexivity|].
    by apply (bool_decide_unpack _).
  - repeat constructor. vm_compute. eauto.
Defined.


Lemma clean_up_call_order_witness :
  ExternalItem.clean_up 3%nat running
  = (with_trace (trace running ++ [Clear 0%nat; Stdscr_erase; Stdscr_refresh;
                                   Reset_prog_mode; Curs_set 1; Curs_set 0])
       running,
     Ok tt).
Proof.
  apply (clean_up_call_order running 3%nat quick_connect_built 0%nat
           main_menu_running (10, 80) (24, 80)).
  - vm_compute. reflexivity.
  - reflexivity.
  - vm_compute. reflexivity.
  - reflexivity.
  - vm_compute. reflexivity.
Defined.


(** On that run the submenu reads both keys and returns. *)
Lemma descent_on_sample_run_returns :
  result_of (SubmenuItem_action (_main_loop sample_version 20) 2%nat)
    before_descent = Ok tt
  ∧ readers (drop (length (trace before_descent))
               (trace (world_after
                         (SubmenuItem_action (_main_loop sample_version 20) 2%nat)
                         before_descent)))
    = [1%nat; 1%nat]
  ∧ currently_active_menu before_descent = Some 0%nat.
Proof. vm_compute. repeat split. Qed.

Lemma exit_item_show_label_witness :
  ExitItem.show 1%nat 1 built
  = (with_objs
       (<[1%nat := Item.with_text "Return to Jumpbox Main menu"
                     sites_exit_item_built]> (objs built)) built,
     Ok (str (1 + 1) +:+ " - " +:+ "Return to Jumpbox Main menu"))
  ∧ ∀ stored : string,
      result_of (ExitItem.show 1%nat 1)
        (with_objs
           (<[1%nat := Item.with_text stored sites_exit_item_built]>
              (objs built)) built)
      = Ok (str (1 + 1) +:+ " - " +:+ "Return to Jumpbox Main menu").
Proof.
  apply (exit_item_show_label built 1%nat sites_exit_item_built 1
           "Return to Jumpbox Main menu").
  - vm_compute. reflexivity.
  - vm_compute. reflexivity.
Defined.

Lemma digit_key_moves_cursor_witness :
  (1 ≤ 2 ≤ Z.min 9 (Z.of_nat (length (items main_menu_running))) →
   ∃ J', menus (world_after
                  (process_user_input sample_version
                     (_main_loop sample_version 5) 0%nat)
                  (with_keys [Key (48 + 2)] running)) !! 0%nat
         = Some J'
         ∧ current_option J' = 2 - 1 ∧ items J' = items main_menu_running)
  ∧ (¬ 1 ≤ 2 ≤ Z.min 9 (Z.of_nat (length (items main_menu_running))) →
     process_user_input sample_version (_main_loop sample_version 5) 0%nat
       (with_keys [Key (48 + 2)] running)
     = (with_keys []
          (with_trace (trace (with_keys [Key (48 + 2)] running) ++ [Getch 0%nat])
             (with_keys [Key (48 + 2)] running)),
        Ok (48 + 2))).
Proof.
  apply (digit_key_moves_cursor sample_version (_main_loop sample_version 5)
           (with_keys [Key (48 + 2)] running) 0%nat main_menu_running
           (24, 80) 2 []).
  - vm_compute. reflexivity.
  - vm_compute. reflexivity.
  - reflexivity.
  - lia.
Defined.

Lemma go_up_undoes_go_down_witness :
  ∃ J',
    menus (world_after (go_up sample_version 0%nat)
             (world_after (go_down sample_version 0%nat) running)) !! 0%nat
    = Some J'
    ∧ current_option J' = current_option main_menu_running
    ∧ items J' = items main_menu_running.
Proof.
  apply (go_up_undoes_go_down sample_version running 0%nat main_menu_running).
  - vm_compute. reflexivity.
  - discriminate.
  - simpl. lia.
Defined.

(** ** The exit entry and the list of items *)

Lemma with_items_same J : with_items (items J) J = J.
Proof. by destruct J. Qed.


Lemma last_snoc_inv {A} (l : list A) :
  l ≠ [] → ∃ l' x, l = l' ++ [x] ∧ last l = Some x.
Proof.
  intros Hl. destruct (exists_last Hl) as (l' & x & ->).
  exists l', x. by rewrite last_snoc.
Qed.

(** [add_exit] returns, whatever the list is. *)
Lemma add_exit_run w self J :
  menus w !! self = Some J →
  add_exit self w
  = if decide (items J = [] ∨ last (items J) = Some (exit_item J))
    then (w, Ok false)
    else (with_menus
            (<[self := with_items (items J ++ [exit_item J]) J]> (menus w)) w,
          Ok true).
Proof.
  intros HJ. destruct (decide (items J = [])) as [Hi|Hi].
  - rewrite decide_True by tauto. by eapply add_exit_of_empty_menu.
  - destruct (last_snoc_inv _ Hi) as (l & x & Hl & Hx).
    rewrite (add_exit_after w self J l x HJ Hl), Hx.
    destruct (decide (x = exit_item J)) as [->|Hne].
    + rewrite decide_True; [done|by right].
    + rewrite decide_False.
      * by rewrite Hl, <- app_assoc.
      * intros [?|[=]]; done.
Qed.

(** [remove_exit] returns, whatever the list is. *)
Lemma remove_exit_run w self J :
  menus w !! self = Some J →
  remove_exit self w
  = match last (items J) with
    | Some x =>
        if decide (x = exit_item J)
        then (with_menus
                (<[self := with_items (removelast (items J)) J]> (menus w)) w,
              Ok true)
        else (w, Ok false)
    | None => (w, Ok false)
    end.
Proof.
  intros HJ. destruct (decide (items J = [])) as [Hi|Hi].
  - unfold remove_exit. rewrite (bind_ok _ _ _ _ _ (the_menu_ok w self J HJ)).
    by rewrite Hi.
  - destruct (last_snoc_inv _ Hi) as (l & x & Hl & Hx). rewrite Hx.
    destruct (decide (x = exit_item J)) as [->|Hne].
    + rewrite (remove_exit_last w self J l HJ Hl).
      by rewrite Hl, removelast_last.
    + unfold remove_exit.
      rewrite (bind_ok _ _ _ _ _ (the_menu_ok w self J HJ)).
      rewrite Hl. destruct (l ++ [x]) as [|y l'] eqn:E; [by destruct l|].
      rewrite <- E. unfold getitem. rewrite py_getitem_last. cbn [bind ret].
      by rewrite decide_False.
Qed.

Section ExitEntry.
Context (__version__ : string).

(** X1: on a list that is not empty and does not end with the exit
    item, [add_exit] followed by [remove_exit] both return [True] and
    leave everything as it was. *)
Theorem add_exit_then_remove_exit (w : World) (self : menu_id)
    (J : Jumpbox) :
  menus w !! self = Some J →
  items J ≠ [] →
  last (items J) ≠ Some (exit_item J) →
  (do added <- add_exit self;
   do removed <- remove_exit self;
   ret (added, removed)) w
  = (w, Ok (true, true)).
Proof.
  intros HJ Hne Hlast.
  unfold bind at 1. rewrite (add_exit_run w self J HJ).
  rewrite decide_False by tauto.
  unfold bind at 1.
  erewrite remove_exit_run; [|apply lookup_insert_eq].
  cbn [items with_items exit_item]. rewrite last_snoc.
  rewrite decide_True by done. cbn [bind ret menus with_menus].
  rewrite removelast_last, insert_insert_eq.
  replace (with_items (items J) _) with J by by destruct J.
  unfold ret. f_equal. rewrite insert_id by done. by destruct w.
Qed.

(** X2: [add_exit] called again right after [add_exit] returns [False]
    and changes nothing: the exit item is never appended twice. *)
Theorem add_exit_twice (w : World) (self : menu_id) (J : Jumpbox) :
  menus w !! self = Some J →
  (add_exit self ;; add_exit self) w
  = (world_after (add_exit self) w, Ok false).
Proof.
  intros HJ. unfold world_after.
  unfold bind. rewrite (add_exit_run w self J HJ).
  destruct (decide _) as [Hd|Hd]; cbn [fst].
  - rewrite (add_exit_run w self J HJ). by rewrite decide_True.
  - erewrite add_exit_run; [|apply lookup_insert_eq].
    cbn [items with_items exit_item]. rewrite last_snoc.
    rewrite decide_True; [done|by right].
Qed.

(** X3: [reset_menu] empties the list and changes nothing else; after
    it the menu has neither a current nor a selected item, although the
    cursor and the selected index keep the values they had, and
    [add_exit] adds nothing to the empty list. *)
Theorem reset_menu_clears_items (w : World) (self : menu_id)
    (J : Jumpbox) :
  menus w !! self = Some J →
  let w' := with_menus (<[self := with_items [] J]> (menus w)) w in
  reset_menu self w = (w', Ok tt)
  ∧ current_item self w' = (w', Ok None)
  ∧ selected_item self w' = (w', Ok None)
  ∧ add_exit self w' = (w', Ok false).
Proof.
  intros HJ w'. split; [|split; [|split]].
  - unfold reset_menu. by rewrite (update_menu_ok w self J _ HJ).
  - unfold current_item.
    by rewrite (bind_ok _ _ _ _ _
                  (the_menu_ok w' self _ (lookup_insert_eq _ _ _))).
  - unfold selected_item.
    by rewrite (bind_ok _ _ _ _ _
                  (the_menu_ok w' self _ (lookup_insert_eq _ _ _))).
  - by eapply add_exit_of_empty_menu; [apply lookup_insert_eq|].
Qed.

(** [append_item] on a menu that has no pad and whose list does not
    end with the exit item. *)
Lemma append_item_unstarted w self J item o :
  menus w !! self = Some J → screen J = None →
  last (items J) ≠ Some (exit_item J) → objs w !! item = Some o →
  append_item __version__ self item w
  = (with_menus (<[self := with_items (items J ++ [item]) J]> (menus w))
       (with_objs (<[item := Item.with_menu (Some self) o]> (objs w)) w),
     Ok tt).
Proof.
  intros HJ Hs Hlast Ho. unfold append_item.
  unfold bind at 1. rewrite (remove_exit_run w self J HJ).
  destruct (last (items J)) as [x|] eqn:Hx.
  - rewrite decide_False by congruence.
    erewrite bind_ok; [|by apply update_item_ok].
    erewrite bind_ok; [|by apply the_menu_ok].
    erewrite bind_ok; [|by apply update_menu_ok].
    cbn [bind ret].
    erewrite bind_ok; [|apply the_menu_ok; apply lookup_insert_eq].
    cbn [screen with_items]. by rewrite Hs.
  - erewrite bind_ok; [|by apply update_item_ok].
    erewrite bind_ok; [|by apply the_menu_ok].
    erewrite bind_ok; [|by apply update_menu_ok].
    cbn [bind ret].
    erewrite bind_ok; [|apply the_menu_ok; apply lookup_insert_eq].
    cbn [screen with_items]. by rewrite Hs.
Qed.

(** X4: on a menu that has no pad yet and whose list does not end with
    the exit item (any menu before [start]), [append_item] puts the item
    at the end of the list, makes the menu the owner of the item, adds no
    exit entry and makes no call to [curses]. *)
Theorem append_item_before_start (w : World) (self : menu_id)
    (J : Jumpbox) (item : item_id) (o : Item.t) :
  menus w !! self = Some J →
  screen J = None →
  last (items J) ≠ Some (exit_item J) →
  objs w !! item = Some o →
  append_item __version__ self item w
  = (with_menus (<[self := with_items (items J ++ [item]) J]> (menus w))
       (with_objs (<[item := Item.with_menu (Some self) o]> (objs w)) w),
     Ok tt).
Proof. apply append_item_unstarted. Qed.
End ExitEntry.

(** ** Drawing again and again *)


Section Redraw.
Context (__version__ : string).






(** The second half of [append_item], on a menu that has a pad. *)
Lemma redraw_after_append_fits w self J pad :
  menus w !! self = Some J → screen J = Some pad →
  ∃ J',
    menus
      ((do J <- the_menu self;
        match screen J with
        | Some _ =>
            do yx <- screen_getmaxyx self;
            update_menu self (with_term yx.1 yx.2) ;;
            do J <- the_menu self;
            (if decide (term_y J < 6 + Z.of_nat (length (items J)))
             then screen_resize self (Z.of_nat (length (items J)) + 6)
                    (term_x J)
             else ret tt) ;;
            draw __version__ self
        | None => ret tt
        end) w).1 !! self = Some J'
    ∧ pad_fits J' ∧ items J' = items J.
Proof.
  intros HJ Hp. destruct pad as [rows cols].
  rewrite (bind_ok _ _ _ _ _ (the_menu_ok w self J HJ)). rewrite Hp.
  unfold screen_getmaxyx.
  rewrite (bind_ok _ _ _ _ _ (the_screen_ok w self J _ HJ Hp)).
  rewrite (bind_ok _ _ _ _ _ (update_menu_ok w self J _ HJ)).
  erewrite bind_ok; [|apply the_menu_ok; apply lookup_insert_eq].
  cbn [term_y term_x with_term items fst snd].
  set (w1 := with_menus _ w).
  assert (∃ w2 J2,
            (if decide (rows < 6 + Z.of_nat (length (items J)))
             then screen_resize self
                    (Z.of_nat (length (items J)) + 6) cols
             else ret tt) w1 = (w2, Ok tt)
            ∧ menus w2 !! self = Some J2
            ∧ pad_fits J2 ∧ items J2 = items J)
    as (w2 & J2 & E & HJ2 & Hf & Hi).
  { destruct (decide _) as [Hlt|Hge].
    - eexists _, _. split.
      + unfold screen_resize.
        erewrite bind_ok;
          [|eapply the_screen_ok; [apply lookup_insert_eq|exact Hp]].
        erewrite bind_ok; [|apply update_menu_ok; apply lookup_insert_eq].
        reflexivity.
      + cbn. rewrite lookup_insert_eq. split; [done|]. split; [|done].
        eexists _, _. split; [done|]. cbn. lia.
    - exists w1, (with_term rows cols J). split; [done|].
      split; [apply lookup_insert_eq|]. split; [|done].
      exists rows, cols. split; [done|]. cbn. lia. }
  rewrite (bind_ok _ _ _ _ _ E).
  destruct (paints_lookup self w2 (draw __version__ self w2).1 self J2)
    as (J' & HJ' & Hcore); [apply paints_draw|done|].
  exists J'. split; [done|].
  apply menu_core_fields in Hcore as (Hi' & _ & _ & _ & Hs' & _).
  split; [|congruence]. destruct Hf as (r & c & Hsc & Hr).
  exists r, c. rewrite Hs', Hi'. done.
Qed.

(** X5: on a menu that has a pad, [append_item] leaves a pad with room
    for all rows of the longer list, and the item is in the list. *)
Theorem append_item_pad_fits (w : World) (self : menu_id) (J : Jumpbox)
    (pad : window) (item : item_id) (o : Item.t) :
  menus w !! self = Some J →
  screen J = Some pad →
  objs w !! item = Some o →
  ∃ J',
    menus (world_after (append_item __version__ self item) w) !! self
    = Some J'
    ∧ pad_fits J'
    ∧ item ∈ items J'.
Proof.
  intros HJ Hp Ho. unfold world_after, append_item.
  unfold bind at 1. rewrite (remove_exit_run w self J HJ).
  destruct (last (items J)) as [x|] eqn:Hx;
    [destruct (decide (x = exit_item J)) as [->|Hne]|].
  - erewrite bind_ok; [|by apply update_item_ok].
    erewrite bind_ok; [|apply the_menu_ok; apply lookup_insert_eq].
    erewrite bind_ok; [|apply update_menu_ok; apply lookup_insert_eq].
    cbn [items with_items menus with_menus with_objs].
    rewrite insert_insert_eq.
    set (J1 := with_items (removelast (items J) ++ [item]) _).
    set (w1 := with_menus _ _).
    assert (HJ1 : menus w1 !! self = Some J1) by apply lookup_insert_eq.
    unfold bind at 1. unfold bind at 1.
    rewrite (add_exit_run w1 self J1 HJ1).
    destruct (decide _) as [Hd|Hd]; cbn [ret].
    + destruct (redraw_after_append_fits w1 self J1 pad HJ1 Hp)
        as (J' & HJ' & Hf & Hi).
      exists J'. split; [done|]. split; [done|]. rewrite Hi. cbn.
      apply elem_of_app. right. by apply list_elem_of_singleton.
    + edestruct (redraw_after_append_fits
                   (with_menus
                      (<[self := with_items (items J1 ++ [exit_item J1]) J1]>
                         (menus w1)) w1) self) as (J' & HJ' & Hf & Hi).
      { apply lookup_insert_eq. }
      { exact Hp. }
      exists J'. split; [done|]. split; [done|]. rewrite Hi. cbn.
      rewrite !elem_of_app, !list_elem_of_singleton. tauto.
  - erewrite bind_ok; [|by apply update_item_ok].
    erewrite bind_ok; [|by apply the_menu_ok].
    erewrite bind_ok; [|by apply update_menu_ok].
    cbn [bind ret].
    edestruct (redraw_after_append_fits
                 (with_menus
                    (<[self := with_items (items J ++ [item]) J]> (menus w))
                    (with_objs
                       (<[item := Item.with_menu (Some self) o]> (objs w))
                       w)) self) as (J' & HJ' & Hf & Hi).
    { apply lookup_insert_eq. }
    { exact Hp. }
    exists J'. split; [done|]. split; [done|]. rewrite Hi. cbn.
    rewrite !elem_of_app, !list_elem_of_singleton. tauto.
  - erewrite bind_ok; [|by apply update_item_ok].
    erewrite bind_ok; [|by apply the_menu_ok].
    erewrite bind_ok; [|by apply update_menu_ok].
    cbn [bind ret].
    edestruct (redraw_after_append_fits
                 (with_menus
                    (<[self := with_items (items J ++ [item]) J]> (menus w))
                    (with_objs
                       (<[item := Item.with_menu (Some self) o]> (objs w))
                       w)) self) as (J' & HJ' & Hf & Hi).
    { apply lookup_insert_eq. }
    { exact Hp. }
    exists J'. split; [done|]. split; [done|]. rewrite Hi. cbn.
    rewrite !elem_of_app, !list_elem_of_singleton. tauto.
Qed.
End Redraw.

(** ** Keys and selections *)

Lemma py_getitem_nonempty {A} (l : list A) i x :
  py_getitem l i = Some x → l ≠ [].
Proof. intros H ->. unfold py_getitem in H. by repeat destruct (decide _). Qed.



Section Keys.
Context (__version__ : string).
Context (nested : menu_id → option window → M unit).

(** What [process_user_input] does with the key code [c] that
    [getch] returned. *)
Lemma process_input w w1 self J c :
  stdscr_getch self w = (w1, Ok c) → menus w1 !! self = Some J →
  let N := Z.of_nat (length (items J)) in
  process_user_input __version__ nested self w
  = ((if decide (49 ≤ c ≤ 48 + Z.min 9 N)
      then go_to __version__ self (c - 48 - 1)
      else if decide (c = KEY_DOWN) then go_down __version__ self
      else if decide (c = KEY_UP) then go_up __version__ self
      else if decide (c = KEY_RIGHT) then select __version__ nested self
      else if decide (c = KEY_LEFT)
      then update_menu self (with_current_option (N - 1)) ;;
           select __version__ nested self
      else if decide (c = KEY_RESIZE)
      then update_menu self (with_running false) ;; nested self None
      else if decide (c = 10) then select __version__ nested self
      else ret tt) ;;
     ret c) w1.
Proof.
  intros Hg HJ N.
  assert (Hmax : (if decide (N >= 9) then py_ord "9" else py_ord (str N)) w1
                 = (w1, Ok (48 + Z.min 9 N))).
  { destruct (decide _) as [H9|H9].
    - rewrite Z.min_l by lia. done.
    - rewrite Z.min_r by lia. unfold py_ord.
      rewrite ord_str_digit by lia. done. }
  unfold process_user_input, get_input.
  rewrite (bind_ok _ _ _ _ _ Hg).
  rewrite (bind_ok _ _ _ _ _ (the_menu_ok w1 self J HJ)).
  fold N. rewrite (bind_ok _ _ _ _ _ Hmax).
  rewrite (bind_ok _ _ w1 w1 49 eq_refl).
  rewrite (bind_ok _ _ w1 w1 48 eq_refl).
  rewrite (bind_ok _ _ w1 w1 10 eq_refl).
  done.
Qed.

Lemma process_key w self J scr c ks :
  menus w !! self = Some J → stdscr w = Some scr → keys w = Key c :: ks →
  let N := Z.of_nat (length (items J)) in
  process_user_input __version__ nested self w
  = ((if decide (49 ≤ c ≤ 48 + Z.min 9 N)
      then go_to __version__ self (c - 48 - 1)
      else if decide (c = KEY_DOWN) then go_down __version__ self
      else if decide (c = KEY_UP) then go_up __version__ self
      else if decide (c = KEY_RIGHT) then select __version__ nested self
      else if decide (c = KEY_LEFT)
      then update_menu self (with_current_option (N - 1)) ;;
           select __version__ nested self
      else if decide (c = KEY_RESIZE)
      then update_menu self (with_running false) ;; nested self None
      else if decide (c = 10) then select __version__ nested self
      else ret tt) ;;
     ret c)
      (with_keys ks (with_trace (trace w ++ [Getch self]) w)).
Proof.
  intros HJ Hs Hk N.
  by apply process_input; [apply (stdscr_getch_key w self scr)|].
Qed.

(** X9: a key that is neither a digit of the list, an arrow, ENTER nor a
    resize is read and ignored: nothing changes but the key being
    consumed and the read being logged. *)
Theorem unbound_key_is_ignored (w : World) (self : menu_id) (J : Jumpbox)
    (scr : window) (c : Z) (ks : list input) :
  menus w !! self = Some J →
  stdscr w = Some scr →
  keys w = Key c :: ks →
  ¬ (49 ≤ c ≤ 48 + Z.min 9 (Z.of_nat (length (items J)))) →
  c ∉ [KEY_DOWN; KEY_UP; KEY_RIGHT; KEY_LEFT; KEY_RESIZE; 10] →
  process_user_input __version__ nested self w
  = (with_keys ks (with_trace (trace w ++ [Getch self]) w), Ok c).
Proof.
  intros HJ Hs Hk Hd Hc. rewrite (process_key w self J scr c ks HJ Hs Hk).
  rewrite decide_False by done.
  repeat (rewrite decide_False by (intros ->; apply Hc; set_solver)).
  done.
Qed.

(** The methods of an item that is a plain [MenuItem] or an [ExitItem]. *)
Lemma plain_item_methods w i o m Jm :
  objs w !! i = Some o →
  Item.class o = IsMenuItem ∨ Item.class o = IsExitItem →
  Item.menu o = Some m → menus w !! m = Some Jm →
  set_up i w = (w, Ok tt) ∧ action nested i w = (w, Ok tt)
  ∧ clean_up i w = (w, Ok tt)
  ∧ get_return i w = (w, Ok (returned_value Jm)).
Proof.
  intros Ho Hc Hm HJ.
  unfold set_up, action, clean_up, get_return, MenuItem.get_return.
  rewrite !(bind_ok _ _ _ _ _ (the_item_ok w i o Ho)).
  destruct Hc as [-> | ->]; repeat split; try done;
    rewrite (bind_ok _ _ _ _ _ (the_item_ok w i o Ho)), Hm; cbn [not_none];
    rewrite (bind_ok _ _ w w m eq_refl);
    by rewrite (bind_ok _ _ _ _ _ (the_menu_ok w m Jm HJ)).
Qed.

(** [select] with the cursor on a plain item or an exit item of this
    menu that makes the menu exit. *)
Lemma select_leaves w self J i o :
  menus w !! self = Some J →
  current_option J ≠ -1 →
  py_getitem (items J) (current_option J) = Some i →
  objs w !! i = Some o →
  Item.class o = IsMenuItem ∨ Item.class o = IsExitItem →
  Item.menu o = Some self →
  Item.should_exit o = true →
  select __version__ nested self w
  = (with_menus
       (<[self := with_should_exit true
                    (with_returned_value (returned_value J)
                       (with_selected_option (current_option J) J))]>
          (menus w)) w,
     Ok tt).
Proof.
  intros HJ Hc Hi Ho Hcl Hm Hex. unfold select.
  rewrite (bind_ok _ _ _ _ _ (the_menu_ok w self J HJ)).
  rewrite (bind_ok _ _ _ _ _ (update_menu_ok w self J _ HJ)).
  set (J1 := with_selected_option (current_option J) J).
  set (w1 := with_menus (<[self := J1]> (menus w)) w).
  assert (HJ1 : menus w1 !! self = Some J1) by apply lookup_insert_eq.
  assert (Hsel : ∀ A (method : item_id → M A),
             on_selected_item self method w1 = method i w1).
  { intros A method. apply (on_selected_item_eq method w1 self J1 i HJ1).
    - by eapply py_getitem_nonempty.
    - done.
    - done. }
  destruct (plain_item_methods w1 i o self J1 Ho Hcl Hm HJ1)
    as (Es & Ea & Ec & Er).
  unfold bind at 1. rewrite Hsel, Es.
  unfold bind at 1. rewrite Hsel, Ea.
  unfold bind at 1. rewrite Hsel, Ec.
  unfold bind at 1. rewrite Hsel, Er.
  rewrite (bind_ok _ _ _ _ _ (update_menu_ok w1 self J1 _ HJ1)).
  set (J2 := with_returned_value (returned_value J1) J1).
  set (w2 := with_menus (<[self := J2]> (menus w1)) w1).
  assert (HJ2 : menus w2 !! self = Some J2) by apply lookup_insert_eq.
  unfold bind at 1.
  rewrite (on_selected_item_eq _ w2 self J2 i HJ2);
    [|by eapply py_getitem_nonempty|done|done].
  rewrite (bind_ok _ _ _ _ _ (the_item_ok w2 i o Ho)). cbn [ret].
  rewrite Hex.
  rewrite (bind_ok _ _ _ _ _ (update_menu_ok w2 self J2 _ HJ2)).
  erewrite bind_ok; [|apply the_menu_ok; apply lookup_insert_eq].
  cbn [should_exit with_should_exit]. unfold ret. f_equal.
  unfold w2, w1. cbn. by rewrite !insert_insert_eq.
Qed.

(** X7: selecting an exit entry of this menu (or a plain item that has
    [should_exit] set) records the selection and sets [should_exit]; the
    menu is not drawn again and no call is made to [curses]. *)
Theorem select_exit_entry (w : World) (self : menu_id) (J : Jumpbox)
    (i : item_id) (o : Item.t) :
  menus w !! self = Some J →
  0 ≤ current_option J →
  py_getitem (items J) (current_option J) = Some i →
  objs w !! i = Some o →
  Item.class o = IsMenuItem ∨ Item.class o = IsExitItem →
  Item.menu o = Some self →
  Item.should_exit o = true →
  ∃ w' J',
    select __version__ nested self w = (w', Ok tt)
    ∧ menus w' !! self = Some J'
    ∧ should_exit J' = true
    ∧ selected_option J' = current_option J
    ∧ current_option J' = current_option J
    ∧ items J' = items J
    ∧ trace w' = trace w
    ∧ keys w' = keys w.
Proof.
  intros HJ Hc Hi Ho Hcl Hm Hex.
  eexists _, _. split.
  - apply (select_leaves w self J i o); try done. lia.
  - cbn. by rewrite lookup_insert_eq.
Qed.

(** The LEFT key, when the last entry is an exit entry of this menu. *)
Lemma left_key_run w self J scr ks e o :
  menus w !! self = Some J → stdscr w = Some scr →
  keys w = Key KEY_LEFT :: ks → last (items J) = Some e →
  objs w !! e = Some o → Item.class o = IsExitItem →
  Item.menu o = Some self → Item.should_exit o = true →
  let N := Z.of_nat (length (items J)) in
  process_user_input __version__ nested self w
  = (with_menus
       (<[self := with_should_exit true
                    (with_returned_value (returned_value J)
                       (with_selected_option (N - 1)
                          (with_current_option (N - 1) J)))]> (menus w))
       (with_keys ks (with_trace (trace w ++ [Getch self]) w)),
     Ok KEY_LEFT).
Proof.
  intros HJ Hs Hk Hl Ho Hc Hm Hex N.
  rewrite (process_key w self J scr _ ks HJ Hs Hk).
  unfold KEY_LEFT, KEY_DOWN, KEY_UP, KEY_RIGHT.
  rewrite decide_False by lia.
  rewrite !(decide_False (P := 260 = _)) by done.
  rewrite decide_True by done.
  set (w1 := with_keys ks (with_trace (trace w ++ [Getch self]) w)).
  fold N.
  set (J1 := with_current_option (N - 1) J).
  set (w2 := with_menus (<[self := J1]> (menus w1)) w1).
  assert (Hne : items J ≠ []) by (intros E; by rewrite E in Hl).
  destruct (last_snoc_inv _ Hne) as (l & x & El & Ex).
  assert (x = e) as -> by congruence.
  assert (HN : N = Z.of_nat (length l) + 1).
  { unfold N. rewrite El, length_app. cbn. lia. }
  erewrite bind_ok.
  2:{ rewrite (bind_ok _ _ _ _ _ (update_menu_ok w1 self J _ HJ)).
      apply (select_leaves w2 self J1 e o);
        [apply lookup_insert_eq|cbn; lia| |done|by right|done|done].
      cbn. rewrite py_getitem_in_range by (fold N; lia).
      rewrite El. replace (Z.to_nat (N - 1)) with (length l) by lia.
      by apply list_lookup_middle. }
  unfold ret. f_equal. unfold w2. cbn. by rewrite insert_insert_eq.
Qed.

(** X8: when the last entry of the list is an exit entry of this menu,
    the LEFT key moves the cursor to it and selects it: the menu is set
    to exit, and nothing is drawn. *)
Theorem left_key_leaves_menu (w : World) (self : menu_id) (J : Jumpbox)
    (scr : window) (ks : list input) (e : item_id) (o : Item.t) :
  menus w !! self = Some J →
  stdscr w = Some scr →
  keys w = Key KEY_LEFT :: ks →
  last (items J) = Some e →
  objs w !! e = Some o →
  Item.class o = IsExitItem →
  Item.menu o = Some self →
  Item.should_exit o = true →
  ∃ w' J',
    process_user_input __version__ nested self w = (w', Ok KEY_LEFT)
    ∧ menus w' !! self = Some J'
    ∧ should_exit J' = true
    ∧ current_option J' = Z.of_nat (length (items J)) - 1
    ∧ selected_option J' = Z.of_nat (length (items J)) - 1
    ∧ trace w' = trace w ++ [Getch self]
    ∧ keys w' = ks.
Proof.
  intros HJ Hs Hk Hl Ho Hc Hm Hex.
  rewrite (left_key_run w self J scr ks e o HJ Hs Hk Hl Ho Hc Hm Hex).
  eexists _, _. split; [reflexivity|]. cbn.
  rewrite lookup_insert_eq. done.
Qed.

End Keys.

(** ** What a run never changes *)

Global Instance stable_preorder : PreOrder stable.
Proof.
  split.
  - intros w. by split.
  - intros w1 w2 w3 H1 H2. split.
    + intros m. by rewrite (stable_menus _ _ H2), (stable_menus _ _ H1).
    + intros i. by rewrite (stable_objs _ _ H2), (stable_objs _ _ H1).
    + etrans; [apply (stable_trace _ _ H1)|apply (stable_trace _ _ H2)].
    + etrans; [apply (stable_keys _ _ H2)|apply (stable_keys _ _ H1)].
    + etrans; [apply (stable_stdin _ _ H2)|apply (stable_stdin _ _ H1)].
    + etrans; [apply (stable_exit_codes _ _ H2)
              |apply (stable_exit_codes _ _ H1)].
    + by rewrite (stable_platform _ _ H2), (stable_platform _ _ H1).
Qed.

Lemma stable_emit c : respects stable (emit c).
Proof. intros w. split; try done. cbn. by apply prefix_app_r. Qed.

Lemma stable_modify f :
  (∀ w, menus (f w) = menus w) → (∀ w, objs (f w) = objs w) →
  (∀ w, trace (f w) = trace w) → (∀ w, keys (f w) = keys w) →
  (∀ w, stdin (f w) = stdin w) → (∀ w, exit_codes (f w) = exit_codes w) →
  (∀ w, platform_system (f w) = platform_system w) →
  respects stable (modify f).
Proof.
  intros Hm Ho Ht Hk Hi Hc Hp w. cbn.
  split; rewrite ?Hm, ?Ho, ?Ht, ?Hk, ?Hi, ?Hc, ?Hp; done.
Qed.

Lemma stable_set_menu w m J J' :
  menus w !! m = Some J → menu_frame J' = menu_frame J →
  stable w (with_menus (<[m := J']> (menus w)) w).
Proof.
  intros HJ Hf. split; try done. intros m'. cbn.
  destruct (decide (m = m')) as [<-|Hne].
  - by rewrite lookup_insert_eq, HJ; cbn; rewrite Hf.
  - by rewrite lookup_insert_ne.
Qed.

Lemma stable_set_item w i o o' :
  objs w !! i = Some o → item_frame o' = item_frame o →
  stable w (with_objs (<[i := o']> (objs w)) w).
Proof.
  intros Ho Hf. split; try done. intros j. cbn.
  destruct (decide (i = j)) as [<-|Hne].
  - by rewrite lookup_insert_eq, Ho; cbn; rewrite Hf.
  - by rewrite lookup_insert_ne.
Qed.

Lemma stable_update_menu m f :
  (∀ J, menu_frame (f J) = menu_frame J) → respects stable (update_menu m f).
Proof.
  intros Hf w. unfold_prims.
  destruct (menus w !! m) as [J|] eqn:HJ; cbn; [|reflexivity].
  by apply (stable_set_menu w m J).
Qed.

Lemma stable_update_item i f :
  (∀ o, item_frame (f o) = item_frame o) → respects stable (update_item i f).
Proof.
  intros Hf w. unfold_prims.
  destruct (objs w !! i) as [o|] eqn:Ho; cbn; [|reflexivity].
  by apply (stable_set_item w i o).
Qed.

Lemma stable_getch m : respects stable (stdscr_getch m).
Proof.
  intros w. unfold stdscr_getch. unfold_prims.
  destruct (stdscr w); cbn; [|reflexivity].
  destruct (keys w) as [|[c|y x] ks] eqn:Hk; cbn;
    (split; cbn; rewrite ?Hk;
     first [done | by apply prefix_app_r | by apply suffix_cons_r]).
Qed.

Lemma stable_raw_input prompt : respects stable (raw_input prompt).
Proof.
  intros w. unfold raw_input. unfold_prims. cbn.
  destruct (stdin w) as [|l ls] eqn:Hk; cbn;
    (split; cbn; rewrite ?Hk;
     first [done | by apply prefix_app_r | by apply suffix_cons_r]).
Qed.

Lemma stable_subprocess_run commandline :
  respects stable (subprocess_run commandline).
Proof.
  intros w. unfold subprocess_run. unfold_prims. cbn.
  destruct (exit_codes w) as [|l ls] eqn:Hk; cbn;
    (split; cbn; rewrite ?Hk;
     first [done | by apply prefix_app_r | by apply suffix_cons_r]).
Qed.

Lemma filter_other_snoc (e : item_id) (l : list item_id) :
  filter (λ i, i ≠ e) (l ++ [e]) = filter (λ i, i ≠ e) l.
Proof.
  rewrite filter_app, filter_cons_False by (intros H; by apply H).
  by rewrite app_nil_r.
Qed.

Lemma stable_add_exit m : respects stable (add_exit m).
Proof.
  intros w. destruct (menus w !! m) as [J|] eqn:HJ.
  - rewrite (add_exit_run w m J HJ). destruct (decide _); [reflexivity|].
    apply (stable_set_menu w m J); [done|]. unfold menu_frame. cbn.
    by rewrite filter_other_snoc.
  - unfold add_exit. unfold_prims. by rewrite HJ.
Qed.

Lemma stable_remove_exit m : respects stable (remove_exit m).
Proof.
  intros w. destruct (menus w !! m) as [J|] eqn:HJ.
  - rewrite (remove_exit_run w m J HJ).
    destruct (last (items J)) as [x|] eqn:Hx; [|reflexivity].
    destruct (decide _) as [->|]; [|reflexivity].
    apply (stable_set_menu w m J); [done|]. unfold menu_frame. cbn.
    assert (Hne : items J ≠ []) by (intros E; by rewrite E in Hx).
    destruct (last_snoc_inv _ Hne) as (l & y & El & Ey).
    assert (y = exit_item J) as -> by congruence.
    rewrite El at 2. by rewrite El, removelast_last, filter_other_snoc.
  - unfold remove_exit. unfold_prims. by rewrite HJ.
Qed.

Lemma stable_show i index : respects stable (show i index).
Proof.
  intros w. unfold show. unfold bind at 1, the_item, bind at 1, get.
  destruct (objs w !! i) as [o|] eqn:Ho; cbn; [|reflexivity].
  assert (Hplain : stable w (MenuItem.show i index w).1).
  { unfold MenuItem.show. unfold_prims. by rewrite Ho. }
  destruct (Item.class o) eqn:Hc; try exact Hplain.
  unfold ExitItem.show, MenuItem.show. unfold_prims. rewrite Ho.
  assert (Hset : ∀ s, stable w
            (with_objs (<[i := Item.with_text s o]> (objs w)) w)).
  { intros s. apply (stable_set_item w i o); [done|].
    unfold item_frame. cbn. by rewrite Hc. }
  destruct (Item.menu o) as [m|]; cbn.
  - destruct (menus w !! m) as [Jm|]; cbn; [|reflexivity].
    destruct (parent Jm) as [p|]; cbn.
    + destruct (menus w !! p) as [P|]; cbn; [|reflexivity].
      rewrite Ho. cbn. rewrite lookup_insert_eq. apply Hset.
    + rewrite Ho. cbn. rewrite lookup_insert_eq. apply Hset.
  - rewrite Ho. cbn. rewrite lookup_insert_eq. apply Hset.
Qed.

Ltac stable_step :=
  first
    [ apply stable_emit
    | apply stable_modify; done
    | apply stable_update_menu; done
    | apply stable_update_item; done
    | apply stable_show
    | apply stable_add_exit | apply stable_remove_exit
    | apply stable_getch | apply stable_raw_input
    | apply stable_subprocess_run
    | respects_step ].

Section Stable.
Context (__version__ : string).

Lemma stable_draw m : respects stable (draw __version__ m).
Proof.
  unfold draw, draw_row, screen_border, screen_addstr, screen_refresh.
  repeat stable_step.
Qed.

Lemma stable_clear_screen m : respects stable (clear_screen m).
Proof.
  unfold clear_screen, screen_clear, stdscr_erase, stdscr_refresh.
  repeat stable_step.
Qed.

Lemma stable_clear_terminal : respects stable clear_terminal.
Proof. unfold clear_terminal. repeat stable_step. Qed.

Lemma stable_set_up i : respects stable (set_up i).
Proof.
  unfold set_up, SubmenuItem.set_up, ExternalItem.set_up, MenuItem.set_up.
  repeat first
    [apply stable_clear_screen | apply stable_clear_terminal | stable_step].
Qed.

Lemma stable_clean_up i : respects stable (clean_up i).
Proof.
  unfold clean_up, SubmenuItem.clean_up, ExternalItem.clean_up,
    MenuItem.clean_up, curses_curs_set.
  repeat first [apply stable_clear_screen | stable_step].
Qed.

Lemma stable_get_return i : respects stable (get_return i).
Proof.
  unfold get_return, SubmenuItem.get_return, MenuItem.get_return.
  repeat stable_step.
Qed.

Section NestedLoop.
Context (nested : menu_id → option window → M unit).
Hypothesis nested_stable : ∀ m scr, respects stable (nested m scr).

Lemma stable_wrap_start m : respects stable (_wrap_start nested m).
Proof.
  unfold _wrap_start, curses_wrapper.
  repeat first
    [ apply nested_stable | apply stable_clear_screen
    | apply stable_clear_terminal | stable_step ].
Qed.

Lemma stable_start m show_exit :
  respects stable (start nested m show_exit).
Proof.
  unfold start.
  repeat first [apply stable_wrap_start | stable_step].
Qed.

Lemma stable_action i : respects stable (action nested i).
Proof.
  unfold action, SubmenuItem_action, MenuItem.action,
    QuickConnect.action.
  repeat first [apply stable_start | stable_step].
Qed.

Lemma stable_select m : respects stable (select __version__ nested m).
Proof.
  unfold select, on_selected_item, selected_item.
  repeat first
    [ apply stable_draw | apply stable_set_up | apply stable_clean_up
    | apply stable_get_return | apply stable_action | stable_step ].
Qed.

Lemma stable_process_user_input m :
  respects stable (process_user_input __version__ nested m).
Proof.
  unfold process_user_input, get_input, go_to, go_down, go_up.
  repeat first
    [ apply stable_draw | apply stable_select | apply nested_stable
    | stable_step ].
Qed.
End NestedLoop.

Lemma stable_main_loop fuel :
  ∀ m scr, respects stable (_main_loop __version__ fuel m scr).
Proof.
  induction fuel as [|fuel IH]; intros m scr; cbn [_main_loop].
  - apply respects_out_of_fuel. exact _.
  - unfold curses_newpad, _set_up_colors, curses_curs_set, stdscr_refresh.
    repeat first
      [ apply stable_draw | apply stable_process_user_input; done
      | stable_step ].
Qed.

End Stable.

(** ** Starting a menu and resizing the terminal *)

Lemma stdscr_getch_resized w self scr y x ks :
  stdscr w = Some scr → keys w = Resized y x :: ks →
  stdscr_getch self w
  = (with_keys ks
       (with_tty (y, x)
          (with_stdscr (Some (y, x))
             (with_trace (trace w ++ [Getch self]) w))),
     Ok KEY_RESIZE).
Proof. intros Hs Hk. unfold stdscr_getch. unfold_prims. look. done. Qed.



Section Start.
Context (__version__ : string).


(** [_main_loop] up to the first [draw]. *)
Lemma main_loop_prelude fuel w self J scr H W :
  menus w !! self = Some J →
  default (stdscr w) (Some <$> scr) = Some (H, W) →
  let N := Z.of_nat (length (items J)) in
  _main_loop __version__ (S fuel) self scr w
  = (draw __version__ self ;;
     modify (with_currently_active_menu (Some self)) ;;
     update_menu self (with_running true) ;;
     while (S fuel)
       (do J <- the_menu self; ret (_running J && negb (should_exit J)))
       (process_user_input __version__ (_main_loop __version__ fuel) self ;;
        ret tt))
      (with_trace
         (trace w ++ [Newpad self (N + 6) W;
                      Init_pair 1 COLOR_BLACK COLOR_WHITE;
                      Curs_set 0; Stdscr_refresh])
         (with_menus
            (<[self := with_colors (Some (color_pair 1)) (Some A_NORMAL)
                         (with_screen (Some (N + 6, W))
                            (with_term H W J))]> (menus w))
            (with_stdscr (Some (H, W)) w))).
Proof.
  intros HJ Hs N. cbn [_main_loop].
  set (w0 := with_stdscr (Some (H, W)) w).
  assert (E0 : match scr with
               | Some s => modify (with_stdscr (Some s))
               | None => ret tt
               end w = (w0, Ok tt)).
  { destruct scr as [s|]; cbn in Hs.
    - by injection Hs as ->.
    - unfold w0. rewrite <- Hs. by destruct w. }
  rewrite (bind_ok _ _ _ _ _ E0).
  assert (HJ0 : menus w0 !! self = Some J) by done.
  rewrite (bind_ok _ _ _ _ _ (stdscr_getmaxyx_ok w0 (H, W) eq_refl)).
  rewrite (bind_ok _ _ _ _ _ (update_menu_ok w0 self J _ HJ0)).
  erewrite bind_ok; [|apply the_menu_ok; apply lookup_insert_eq].
  cbn [items term_x with_term fst snd]. fold N.
  erewrite bind_ok; [|reflexivity].
  erewrite bind_ok; [|apply update_menu_ok; apply lookup_insert_eq].
  erewrite bind_ok;
    [|unfold _set_up_colors; erewrite bind_ok; [|reflexivity];
      apply update_menu_ok; apply lookup_insert_eq].
  erewrite bind_ok; [|reflexivity].
  erewrite bind_ok; [|unfold stdscr_refresh; unfold_prims; reflexivity].
  f_equal. cbn. rewrite !insert_insert_eq, <- !app_assoc. done.
Qed.

(** The run loop from the first [draw] on. *)
Lemma stable_run_loop fuel self :
  respects stable
    (draw __version__ self ;;
     modify (with_currently_active_menu (Some self)) ;;
     update_menu self (with_running true) ;;
     while (S fuel)
       (do J <- the_menu self; ret (_running J && negb (should_exit J)))
       (process_user_input __version__ (_main_loop __version__ fuel) self ;;
        ret tt)).
Proof.
  repeat first
    [ apply stable_draw
    | apply stable_process_user_input; apply stable_main_loop
    | stable_step ].
Qed.

(** X16: when the terminal is resized to [cols] columns while a menu of
    [N] items waits for a key, the menu reads the resize event and makes
    a new pad of [N + 6] rows and [cols] columns, sets up its colours,
    hides the cursor and refreshes the standard screen, before anything
    else. *)
Theorem resize_makes_new_pad (fuel : nat) (w : World) (self : menu_id)
    (J : Jumpbox) (scr : window) (rows cols : Z) (ks : list input) :
  menus w !! self = Some J →
  stdscr w = Some scr →
  keys w = Resized rows cols :: ks →
  ∃ t,
    trace (world_after
             (process_user_input __version__
                (_main_loop __version__ (S fuel)) self) w)
    = trace w
      ++ [Getch self;
          Newpad self (Z.of_nat (length (items J)) + 6) cols;
          Init_pair 1 COLOR_BLACK COLOR_WHITE; Curs_set 0; Stdscr_refresh]
      ++ t.
Proof.
  intros HJ Hs Hk. unfold world_after.
  erewrite process_input;
    [|by apply (stdscr_getch_resized w self scr)|exact HJ].
  rewrite bind_ret_world.
  unfold KEY_RESIZE, KEY_DOWN, KEY_UP, KEY_RIGHT, KEY_LEFT.
  rewrite decide_False by lia.
  rewrite !(decide_False (P := 410 = _)) by done.
  rewrite decide_True by done.
  set (w1 := with_keys ks _).
  rewrite (bind_ok _ _ _ _ _ (update_menu_ok w1 self J _ HJ)).
  set (w2 := with_menus _ w1).
  rewrite (main_loop_prelude fuel w2 self (with_running false J) None
             rows cols (lookup_insert_eq _ _ _) eq_refl).
  cbn [items with_running].
  match goal with |- context [fst (?k ?w3)] =>
    destruct (stable_trace _ _ (stable_run_loop fuel self w3)) as [t Et]
  end.
  exists t. rewrite Et. cbn. by rewrite <- !app_assoc.
Qed.

End Start.

(** ** A whole run: start, one key, exit *)



Section WholeRun.
Context (__version__ : string).

End WholeRun.

(** ** What is written on the pad *)



Section Picture.
Context (__version__ : string).


End Picture.

(** ** Items that open a submenu, and the label of its exit entry *)

Lemma fresh_item_ne w i o : objs w !! i = Some o → fresh (dom (objs w)) ≠ i.
Proof.
  intros Ho E. apply (is_fresh (dom (objs w))). rewrite E.
  apply elem_of_dom. eauto.
Qed.

Lemma show_exit_item w e o index label :
  objs w !! e = Some o → Item.class o = IsExitItem →
  exit_label w o = Some label →
  result_of (show e index) w = Ok (str (index + 1) +:+ " - " +:+ label).
Proof.
  intros Ho Hc Hl. unfold result_of, show.
  rewrite (bind_ok _ _ _ _ _ (the_item_ok w e o Ho)), Hc.
  by rewrite (exit_item_show_run w e o index label Ho Hl).
Qed.

Section Submenus.
Context (__version__ : string).

(** X11: when an item that opens the submenu [sub] is created with the
    menu [m], or is given the menu [m] by [set_menu], the exit entry of
    [sub] reads ["Return to <title of m> menu"] from then on. *)
Theorem submenu_item_names_parent (w : World) (sub m : menu_id)
    (Jsub Jm : Jumpbox) (e : Item.t) (text : string) (flag : bool)
    (index : Z) :
  menus w !! sub = Some Jsub →
  menus w !! m = Some Jm →
  objs w !! exit_item Jsub = Some e →
  Item.class e = IsExitItem →
  Item.menu e = Some sub →
  let row := str (index + 1) +:+ " - Return to " +:+ percent_s (title Jm)
             +:+ " menu" in
  result_of (SubmenuItem.__init__ text sub (Some m) flag ;;
             show (exit_item Jsub) index) w
  = Ok row
  ∧ ∀ i o, objs w !! i = Some o →
           Item.class o = IsSubmenuItem →
           Item.submenu o = Some sub →
           result_of (SubmenuItem.set_menu i (Some m) ;;
                      show (exit_item Jsub) index) w
           = Ok row.
Proof.
  intros Hsub Hm He Hc Hmenu row.
  assert (Hlabel : ∀ w', objs w' !! exit_item Jsub = Some e →
            menus w' = <[sub := with_parent (Some m) Jsub]> (menus w) →
            result_of (show (exit_item Jsub) index) w' = Ok row).
  { intros w' He' Hmenus.
    apply (show_exit_item w' _ e index
             ("Return to " +:+ percent_s (title Jm) +:+ " menu") He' Hc).
    unfold exit_label. rewrite Hmenu, Hmenus, lookup_insert_eq. cbn.
    destruct (decide (m = sub)) as [->|Hne].
    - rewrite lookup_insert_eq. cbn. by simplify_eq.
    - rewrite lookup_insert_ne by done. by rewrite Hm. }
  split.
  - unfold result_of, SubmenuItem.__init__, new_item.
    unfold bind at 1. unfold bind at 1. unfold bind at 1. unfold bind at 1.
    cbn [get modify ret].
    set (w1 := with_objs _ w).
    rewrite (bind_ok _ _ _ _ _ (update_menu_ok w1 sub Jsub _ Hsub)).
    cbn [ret]. apply Hlabel.
    + cbn. rewrite lookup_insert_ne; [done|]. by eapply fresh_item_ne.
    + done.
  - intros i o Ho Hci Hs. unfold result_of, SubmenuItem.set_menu.
    unfold bind at 1.
    rewrite (bind_ok _ _ _ _ _ (update_item_ok w i o _ Ho)).
    erewrite bind_ok; [|apply the_item_ok; apply lookup_insert_eq].
    cbn [Item.submenu Item.with_menu]. rewrite Hs. cbn [not_none].
    rewrite (bind_ok _ _ _ _ sub eq_refl).
    set (w1 := with_objs _ w).
    rewrite (update_menu_ok w1 sub Jsub _ Hsub).
    apply Hlabel; [|done].
    cbn. rewrite lookup_insert_ne; [done|].
    intros E. rewrite E in Ho. congruence.
Qed.

(** X12: [append_item] does not call [set_menu]: an item created
    without a menu that opens the submenu [sub] and is then appended to
    the menu [m] leaves [sub] without parent, and the exit entry of
    [sub] still reads ["Exit"]. *)
Theorem append_item_sets_no_parent (w : World) (sub m : menu_id)
    (Jsub Jm : Jumpbox) (e : Item.t) (text : string) (flag : bool)
    (index : Z) :
  menus w !! sub = Some Jsub →
  menus w !! m = Some Jm →
  parent Jsub = None →
  screen Jm = None →
  last (items Jm) ≠ Some (exit_item Jm) →
  objs w !! exit_item Jsub = Some e →
  Item.class e = IsExitItem →
  Item.menu e = Some sub →
  let build := do i <- SubmenuItem.__init__ text sub None flag;
               append_item __version__ m i in
  result_of build w = Ok tt
  ∧ parent <$> menus (world_after build w) !! sub = Some None
  ∧ result_of (build ;; show (exit_item Jsub) index) w
    = Ok (str (index + 1) +:+ " - Exit").
Proof.
  intros Hsub Hm Hpar Hscr Hlast He Hc Hmenu build.
  set (i := fresh (dom (objs w))).
  set (o := Item.mk IsSubmenuItem text None flag (Some sub) None).
  set (w1 := with_objs (<[i := o]> (objs w)) w).
  assert (Hinit : SubmenuItem.__init__ text sub None flag w = (w1, Ok i))
    by done.
  assert (Happ : build w
                 = (with_menus
                      (<[m := with_items (items Jm ++ [i]) Jm]> (menus w1))
                      (with_objs
                         (<[i := Item.with_menu (Some m) o]> (objs w1)) w1),
                    Ok tt)).
  { unfold build. rewrite (bind_ok _ _ _ _ _ Hinit).
    apply append_item_unstarted; try done. apply lookup_insert_eq. }
  assert (Hfresh : i ≠ exit_item Jsub) by by eapply fresh_item_ne.
  split; [unfold result_of; by rewrite Happ|]. split.
  - unfold world_after. rewrite Happ. cbn.
    destruct (decide (m = sub)) as [->|Hne].
    + rewrite lookup_insert_eq. cbn. simplify_eq. by rewrite Hpar.
    + rewrite lookup_insert_ne by done. rewrite Hsub. cbn. by rewrite Hpar.
  - unfold result_of. rewrite (bind_ok _ _ _ _ _ Happ).
    apply (show_exit_item _ _ e index "Exit"); [|done|].
    + cbn. by rewrite !lookup_insert_ne.
    + unfold exit_label. rewrite Hmenu. cbn.
      destruct (decide (m = sub)) as [->|Hne].
      * rewrite lookup_insert_eq. cbn. simplify_eq. by rewrite Hpar.
      * rewrite lookup_insert_ne by done. rewrite Hsub. cbn.
        by rewrite Hpar.
Qed.
End Submenus.

(** ** The further theorems on the sample runs *)

Lemma add_exit_then_remove_exit_witness :
  (do added <- add_exit 1%nat;
   do removed <- remove_exit 1%nat;
   ret (added, removed)) built
  = (built, Ok (true, true)).
Proof.
  apply (add_exit_then_remove_exit built 1%nat sites_menu_built).
  - vm_compute. reflexivity.
  - discriminate.
  - discriminate.
Defined.

Lemma add_exit_twice_witness :
  (add_exit 1%nat ;; add_exit 1%nat) built
  = (world_after (add_exit 1%nat) built, Ok false).
Proof.
  apply (add_exit_twice built 1%nat sites_menu_built).
  vm_compute. reflexivity.
Defined.

Lemma reset_menu_clears_items_witness :
  let w' := with_menus (<[1%nat := with_items [] sites_menu_built]>
                          (menus built)) built in
  reset_menu 1%nat built = (w', Ok tt)
  ∧ current_item 1%nat w' = (w', Ok None)
  ∧ selected_item 1%nat w' = (w', Ok None)
  ∧ add_exit 1%nat w' = (w', Ok false).
Proof.
  apply (reset_menu_clears_items built 1%nat sites_menu_built).
  vm_compute. reflexivity.
Defined.

Lemma append_item_before_start_witness :
  append_item sample_version 1%nat 4%nat built
  = (with_menus
       (<[1%nat := with_items (items sites_menu_built ++ [4%nat])
                     sites_menu_built]> (menus built))
       (with_objs
          (<[4%nat := Item.with_menu (Some 1%nat) about_item_built]>
             (objs built)) built),
     Ok tt).
Proof.
  apply (append_item_before_start sample_version built 1%nat
           sites_menu_built 4%nat about_item_built).
  - vm_compute. reflexivity.
  - reflexivity.
  - discriminate.
  - vm_compute. reflexivity.
Defined.

Lemma append_item_pad_fits_witness :
  ∃ J',
    menus (world_after (append_item sample_version 0%nat 5%nat) running)
      !! 0%nat = Some J'
    ∧ pad_fits J'
    ∧ 5%nat ∈ items J'.
Proof.
  apply (append_item_pad_fits sample_version running 0%nat main_menu_running
           (10, 80) 5%nat device_item_built).
  - vm_compute. reflexivity.
  - reflexivity.
  - vm_compute. reflexivity.
Defined.


Lemma select_exit_entry_witness :
  ∃ w' J',
    select sample_version (_main_loop sample_version 5) 0%nat at_exit_entry
    = (w', Ok tt)
    ∧ menus w' !! 0%nat = Some J'
    ∧ should_exit J' = true
    ∧ selected_option J'
      = current_option (with_current_option 3 main_menu_running)
    ∧ current_option J'
      = current_option (with_current_option 3 main_menu_running)
    ∧ items J' = items (with_current_option 3 main_menu_running)
    ∧ trace w' = trace at_exit_entry
    ∧ keys w' = keys at_exit_entry.
Proof.
  apply (select_exit_entry sample_version (_main_loop sample_version 5)
           at_exit_entry 0%nat (with_current_option 3 main_menu_running)
           0%nat main_exit_item_built).
  - vm_compute. reflexivity.
  - simpl. lia.
  - vm_compute. reflexivity.
  - vm_compute. reflexivity.
  - right. reflexivity.
  - reflexivity.
  - reflexivity.
Defined.

Lemma left_key_leaves_menu_witness :
  ∃ w' J',
    process_user_input sample_version (_main_loop sample_version 5) 0%nat
      (with_keys [Key KEY_LEFT] running) = (w', Ok KEY_LEFT)
    ∧ menus w' !! 0%nat = Some J'
    ∧ should_exit J' = true
    ∧ current_option J' = Z.of_nat (length (items main_menu_running)) - 1
    ∧ selected_option J' = Z.of_nat (length (items main_menu_running)) - 1
    ∧ trace w' = trace (with_keys [Key KEY_LEFT] running) ++ [Getch 0%nat]
    ∧ keys w' = [].
Proof.
  apply (left_key_leaves_menu sample_version (_main_loop sample_version 5)
           (with_keys [Key KEY_LEFT] running) 0%nat main_menu_running
           (24, 80) [] 0%nat main_exit_item_built).
  - vm_compute. reflexivity.
  - vm_compute. reflexivity.
  - reflexivity.
  - reflexivity.
  - vm_compute. reflexivity.
  - reflexivity.
  - reflexivity.
  - reflexivity.
Defined.

Lemma unbound_key_is_ignored_witness :
  process_user_input sample_version (_main_loop sample_version 5) 0%nat
    (with_keys [Key 120] running)
  = (with_keys []
       (with_trace (trace (with_keys [Key 120] running) ++ [Getch 0%nat])
          (with_keys [Key 120] running)),
     Ok 120).
Proof.
  apply (unbound_key_is_ignored sample_version (_main_loop sample_version 5)
           (with_keys [Key 120] running) 0%nat main_menu_running (24, 80)
           120 []).
  - vm_compute. reflexivity.
  - vm_compute. reflexivity.
  - reflexivity.
  - simpl. lia.
  - by apply (bool_decide_unpack _).
Defined.


Lemma submenu_item_names_parent_witness :
  let row := str (0 + 1) +:+ " - Return to "
             +:+ percent_s (title main_menu_built) +:+ " menu" in
  result_of (SubmenuItem.__init__ "Sites again" 1%nat (Some 0%nat) false ;;
             show (exit_item sites_menu_built) 0) built
  = Ok row
  ∧ ∀ i o, objs built !! i = Some o →
           Item.class o = IsSubmenuItem →
           Item.submenu o = Some 1%nat →
           result_of (SubmenuItem.set_menu i (Some 0%nat) ;;
                      show (exit_item sites_menu_built) 0) built
           = Ok row.
Proof.
  apply (submenu_item_names_parent built 1%nat 0%nat sites_menu_built
           main_menu_built sites_exit_item_built "Sites again" false 0).
  - vm_compute. reflexivity.
  - vm_compute. reflexivity.
  - vm_compute. reflexivity.
  - reflexivity.
  - reflexivity.
Defined.

Lemma append_item_sets_no_parent_witness :
  let build := do i <- SubmenuItem.__init__ "Main" 0%nat None false;
               append_item sample_version 1%nat i in
  result_of build built = Ok tt
  ∧ parent <$> menus (world_after build built) !! 0%nat = Some None
  ∧ result_of (build ;; show (exit_item main_menu_built) 2) built
    = Ok (str (2 + 1) +:+ " - Exit").
Proof.
  apply (append_item_sets_no_parent sample_version built 0%nat 1%nat
           main_menu_built sites_menu_built main_exit_item_built "Main"
           false 2).
  - vm_compute. reflexivity.
  - vm_compute. reflexivity.
  - reflexivity.
  - reflexivity.
  - discriminate.
  - vm_compute. reflexivity.
  - reflexivity.
  - reflexivity.
Defined.



Lemma resize_makes_new_pad_witness :
  ∃ t,
    trace (world_after
             (process_user_input sample_version
                (_main_loop sample_version (S 3)) 0%nat)
             (with_keys [Resized 30 100] running))
    = trace (with_keys [Resized 30 100] running)
      ++ [Getch 0%nat;
          Newpad 0%nat (Z.of_nat (length (items main_menu_running)) + 6) 100;
          Init_pair 1 COLOR_BLACK COLOR_WHITE; Curs_set 0; Stdscr_refresh]
      ++ t.
Proof.
  apply (resize_makes_new_pad sample_version 3
           (with_keys [Resized 30 100] running) 0%nat main_menu_running
           (24, 80) 30 100 []).
  - vm_compute. reflexivity.
  - vm_compute. reflexivity.
  - reflexivity.
Defined.


(** ** The Netbox client: sites *)

Import NetboxAPI.

(** One step of the loop of [format_sites]. *)
Lemma format_sites_from_unfold index data :
  format_sites_from index data
  = match data !! index with
    | None => Return data
    | Some item =>
        match getitem item "count_devices" with
        | Raises e => Raises e
        | Return count =>
            if le_zero count
            then format_sites_from (S index) (delete index data)
            else format_sites_from (S index) data
        end
    end.
Proof.
  rewrite format_sites_from_equation_1. unfold inspect.
  cut (∀ o (H : data !! index = o),
         format_sites_from_unfold_clause_1 index data (exist _ o H)
         = match o with
           | None => Return data
           | Some item =>
               match getitem item "count_devices" with
               | Raises e => Raises e
               | Return count =>
                   if le_zero count
                   then format_sites_from (S index) (delete index data)
                   else format_sites_from (S index) data
               end
           end).
  { intros C. apply C. }
  intros [item|] H; cbn; [|done].
  destruct (getitem item "count_devices") as [count|e]; cbn; [|done].
  by destruct (le_zero count).
Qed.

(** The loop does not look at the items before the iterator. *)
Lemma format_sites_from_shift n : ∀ i l x,
  (length l - i ≤ n)%nat →
  format_sites_from (S i) (x :: l) = (x ::.) <$> format_sites_from i l.
Proof.
  induction n as [|n IH]; intros i l x Hn;
    rewrite (format_sites_from_unfold (S i)), (format_sites_from_unfold i);
    change ((x :: l) !! S i) with (l !! i).
  - rewrite lookup_ge_None_2 by lia. done.
  - destruct (l !! i) as [item|] eqn:Hi; [|done].
    apply lookup_lt_Some in Hi.
    destruct (getitem item "count_devices") as [count|e]; [|done].
    destruct (le_zero count).
    + change (delete (S i) (x :: l)) with (x :: delete i l).
      apply IH. rewrite length_delete by (apply lookup_lt_is_Some_2; lia). lia.
    + apply IH. lia.
Qed.

Lemma format_sites_from_kept n : ∀ l,
  (length l ≤ n)%nat → format_sites_from 0 l = kept_sites l.
Proof.
  induction n as [|n IH]; intros l Hn.
  - destruct l; [|cbn in Hn; lia]. by rewrite format_sites_from_unfold.
  - destruct l as [|a rest]; [by rewrite format_sites_from_unfold|].
    cbn in Hn. rewrite format_sites_from_unfold.
    change ((a :: rest) !! 0%nat) with (Some a). cbn [kept_sites].
    destruct (getitem a "count_devices") as [count|e]; [|done].
    destruct (le_zero count).
    + change (delete 0%nat (a :: rest)) with rest.
      destruct rest as [|b rest'].
      * by rewrite format_sites_from_unfold.
      * rewrite (format_sites_from_shift (length rest')) by lia.
        rewrite IH; [done|]. cbn in Hn. lia.
    + rewrite (format_sites_from_shift (length rest)) by lia.
      rewrite IH; [done|lia].
Qed.

Lemma format_sites_list l :
  format_sites (JList l) = JList <$> kept_sites l.
Proof.
  unfold format_sites. cbn. by rewrite (format_sites_from_kept (length l)).
Qed.

Lemma has_devices_count site count :
  getitem site "count_devices" = Return count →
  has_devices site = negb (le_zero count).
Proof. unfold has_devices. by intros ->. Qed.

(** What is kept lies between the sites with devices and all sites. *)
Lemma kept_sites_between n : ∀ l,
  (length l ≤ n)%nat →
  Forall (λ site, returns (getitem site "count_devices")) l →
  ∃ r, kept_sites l = Return r
       ∧ r `sublist_of` l
       ∧ filter (λ site, has_devices site = true) l `sublist_of` r.
Proof.
  induction n as [|n IH]; intros l Hn Hall.
  - destruct l; [|cbn in Hn; lia]. by exists [].
  - destruct l as [|a rest]; [by exists []|].
    cbn in Hn. apply Forall_cons in Hall as [[count Ha] Hrest].
    cbn [kept_sites]. rewrite Ha.
    pose proof (has_devices_count a count Ha) as Hd.
    destruct (le_zero count); cbn in Hd.
    + rewrite filter_cons_False by (rewrite Hd; discriminate).
      destruct rest as [|b rest'].
      * exists []. rewrite filter_nil.
        split; [done|]. split; [apply sublist_nil_l|done].
      * apply Forall_cons in Hrest as [_ Hrest'].
        destruct (IH rest') as (r & -> & Hsub & Hsup); [cbn in Hn; lia|done|].
        exists (b :: r). split; [done|]. split.
        -- by apply sublist_cons, sublist_skip.
        -- destruct (decide (has_devices b = true)).
           ++ rewrite filter_cons_True by done. by apply sublist_skip.
           ++ rewrite filter_cons_False by done. by apply sublist_cons.
    + rewrite filter_cons_True by done.
      destruct (IH rest) as (r & -> & Hsub & Hsup); [lia|done|].
      exists (a :: r). split; [done|]. split; by apply sublist_skip.
Qed.

(** Without two sites in a row that have no devices, what is kept are
    the sites with devices. *)
Lemma kept_sites_filter n : ∀ l,
  (length l ≤ n)%nat →
  Forall (λ site, returns (getitem site "count_devices")) l →
  (∀ i a b, l !! i = Some a → l !! S i = Some b →
            has_devices a = false → has_devices b = true) →
  kept_sites l = Return (filter (λ site, has_devices site = true) l).
Proof.
  induction n as [|n IH]; intros l Hn Hall Hadj.
  - destruct l; [done|cbn in Hn; lia].
  - destruct l as [|a rest]; [done|].
    cbn in Hn. apply Forall_cons in Hall as [[count Ha] Hrest].
    cbn [kept_sites]. rewrite Ha.
    pose proof (has_devices_count a count Ha) as Hd.
    destruct (le_zero count); cbn in Hd.
    + rewrite filter_cons_False by (rewrite Hd; discriminate).
      destruct rest as [|b rest']; [done|].
      apply Forall_cons in Hrest as [_ Hrest'].
      rewrite filter_cons_True by (by apply (Hadj 0%nat a b)).
      rewrite IH; [done|cbn in Hn; lia|done|].
      intros i x y Hx Hy. by apply (Hadj (S (S i))).
    + rewrite filter_cons_True by done.
      rewrite IH; [done|lia|done|].
      intros i x y Hx Hy. by apply (Hadj (S i)).
Qed.

Section Sites.
Variable urlopen : string → reply.

(** X18: when a site of the list has no devices, [format_sites] leaves
    it out and keeps the site after it without reading its count,
    whatever that site is, and goes on with the rest. *)
Theorem format_sites_keeps_the_next (site next : json)
    (rest kept : list json) (count : json) :
  getitem site "count_devices" = Return count →
  le_zero count = true →
  format_sites (JList rest) = Return (JList kept) →
  format_sites (JList (site :: next :: rest))
  = Return (JList (next :: kept)).
Proof.
  intros Hc Hz. rewrite !format_sites_list.
  cbn [kept_sites]. rewrite Hc, Hz.
  destruct (kept_sites rest) as [r|e]; [|done].
  cbn. by intros [= ->].
Qed.

(** X19: on a list of sites that all have a count and in which no two
    sites in a row are without devices, [format_sites] returns the sites
    that have devices, in their order. *)
Theorem format_sites_filters (l : list json) :
  Forall (λ site, returns (getitem site "count_devices")) l →
  (∀ i a b, l !! i = Some a → l !! S i = Some b →
            has_devices a = false → has_devices b = true) →
  format_sites (JList l)
  = Return (JList (filter (λ site, has_devices site = true) l)).
Proof.
  intros Hall Hadj. rewrite format_sites_list.
  by rewrite (kept_sites_filter (length l)).
Qed.

(** X20: when the answer to the request for the sites is a document
    whose ['results'] are a list of sites that all have a count,
    [get_sites] returns; it returns sites of that list in their order,
    and among them every site that has devices. *)
Theorem get_sites_keeps_sites_with_devices (document : gmap string json)
    (l : list json) :
  urlopen (base_url +:+ "dcim/sites/?limit=0")
  = Body (Some (JDict document)) →
  document !! "results" = Some (JList l) →
  Forall (λ site, returns (getitem site "count_devices")) l →
  ∃ r, get_sites urlopen = Return (JList r)
       ∧ r `sublist_of` l
       ∧ filter (λ site, has_devices site = true) l `sublist_of` r.
Proof.
  intros Hurl Hdoc Hall. unfold get_sites, api_call. cbv zeta.
  rewrite Hurl.
  change (response ← Return (JDict document);
          results ← getitem response "results"; format_sites results)
    with (results ← getitem (JDict document) "results";
          format_sites results).
  unfold getitem at 1. rewrite Hdoc.
  change (results ← Return (JList l); format_sites results)
    with (format_sites (JList l)).
  rewrite format_sites_list.
  destruct (kept_sites_between (length l) l) as (r & -> & ? & ?);
    [done..|].
  by exists r.
Qed.
End Sites.

(** ** The Netbox client: the two patterns *)

Lemma append_cons c y t : String c y +:+ t = String c (y +:+ t).
Proof. done. Qed.

Lemma append_nil t : "" +:+ t = t.
Proof. done. Qed.

Lemma match_here_digits p' s :
  match_here (Digits :: p') s
  = match s with
    | String c' s' =>
        if is_digit c'
        then match match_here (Digits :: p') s' with
             | Some n => Some (S n)
             | None => S <$> match_here p' s'
             end
        else None
    | EmptyString => None
    end.
Proof. by destruct s. Qed.

(** [$] does not match before a character that is not a newline. *)
Lemma at_end_app y c t :
  c ≠ Ascii.ascii_of_nat 10 → at_end (y +:+ String c t) = false.
Proof.
  intros Hc. apply bool_decide_eq_false. intros [H|H].
  - destruct y; rewrite ?append_cons, ?append_nil in H; done.
  - unfold newline in H.
    destruct y as [|a y]; rewrite ?append_cons, ?append_nil in H.
    + injection H as H _. by apply Hc.
    + injection H as _ H. by destruct y.
Qed.

Lemma at_end_cons c t :
  c ≠ Ascii.ascii_of_nat 10 → at_end (String c t) = false.
Proof. apply (at_end_app "" c t). Qed.

Lemma is_digit_not_newline c :
  is_digit c = true → c ≠ Ascii.ascii_of_nat 10.
Proof. by intros H ->. Qed.

Lemma is_digit_not_hyphen c : is_digit c = true → c ≠ hyphen.
Proof. by intros H ->. Qed.

Lemma is_digit_not_slash c : is_digit c = true → c ≠ slash.
Proof. by intros H ->. Qed.

(** [\d+$] matches a string of digits as a whole. *)
Lemma digits_then_end d :
  d ≠ "" → all_digits d = true →
  match_here [Digits; End] d = Some (String.length d).
Proof.
  induction d as [|c d IH]; [done|]. intros _ Hd.
  cbn [all_digits] in Hd. apply andb_true_iff in Hd as [Hc Hd].
  rewrite match_here_digits, Hc.
  destruct d as [|c' d'].
  - by rewrite match_here_digits.
  - by rewrite IH.
Qed.

(** [\d+$] does not match when a [/] is still to come. *)
Lemma digits_then_end_slash y t :
  match_here [Digits; End] (y +:+ String slash t) = None.
Proof.
  induction y as [|c y IH]; [done|].
  rewrite ?append_cons, ?append_nil. rewrite match_here_digits, IH.
  destruct (is_digit c); [|done].
  cbn [match_here]. by rewrite at_end_app.
Qed.

Lemma prefix_length_slash d :
  d ≠ "" → all_digits d = true →
  match_here prefix_length (String slash d) = Some (S (String.length d)).
Proof.
  intros Hd Ha. unfold prefix_length.
  change (match_here (Lit slash :: [Digits; End]) (String slash d))
    with (S <$> match_here [Digits; End] d).
  by rewrite digits_then_end.
Qed.

Lemma prefix_length_before c y t :
  match_here prefix_length (String c (y +:+ String slash t)) = None.
Proof.
  unfold prefix_length.
  change (match_here (Lit slash :: [Digits; End])
            (String c (y +:+ String slash t)))
    with (if decide (c = slash)
          then S <$> match_here [Digits; End] (y +:+ String slash t)
          else None).
  rewrite digits_then_end_slash. by destruct (decide _).
Qed.

(** The characters of a match are left out. *)
Lemma re_sub_from_skip p repl s : ∀ k,
  (String.length s ≤ k)%nat → re_sub_from p repl k s = "".
Proof.
  induction s as [|c s IH]; intros k Hk; [done|].
  cbn in Hk. destruct k as [|k]; [lia|]. cbn. apply IH. lia.
Qed.

Lemma search_prefix_length x d :
  d ≠ "" → all_digits d = true →
  re_search prefix_length (x +:+ String slash d) = true.
Proof.
  intros Hd Ha. induction x as [|c x IH].
  - rewrite ?append_cons, ?append_nil; cbn [re_search]. by rewrite prefix_length_slash.
  - rewrite ?append_cons, ?append_nil; cbn [re_search]. by rewrite prefix_length_before.
Qed.

Lemma sub_prefix_length x d :
  d ≠ "" → all_digits d = true →
  re_sub prefix_length "" (x +:+ String slash d) = x.
Proof.
  intros Hd Ha. unfold re_sub. induction x as [|c x IH].
  - rewrite ?append_cons, ?append_nil; cbn [re_sub_from]. rewrite prefix_length_slash by done.
    by rewrite re_sub_from_skip.
  - rewrite ?append_cons, ?append_nil; cbn [re_sub_from]. rewrite prefix_length_before.
    by rewrite IH.
Qed.

(** A string without [/] has no match of ['[/]\d+$']. *)
Lemma search_no_slash s :
  has_slash s = false → re_search prefix_length s = false.
Proof.
  induction s as [|c s IH]; [done|]. cbn [has_slash].
  intros [Hc Hs]%orb_false_iff. apply bool_decide_eq_false in Hc.
  cbn [re_search].
  change (match_here prefix_length (String c s))
    with (if decide (c = slash)
          then S <$> match_here [Digits; End] s else None).
  destruct (decide (c = slash)); [done|]. by apply IH.
Qed.

(** ['-\d$'] *)
Lemma member_number_unfold c s :
  match_here member_number (String c s)
  = if decide (c = hyphen)
    then match s with
         | String c' s' =>
             if is_digit c'
             then if at_end s' then Some 2%nat else None
             else None
         | EmptyString => None
         end
    else None.
Proof.
  unfold member_number. cbn [match_here].
  destruct (decide (c = hyphen)); [|done].
  destruct s as [|c' s']; [done|].
  destruct (is_digit c'); [|done]. by destruct (at_end s').
Qed.

Lemma member_number_before c y t :
  match_here member_number (String c (y +:+ String hyphen t)) = None.
Proof.
  rewrite member_number_unfold. destruct (decide _); [|done].
  destruct y as [|c' y]; rewrite ?append_cons, ?append_nil; [done|].
  destruct (is_digit c'); [|done].
  by rewrite at_end_app.
Qed.

Lemma search_member_number x c :
  is_digit c = true →
  re_search member_number (x +:+ String hyphen (String c "")) = true.
Proof.
  intros Hc. induction x as [|a x IH].
  - rewrite ?append_cons, ?append_nil; cbn [re_search]. rewrite member_number_unfold.
    rewrite decide_True by done. by rewrite Hc.
  - rewrite ?append_cons, ?append_nil; cbn [re_search]. by rewrite member_number_before.
Qed.

Lemma sub_member_number x c :
  is_digit c = true →
  re_sub member_number "" (x +:+ String hyphen (String c "")) = x.
Proof.
  intros Hc. unfold re_sub. induction x as [|a x IH].
  - rewrite ?append_cons, ?append_nil; cbn [re_sub_from]. rewrite member_number_unfold.
    rewrite decide_True by done. by rewrite Hc.
  - rewrite ?append_cons, ?append_nil; cbn [re_sub_from]. rewrite member_number_before.
    by rewrite IH.
Qed.

Lemma search_two_digits x c1 c2 :
  is_digit c1 = true → is_digit c2 = true →
  re_search member_number (x +:+ String hyphen (String c1 (String c2 "")))
  = false.
Proof.
  intros H1 H2. induction x as [|a x IH].
  - rewrite ?append_cons, ?append_nil; cbn [re_search]. rewrite !member_number_unfold.
    rewrite decide_True by done. rewrite H1.
    rewrite at_end_cons by by apply is_digit_not_newline.
    rewrite !decide_False by by apply is_digit_not_hyphen.
    done.
  - rewrite ?append_cons, ?append_nil; cbn [re_search]. by rewrite member_number_before.
Qed.

(** ** The Netbox client: devices *)

(** [mapM] on results. *)
Lemma mapM_cons {A B : Type} (f : A → result B) (a : A) (l : list A) :
  mapM f (a :: l)
  = match f a with
    | Return b =>
        match mapM f l with
        | Return k => Return (b :: k)
        | Raises e => Raises e
        end
    | Raises e => Raises e
    end.
Proof. done. Qed.

Lemma mapM_Return {A B : Type} (f : A → result B) (l : list A) :
  ∀ l', mapM f l = Return l' ↔ Forall2 (λ a b, f a = Return b) l l'.
Proof.
  induction l as [|a l IH]; intros l'.
  - split.
    + intros H. cbn in H. injection H as <-. constructor.
    + intros H. by inversion H.
  - rewrite mapM_cons. split.
    + intros H.
      destruct (f a) as [b|e] eqn:Hb; [|done].
      destruct (mapM f l) as [k|e] eqn:Hk; [|done].
      injection H as <-. constructor; [done|]. by apply IH.
    + intros H. inversion H as [|? b ? k Hb Hk]; subst.
      apply IH in Hk. by rewrite Hb, Hk.
Qed.

(** What a step of each loop does to an item. *)
Lemma clean_address_unfold item :
  clean_address item
  = match item with
    | JDict d =>
        match d !! "primary_ip" with
        | Some (JDict ip) =>
            match ip !! "address" with
            | Some (JStr s) =>
                Return
                  (if re_search prefix_length s
                   then JDict (<["primary_ip" :=
                                  JDict (<["address" :=
                                           JStr (re_sub prefix_length "" s)]>
                                           ip)]> d)
                   else item)
            | Some _ => Raises TypeError
            | None => Raises (KeyError "address")
            end
        | Some _ => Raises TypeError
        | None => Raises (KeyError "primary_ip")
        end
    | _ => Raises TypeError
    end.
Proof.
  unfold clean_address. destruct item as [| | | | |d]; try done.
  cbn. destruct (d !! "primary_ip") as [primary_ip|]; [|done].
  cbn. destruct primary_ip as [| | | | |ip]; try done.
  cbn. destruct (ip !! "address") as [address|]; [|done].
  cbn. destruct address as [| | |s| |]; try done.
  cbn. by destruct (re_search prefix_length s).
Qed.

Lemma clean_name_unfold item :
  clean_name item
  = match item with
    | JDict d =>
        match d !! "display_name" with
        | Some (JStr s) =>
            Return
              (if re_search member_number s
               then JDict (<["display_name" :=
                              JStr (re_sub member_number "" s)]> d)
               else item)
        | Some _ => Raises TypeError
        | None => Raises (KeyError "display_name")
        end
    | _ => Raises TypeError
    end.
Proof.
  unfold clean_name. destruct item as [| | | | |d]; try done.
  cbn. destruct (d !! "display_name") as [display_name|]; [|done].
  cbn. destruct display_name as [| | |s| |]; try done.
  cbn. by destruct (re_search member_number s).
Qed.

Lemma clean_address_returns item :
  returns (clean_address item) ↔ returns (address_of item).
Proof.
  rewrite clean_address_unfold. unfold address_of, returns.
  destruct item as [| | | | |d]; cbn; try (split; intros [? ?]; done).
  destruct (d !! "primary_ip") as [primary_ip|]; cbn;
    [|split; intros [? ?]; done].
  destruct primary_ip as [| | | | |ip]; cbn; try (split; intros [? ?]; done).
  destruct (ip !! "address") as [address|]; cbn;
    [|split; intros [? ?]; done].
  destruct address as [| | |s| |]; cbn; try (split; intros [? ?]; done).
  split; intros _; eauto.
Qed.

Lemma clean_name_returns item :
  returns (clean_name item) ↔ returns (name_of item).
Proof.
  rewrite clean_name_unfold. unfold name_of, returns.
  destruct item as [| | | | |d]; cbn; try (split; intros [? ?]; done).
  destruct (d !! "display_name") as [display_name|]; cbn;
    [|split; intros [? ?]; done].
  destruct display_name as [| | |s| |]; cbn;
    try (split; intros [? ?]; done).
  split; intros _; eauto.
Qed.

(** The first loop changes the field ['primary_ip'] only, the second the
    field ['display_name'] only. *)
Lemma clean_address_others item item' key :
  clean_address item = Return item' → key ≠ "primary_ip" →
  getitem item' key = getitem item key.
Proof.
  rewrite clean_address_unfold. intros H Hkey.
  destruct item as [| | | | |d]; try done.
  destruct (d !! "primary_ip") as [[| | | | |ip]|]; try done.
  destruct (ip !! "address") as [[| | |s| |]|]; try done.
  injection H as <-. destruct (re_search prefix_length s); [|done].
  cbn. by rewrite lookup_insert_ne.
Qed.

Lemma clean_name_others item item' key :
  clean_name item = Return item' → key ≠ "display_name" →
  getitem item' key = getitem item key.
Proof.
  rewrite clean_name_unfold. intros H Hkey.
  destruct item as [| | | | |d]; try done.
  destruct (d !! "display_name") as [[| | |s| |]|]; try done.
  injection H as <-. destruct (re_search member_number s); [|done].
  cbn. by rewrite lookup_insert_ne.
Qed.

Lemma clean_address_address item item' s :
  clean_address item = Return item' → address_of item = Return s →
  address_of item'
  = Return (if re_search prefix_length s
            then re_sub prefix_length "" s else s).
Proof.
  rewrite clean_address_unfold. unfold address_of. intros H Hs.
  destruct item as [| | | | |d]; try done. cbn in Hs.
  destruct (d !! "primary_ip") as [[| | | | |ip]|] eqn:Hip; try done.
  cbn in Hs.
  destruct (ip !! "address") as [[| | |s'| |]|] eqn:Ha; try done.
  cbn in Hs. injection Hs as ->. injection H as <-.
  destruct (re_search prefix_length s).
  - cbn. rewrite lookup_insert_eq. cbn. by rewrite lookup_insert_eq.
  - cbn. rewrite Hip. cbn. by rewrite Ha.
Qed.

Lemma clean_name_name item item' s :
  clean_name item = Return item' → name_of item = Return s →
  name_of item'
  = Return (if re_search member_number s
            then re_sub member_number "" s else s).
Proof.
  rewrite clean_name_unfold. unfold name_of. intros H Hs.
  destruct item as [| | | | |d]; try done. cbn in Hs.
  destruct (d !! "display_name") as [[| | |s'| |]|] eqn:Hn; try done.
  cbn in Hs. injection Hs as ->. injection H as <-.
  destruct (re_search member_number s).
  - cbn. by rewrite lookup_insert_eq.
  - cbn. by rewrite Hn.
Qed.

Lemma clean_address_name item item' :
  clean_address item = Return item' → name_of item' = name_of item.
Proof.
  intros H. unfold name_of.
  by rewrite (clean_address_others item item' "display_name").
Qed.

Lemma clean_name_address item item' :
  clean_name item = Return item' → address_of item' = address_of item.
Proof.
  intros H. unfold address_of.
  by rewrite (clean_name_others item item' "primary_ip").
Qed.

(** [format_devices] on a list, item by item. *)
Lemma format_devices_unfold l :
  format_devices (JList l)
  = match mapM clean_address l with
    | Return l1 =>
        match mapM clean_name l1 with
        | Return l2 => Return (JList l2)
        | Raises e => Raises e
        end
    | Raises e => Raises e
    end.
Proof.
  unfold format_devices. change (iterate (JList l)) with (Return l).
  unfold mbind, result_bind.
  destruct (mapM clean_address l) as [l1|e]; [|done].
  by destruct (mapM clean_name l1).
Qed.

Lemma format_devices_list l r :
  format_devices (JList l) = Return r ↔
  ∃ l1 l2, r = JList l2
           ∧ Forall2 (λ a b, clean_address a = Return b) l l1
           ∧ Forall2 (λ a b, clean_name a = Return b) l1 l2.
Proof.
  rewrite format_devices_unfold. split.
  - intros H. destruct (mapM clean_address l) as [l1|e] eqn:H1; [|done].
    destruct (mapM clean_name l1) as [l2|e] eqn:H2; [|done].
    injection H as <-. exists l1, l2.
    by rewrite <- !mapM_Return.
  - intros (l1 & l2 & -> & H1 & H2).
    apply mapM_Return in H1, H2. by rewrite H1, H2.
Qed.

Lemma format_devices_item l l' i item :
  format_devices (JList l) = Return (JList l') →
  l !! i = Some item →
  ∃ item1 item', l' !! i = Some item'
                 ∧ clean_address item = Return item1
                 ∧ clean_name item1 = Return item'.
Proof.
  intros (l1 & l2 & [= ->] & H1 & H2)%format_devices_list Hi.
  destruct (Forall2_lookup_l _ _ _ _ _ H1 Hi) as (item1 & Hi1 & Ha).
  destruct (Forall2_lookup_l _ _ _ _ _ H2 Hi1) as (item' & Hi2 & Hn).
  by exists item1, item'.
Qed.

(** On an error of the network [api_call] returns a text. *)
Lemma api_call_error urlopen url :
  (∀ document, urlopen url ≠ Body document) →
  ∃ text, api_call urlopen url = Return (JStr text).
Proof.
  intros Herr. unfold api_call.
  destruct (urlopen url) as [document|code|reason]; [by destruct (Herr document)|..];
    by eexists.
Qed.

Section Devices.
Variable urlopen : string → reply.

(** X21: [format_devices] returns on a list exactly when every item of
    the list has a string as address of its primary IP and a string as
    display name; any other item makes it raise. *)
Theorem format_devices_returns_iff (l : list json) :
  returns (format_devices (JList l))
  ↔ Forall (λ device, is_device device = true) l.
Proof.
  split.
  - intros [r (l1 & l2 & -> & H1 & H2)%format_devices_list].
    apply Forall_lookup_2. intros i item Hi.
    destruct (Forall2_lookup_l _ _ _ _ _ H1 Hi) as (item1 & Hi1 & Ha).
    destruct (Forall2_lookup_l _ _ _ _ _ H2 Hi1) as (item' & Hi2 & Hn).
    unfold is_device.
    destruct (proj1 (clean_address_returns item)) as [s ->]; [by eexists|].
    rewrite <- (clean_address_name item item1) by done.
    by destruct (proj1 (clean_name_returns item1)) as [n ->]; [by eexists|].
  - intros Hall.
    assert (∃ l1, Forall2 (λ a b, clean_address a = Return b) l l1
                  ∧ Forall (λ device, returns (name_of device)) l1)
      as (l1 & H1 & Hn).
    { induction Hall as [|item l Hitem _ (l1 & H1 & Hn)];
        [by exists []|].
      unfold is_device in Hitem.
      destruct (address_of item) as [s|] eqn:Hs; [|done].
      destruct (name_of item) as [n|] eqn:Hname; [|done].
      destruct (proj2 (clean_address_returns item)) as [item1 Hitem1];
        [rewrite Hs; by eexists|].
      exists (item1 :: l1). split; [by constructor|].
      constructor; [|done].
      rewrite (clean_address_name item item1), Hname by done.
      by eexists. }
    assert (∃ l2, Forall2 (λ a b, clean_name a = Return b) l1 l2)
      as (l2 & H2).
    { clear H1. induction Hn as [|item1 l1 Hitem1 _ (l2 & H2)];
        [by exists []|].
      apply clean_name_returns in Hitem1 as [item' Hitem'].
      exists (item' :: l2). by constructor. }
    exists (JList l2). apply format_devices_list. by exists l1, l2.
Qed.

(** X22: what [format_devices] returns for a list has as many items as
    the list, and each item has every field other than ['primary_ip']
    and ['display_name'] as the item at its place in the list has it. *)
Theorem format_devices_keeps_other_fields (l l' : list json) :
  format_devices (JList l) = Return (JList l') →
  length l' = length l
  ∧ ∀ i item key,
      l !! i = Some item → key ≠ "primary_ip" → key ≠ "display_name" →
      ∃ item', l' !! i = Some item'
               ∧ getitem item' key = getitem item key.
Proof.
  intros H. split.
  - apply format_devices_list in H as (l1 & l2 & [= ->] & H1 & H2).
    apply Forall2_length in H1, H2. congruence.
  - intros i item key Hi Hip Hname.
    destruct (format_devices_item _ _ _ _ H Hi)
      as (item1 & item' & Hi' & Ha & Hn).
    exists item'. split; [done|].
    rewrite (clean_name_others item1 item' key) by done.
    by apply clean_address_others.
Qed.

(** X23: when the address of a device of the list is [x/n] with [n] one
    or more digits, the address of the device at its place in what
    [format_devices] returns is [x]. *)
Theorem format_devices_strips_prefix_length (l l' : list json) (i : nat)
    (device : json) (x n : string) :
  format_devices (JList l) = Return (JList l') →
  l !! i = Some device →
  address_of device = Return (x +:+ "/" +:+ n) →
  n ≠ "" → all_digits n = true →
  ∃ device', l' !! i = Some device' ∧ address_of device' = Return x.
Proof.
  intros H Hi Hs Hn Hd.
  destruct (format_devices_item _ _ _ _ H Hi)
    as (item1 & item' & Hi' & Ha & Hname).
  exists item'. split; [done|].
  rewrite (clean_name_address item1 item') by done.
  rewrite (clean_address_address device item1 _ Ha Hs).
  change (x +:+ "/" +:+ n) with (x +:+ String slash n).
  by rewrite search_prefix_length, sub_prefix_length.
Qed.

(** X24: an address without [/] is left as it is. *)
Theorem format_devices_keeps_plain_address (l l' : list json) (i : nat)
    (device : json) (s : string) :
  format_devices (JList l) = Return (JList l') →
  l !! i = Some device →
  address_of device = Return s →
  has_slash s = false →
  ∃ device', l' !! i = Some device' ∧ address_of device' = Return s.
Proof.
  intros H Hi Hs Hslash.
  destruct (format_devices_item _ _ _ _ H Hi)
    as (item1 & item' & Hi' & Ha & Hname).
  exists item'. split; [done|].
  rewrite (clean_name_address item1 item') by done.
  rewrite (clean_address_address device item1 _ Ha Hs).
  by rewrite search_no_slash.
Qed.

(** X25: when the display name of a device of the list is [x-c] with
    [c] one digit, the display name of the device at its place in what
    [format_devices] returns is [x]. *)
Theorem format_devices_strips_member_number (l l' : list json) (i : nat)
    (device : json) (x : string) (c : Ascii.ascii) :
  format_devices (JList l) = Return (JList l') →
  l !! i = Some device →
  name_of device = Return (x +:+ "-" +:+ String c "") →
  is_digit c = true →
  ∃ device', l' !! i = Some device' ∧ name_of device' = Return x.
Proof.
  intros H Hi Hs Hc.
  destruct (format_devices_item _ _ _ _ H Hi)
    as (item1 & item' & Hi' & Ha & Hname).
  exists item'. split; [done|].
  rewrite <- (clean_address_name device item1) in Hs by done.
  rewrite (clean_name_name item1 item' _ Hname Hs).
  change (x +:+ "-" +:+ String c "")
    with (x +:+ String hyphen (String c "")).
  by rewrite search_member_number, sub_member_number.
Qed.

(** X26: a display name that ends in a hyphen and two digits is left as
    it is. *)
Theorem format_devices_keeps_two_digits (l l' : list json) (i : nat)
    (device : json) (x : string) (c1 c2 : Ascii.ascii) :
  format_devices (JList l) = Return (JList l') →
  l !! i = Some device →
  name_of device = Return (x +:+ "-" +:+ String c1 (String c2 "")) →
  is_digit c1 = true → is_digit c2 = true →
  ∃ device', l' !! i = Some device'
             ∧ name_of device'
               = Return (x +:+ "-" +:+ String c1 (String c2 "")).
Proof.
  intros H Hi Hs H1 H2.
  destruct (format_devices_item _ _ _ _ H Hi)
    as (item1 & item' & Hi' & Ha & Hname).
  exists item'. split; [done|].
  rewrite <- (clean_address_name device item1) in Hs by done.
  rewrite (clean_name_name item1 item' _ Hname Hs).
  change (x +:+ "-" +:+ String c1 (String c2 ""))
    with (x +:+ String hyphen (String c1 (String c2 ""))).
  by rewrite search_two_digits.
Qed.

(** X27: when the network answers every request with an HTTP error or a
    URL error, [get_devices] and [get_sites] raise [TypeError]: the text
    of the error that [api_call] returns has no item ['results']. *)
Theorem no_reply_raises_type_error (site_slug q : option string) :
  (∀ url document, urlopen url ≠ Body document) →
  get_devices urlopen site_slug q = Raises TypeError
  ∧ get_sites urlopen = Raises TypeError.
Proof.
  intros Herr. unfold get_devices, get_sites. cbv zeta. split.
  - destruct (given site_slug), (given q);
      match goal with |- context [api_call urlopen ?u] =>
        destruct (api_call_error urlopen u (Herr u)) as [text ->]
      end; done.
  - match goal with |- context [api_call urlopen ?u] =>
      destruct (api_call_error urlopen u (Herr u)) as [text ->]
    end. done.
Qed.
End Devices.

(** ** The theorems of the Netbox client on sample data *)

Lemma format_sites_keeps_the_next_witness :
  format_sites (JList sample_sites)
  = Return (JList [sample_site "Lab" 0; sample_site "DC" 2]).
Proof.
  apply (format_sites_keeps_the_next (sample_site "HQ" 0)
           (sample_site "Lab" 0) [sample_site "DC" 2] [sample_site "DC" 2]
           (JInt 0)).
  - vm_compute. reflexivity.
  - reflexivity.
  - vm_compute. reflexivity.
Defined.

Lemma format_sites_filters_witness :
  format_sites
    (JList [sample_site "HQ" 0; sample_site "DC" 2; sample_site "Lab" 0])
  = Return
      (JList (filter (λ site, has_devices site = true)
                [sample_site "HQ" 0; sample_site "DC" 2;
                 sample_site "Lab" 0])).
Proof.
  apply (format_sites_filters
           [sample_site "HQ" 0; sample_site "DC" 2; sample_site "Lab" 0]).
  - repeat constructor; eexists; vm_compute; reflexivity.
  - intros [|[|[|i]]] a b Ha Hb; vm_compute in Ha, Hb; try discriminate;
      injection Ha as <-; injection Hb as <-; vm_compute; done.
Defined.

Lemma get_sites_keeps_sites_with_devices_witness :
  ∃ r, get_sites sample_netbox = Return (JList r)
       ∧ r `sublist_of` sample_sites
       ∧ filter (λ site, has_devices site = true) sample_sites
         `sublist_of` r.
Proof.
  apply (get_sites_keeps_sites_with_devices sample_netbox sample_document
           sample_sites).
  - vm_compute. reflexivity.
  - vm_compute. reflexivity.
  - repeat constructor; eexists; vm_compute; reflexivity.
Defined.

Lemma format_devices_keeps_other_fields_witness :
  length sample_devices_cleaned = length sample_devices
  ∧ ∀ i item key,
      sample_devices !! i = Some item →
      key ≠ "primary_ip" → key ≠ "display_name" →
      ∃ item', sample_devices_cleaned !! i = Some item'
               ∧ getitem item' key = getitem item key.
Proof.
  apply (format_devices_keeps_other_fields sample_devices).
  vm_compute. reflexivity.
Defined.

Lemma format_devices_strips_prefix_length_witness :
  ∃ device', sample_devices_cleaned !! 0%nat = Some device'
             ∧ address_of device' = Return "10.0.0.1".
Proof.
  apply (format_devices_strips_prefix_length sample_devices
           sample_devices_cleaned 0
           (sample_device "core-sw-1" "core-sw-1" "10.0.0.1/24")
           "10.0.0.1" "24").
  - vm_compute. reflexivity.
  - reflexivity.
  - vm_compute. reflexivity.
  - discriminate.
  - reflexivity.
Defined.

Lemma format_devices_keeps_plain_address_witness :
  ∃ device', sample_devices_cleaned !! 1%nat = Some device'
             ∧ address_of device' = Return "192.0.2.7".
Proof.
  apply (format_devices_keeps_plain_address sample_devices
           sample_devices_cleaned 1
           (sample_device "edge-rtr-12" "edge-rtr-12" "192.0.2.7")
           "192.0.2.7").
  - vm_compute. reflexivity.
  - reflexivity.
  - vm_compute. reflexivity.
  - reflexivity.
Defined.

Lemma format_devices_strips_member_number_witness :
  ∃ device', sample_devices_cleaned !! 0%nat = Some device'
             ∧ name_of device' = Return "core-sw".
Proof.
  apply (format_devices_strips_member_number sample_devices
           sample_devices_cleaned 0
           (sample_device "core-sw-1" "core-sw-1" "10.0.0.1/24")
           "core-sw" (Ascii.ascii_of_nat 49)).
  - vm_compute. reflexivity.
  - reflexivity.
  - vm_compute. reflexivity.
  - reflexivity.
Defined.

Lemma format_devices_keeps_two_digits_witness :
  ∃ device', sample_devices_cleaned !! 1%nat = Some device'
             ∧ name_of device' = Return "edge-rtr-12".
Proof.
  apply (format_devices_keeps_two_digits sample_devices
           sample_devices_cleaned 1
           (sample_device "edge-rtr-12" "edge-rtr-12" "192.0.2.7")
           "edge-rtr" (Ascii.ascii_of_nat 49) (Ascii.ascii_of_nat 50)).
  - vm_compute. reflexivity.
  - reflexivity.
  - vm_compute. reflexivity.
  - reflexivity.
  - reflexivity.
Defined.

Lemma no_reply_raises_type_error_witness :
  get_devices not_found (Some "hq") None = Raises TypeError
  ∧ get_sites not_found = Raises TypeError.
Proof.
  apply (no_reply_raises_type_error not_found (Some "hq") None).
  intros url document. discriminate.
Defined.
